(** * Savant: stream admission/release and per-batch metadata reconciliation

    A shallow embedding of the DeepStream pipeline core of Savant
    ([savant/deepstream/pipeline.py], [savant/deepstream/source_output.py],
    [savant/meta/bbox.py]) and the properties of its specification.

    Conventions of the embedding.
    - Python [int] is [Z] (slot indices, which index lists, are [nat]);
      Python [float] is IEEE binary64, i.e. Rocq's primitive [float].
    - A [SourceInfo] is a mutable object shared by reference between the
      registry, the pad probes and the deferred tasks: objects live in a
      store ([heap]) and are named by their position there.
    - A Python exception is the [None] result of an [option]-valued
      function.
    - Callbacks run on several threads; the embedding interleaves them at
      the granularity of one callback body, one iteration of a polling loop
      or one deferred task. *)

From Stdlib Require Import Floats.PrimFloat QArith Qcanon ZArith Lia.
From stdpp Require Import gmap strings list fin_maps pretty.

#[local] Open Scope Z_scope.

(* ===================================================================== *)
(** * Definitions *)
(* ===================================================================== *)

(** ** savant/meta/bbox.py *)

Module Bbox.

(** The arithmetic [BBox] uses: [+], [-], [*] and the literal [0.5]. The
    program computes with binary64 floats ([float_Num]); [Qc_Num] reads the
    same code in exact rational arithmetic. *)
Class Num (F : Type) := {
  nadd : F -> F -> F;
  nsub : F -> F -> F;
  nmul : F -> F -> F;
  half : F
}.

#[global] Instance float_Num : Num float := {|
  nadd := PrimFloat.add;
  nsub := PrimFloat.sub;
  nmul := PrimFloat.mul;
  half := 0.5%float
|}.

#[global] Instance Qc_Num : Num Qc := {|
  nadd := Qcplus;
  nsub := Qcminus;
  nmul := Qcmult;
  half := Q2Qc (1 # 2)
|}.

Section BBox.
Context {F : Type} `{Num F}.

(** [BaseBBox] dataclass; [BBox] adds properties only. *)
Record BBox := mkBBox {
  x_center : F;
  y_center : F;
  width : F;
  height : F
}.

(** [BBox.top] getter: [self.y_center - 0.5 * self.height]. *)
Definition top (b : BBox) : F := nsub (y_center b) (nmul half (height b)).

(** [BBox.top] setter: [self.y_center = value + 0.5 * self.height]. *)
Definition set_top (b : BBox) (value : F) : BBox :=
  mkBBox (x_center b) (nadd value (nmul half (height b))) (width b) (height b).

(** [BBox.left] getter: [self.x_center - 0.5 * self.width]. *)
Definition left (b : BBox) : F := nsub (x_center b) (nmul half (width b)).

(** [BBox.left] setter: [self.x_center = value + 0.5 * self.width]. *)
Definition set_left (b : BBox) (value : F) : BBox :=
  mkBBox (nadd value (nmul half (width b))) (y_center b) (width b) (height b).

(** [BBox.bottom]: [self.y_center + 0.5 * self.height]. *)
Definition bottom (b : BBox) : F := nadd (y_center b) (nmul half (height b)).

(** [BBox.right]: [self.x_center + 0.5 * self.width]. *)
Definition right (b : BBox) : F := nadd (x_center b) (nmul half (width b)).

(** [BBox.scale]. *)
Definition scale (b : BBox) (scale_x scale_y : F) : BBox :=
  mkBBox (nmul (x_center b) scale_x) (nmul (y_center b) scale_y)
         (nmul (width b) scale_x) (nmul (height b) scale_y).

(** [BBox.tlbr]: [self.left, self.top, self.right, self.bottom]. *)
Definition tlbr (b : BBox) : F * F * F * F := (left b, top b, right b, bottom b).

End BBox.

Arguments BBox F : clear implicits.

End Bbox.

(** ** Pipeline elements and resolutions *)

(** A [Gst.Element], identified by the factory it was made from. *)
Definition Elem := string.

(** [savant.utils.source_info.Resolution]. *)
Record Resolution := mkResolution {
  res_width : Z;
  res_height : Z
}.

(** The frame padding of [FrameParameters]. *)
Record FramePadding := mkFramePadding {
  pad_left : Z;
  pad_top : Z;
  pad_right : Z;
  pad_bottom : Z;
  keep : bool
}.

(** [savant.config.schema.FrameParameters] is not among the sources; the
    attributes the code reads are fields here, [total_width] and
    [total_height] (properties of that class) included. *)
Record FrameParameters := mkFrameParameters {
  fp_width : Z;
  fp_height : Z;
  padding : option FramePadding;
  total_width : Z;
  total_height : Z
}.

(** [savant.gstreamer.codecs.CodecInfo]: the attributes the outputs read. *)
Record CodecInfo := mkCodecInfo {
  encoder : string;
  parser : string;
  caps_name : string
}.

(** [savant.utils.source_info.SourceInfo], as [pipeline.py] uses it:
    [lock] is a [threading.Event], of which only the flag matters. *)
Record SourceInfo := mkSourceInfo {
  source_id : string;
  pad_idx : option nat;
  src_resolution : option Resolution;
  dest_resolution : option Resolution;
  before_muxer : list Elem;
  after_demuxer : list Elem;
  lock : bool
}.

Definition with_pad_idx (v : option nat) (s : SourceInfo) : SourceInfo :=
  mkSourceInfo (source_id s) v (src_resolution s) (dest_resolution s)
               (before_muxer s) (after_demuxer s) (lock s).
Definition with_src_resolution (v : option Resolution) (s : SourceInfo) : SourceInfo :=
  mkSourceInfo (source_id s) (pad_idx s) v (dest_resolution s)
               (before_muxer s) (after_demuxer s) (lock s).
Definition with_dest_resolution (v : option Resolution) (s : SourceInfo) : SourceInfo :=
  mkSourceInfo (source_id s) (pad_idx s) (src_resolution s) v
               (before_muxer s) (after_demuxer s) (lock s).
Definition with_before_muxer (v : list Elem) (s : SourceInfo) : SourceInfo :=
  mkSourceInfo (source_id s) (pad_idx s) (src_resolution s) (dest_resolution s)
               v (after_demuxer s) (lock s).
Definition with_after_demuxer (v : list Elem) (s : SourceInfo) : SourceInfo :=
  mkSourceInfo (source_id s) (pad_idx s) (src_resolution s) (dest_resolution s)
               (before_muxer s) v (lock s).
Definition with_lock (v : bool) (s : SourceInfo) : SourceInfo :=
  mkSourceInfo (source_id s) (pad_idx s) (src_resolution s) (dest_resolution s)
               (before_muxer s) (after_demuxer s) v.

(** ** savant/deepstream/source_output.py *)

Module SourceOutput.

(** [round(n / d)] of Python 3 for integers [n] and [d > 0]: true division
    followed by rounding to the nearest integer, ties to the even one. The
    code divides by 8 in binary64, which is exact for [|n| <= 2^53]; caps
    widths and heights are C [int]s. *)
Definition py_round_div (n d : Z) : Z :=
  let q := n / d in
  match (2 * (n mod d)) ?= d with
  | Lt => q
  | Gt => q + 1
  | Eq => if Z.even q then q else q + 1
  end.

(** The output variants chosen in [NvDsPipeline.__init__]. *)
Inductive t :=
| SourceOutputOnlyMeta
| SourceOutputRawRgba (frame_params : FrameParameters)
| SourceOutputEncoded (codec : CodecInfo) (frame_params : FrameParameters)
| SourceOutputH26X (codec : CodecInfo) (frame_params : FrameParameters)
| SourceOutputPng (codec : CodecInfo) (frame_params : FrameParameters).

(** [SourceOutputOnlyMeta.dest_resolution]; [None] is the [AttributeError]
    of reading a resolution that is still [None]. *)
Definition only_meta_dest_resolution (source_info : SourceInfo) : option Resolution :=
  match src_resolution source_info with
  | Some r => Some (mkResolution (res_width r) (res_height r))
  | None => None
  end.

(** [SourceOutputWithFrame.dest_resolution]; [//] is floor division and
    raises [ZeroDivisionError] ([None]) on a zero divisor. *)
Definition with_frame_dest_resolution (frame_params : FrameParameters)
    (source_info : SourceInfo) : option Resolution :=
  match src_resolution source_info with
  | None => None
  | Some r =>
      let width := res_width r in
      let height := res_height r in
      match padding frame_params with
      | Some pd =>
          if keep pd then
            if (fp_width frame_params =? 0) || (fp_height frame_params =? 0)
            then None
            else Some (mkResolution
                         (width * total_width frame_params / fp_width frame_params)
                         (height * total_height frame_params / fp_height frame_params))
          else Some (mkResolution width height)
      | None => Some (mkResolution width height)
      end
  end.

(** [SourceOutputPng.dest_resolution]. *)
Definition png_dest_resolution (frame_params : FrameParameters)
    (source_info : SourceInfo) : option Resolution :=
  match with_frame_dest_resolution frame_params source_info with
  | None => None
  | Some dest_resolution =>
      Some (mkResolution (py_round_div (res_width dest_resolution) 8 * 8)
                         (py_round_div (res_height dest_resolution) 8 * 8))
  end.

(** [SourceOutput.dest_resolution], dispatched on the variant. *)
Definition dest_resolution (o : t) (source_info : SourceInfo) : option Resolution :=
  match o with
  | SourceOutputOnlyMeta => only_meta_dest_resolution source_info
  | SourceOutputRawRgba fp => with_frame_dest_resolution fp source_info
  | SourceOutputEncoded _ fp => with_frame_dest_resolution fp source_info
  | SourceOutputH26X _ fp => with_frame_dest_resolution fp source_info
  | SourceOutputPng _ fp => png_dest_resolution fp source_info
  end.

(** [_add_transform_elems]: the elements appended between the converter and
    the caps filter. *)
Definition _add_transform_elems (o : t) : list Elem :=
  match o with
  | SourceOutputOnlyMeta => []
  | SourceOutputRawRgba _ => []
  | SourceOutputEncoded codec _ => [encoder codec]
  | SourceOutputH26X codec _ => [encoder codec; parser codec]
  | SourceOutputPng codec _ => [encoder codec]
  end.

(** [add_output]: what it appends to [source_info.after_demuxer]. *)
Definition add_output (o : t) (source_info : SourceInfo) : SourceInfo :=
  match o with
  | SourceOutputOnlyMeta => source_info
  | _ =>
      with_after_demuxer
        (after_demuxer source_info
           ++ ["nvvideoconvert"%string] ++ _add_transform_elems o
           ++ ["capsfilter"%string])
        source_info
  end.

End SourceOutput.

(** ** savant/deepstream/pipeline.py: admission and release of streams *)

Module Pipeline.

(** The identity of a [SourceInfo] object: its position in the store. *)
Definition ref := nat.

(** [Gst.PadProbeReturn]. *)
Inductive PadProbeReturn := PASS | DROP | REMOVE | OK.

(** A callback handed to [GLib.idle_add] with its arguments; the sink pad
    of the muxer is named by its index [N] in [sink_N]. *)
Inductive Task :=
| RemoveInput (source_info : ref) (sink_pad : nat)
| RemoveOutput (source_info : ref).

#[global] Instance Task_eq_dec : EqDecision Task.
Proof. solve_decision. Defined.

(** Modelled from the spec: [SourceInfoRegistry] of
    [savant/utils/source_info.py] is not among the sources. Following the
    Source Registry of the spec it maps a stream identifier to its
    [SourceInfo] and a slot index to the stream identifier. *)
Record SourceInfoRegistry := mkRegistry {
  sources_by_id : gmap string ref;
  source_id_by_index : gmap nat string
}.

(** Modelled from the spec: [SourceInfoRegistry.get_source]; [None] is the
    [KeyError] that [on_source_added] catches. *)
Definition get_source (reg : SourceInfoRegistry) (sid : string) : option ref :=
  sources_by_id reg !! sid.

(** Modelled from the spec: [SourceInfoRegistry.update_source] records the
    stream and, once it has one, its slot index. *)
Definition update_source (reg : SourceInfoRegistry) (r : ref) (s : SourceInfo)
    : SourceInfoRegistry :=
  mkRegistry (<[source_id s := r]> (sources_by_id reg))
             (match pad_idx s with
              | Some i => <[i := source_id s]> (source_id_by_index reg)
              | None => source_id_by_index reg
              end).

(** Modelled from the spec: [SourceInfoRegistry.remove_source]; the
    registry entry of the stream is removed at full teardown. *)
Definition remove_source (reg : SourceInfoRegistry) (s : SourceInfo)
    : SourceInfoRegistry :=
  mkRegistry (delete (source_id s) (sources_by_id reg))
             (match pad_idx s with
              | Some i => delete i (source_id_by_index reg)
              | None => source_id_by_index reg
              end).

(** Modelled from the spec: [SourceInfoRegistry.get_id_by_pad_index]. *)
Definition get_id_by_pad_index (reg : SourceInfoRegistry) (i : nat) : option string :=
  source_id_by_index reg !! i.

(** The part of [NvDsPipeline] that admission and release read and write.
    - [heap]: the [SourceInfo] objects.
    - [_free_pad_indices]: a Python list; [_remove_output_elements] appends
      [source_info.pad_idx], an [Optional[int]], hence [option nat].
    - [_muxer_sink_pads]: the requested [sink_N] pads of the muxer, each
      with the [source_id] given to its EOS probe.
    - [_queue]: the [SinkEndOfStream] messages put on the output queue.
    - [idle]: the callbacks queued by [GLib.idle_add], oldest first.
    - [waiting]: the [on_source_added] calls blocked on [lock.wait].
    - [caps_probes]: the CAPS probes added by [on_source_added]. *)
Record NvDsPipeline := mkPipeline {
  heap : list SourceInfo;
  _sources : SourceInfoRegistry;
  _free_pad_indices : list (option nat);
  _muxer_sink_pads : gmap nat string;
  _source_output : SourceOutput.t;
  _suppress_eos : bool;
  _queue : list string;
  idle : list Task;
  waiting : list ref;
  caps_probes : list ref
}.

Definition set_heap (v : list SourceInfo) (p : NvDsPipeline) : NvDsPipeline :=
  mkPipeline v (_sources p) (_free_pad_indices p) (_muxer_sink_pads p)
             (_source_output p) (_suppress_eos p) (_queue p) (idle p)
             (waiting p) (caps_probes p).
Definition set_sources (v : SourceInfoRegistry) (p : NvDsPipeline) : NvDsPipeline :=
  mkPipeline (heap p) v (_free_pad_indices p) (_muxer_sink_pads p)
             (_source_output p) (_suppress_eos p) (_queue p) (idle p)
             (waiting p) (caps_probes p).
Definition set_free_pad_indices (v : list (option nat)) (p : NvDsPipeline)
    : NvDsPipeline :=
  mkPipeline (heap p) (_sources p) v (_muxer_sink_pads p)
             (_source_output p) (_suppress_eos p) (_queue p) (idle p)
             (waiting p) (caps_probes p).
Definition set_muxer_sink_pads (v : gmap nat string) (p : NvDsPipeline)
    : NvDsPipeline :=
  mkPipeline (heap p) (_sources p) (_free_pad_indices p) v
             (_source_output p) (_suppress_eos p) (_queue p) (idle p)
             (waiting p) (caps_probes p).
Definition set_queue (v : list string) (p : NvDsPipeline) : NvDsPipeline :=
  mkPipeline (heap p) (_sources p) (_free_pad_indices p) (_muxer_sink_pads p)
             (_source_output p) (_suppress_eos p) v (idle p)
             (waiting p) (caps_probes p).
Definition set_idle (v : list Task) (p : NvDsPipeline) : NvDsPipeline :=
  mkPipeline (heap p) (_sources p) (_free_pad_indices p) (_muxer_sink_pads p)
             (_source_output p) (_suppress_eos p) (_queue p) v
             (waiting p) (caps_probes p).
Definition set_waiting (v : list ref) (p : NvDsPipeline) : NvDsPipeline :=
  mkPipeline (heap p) (_sources p) (_free_pad_indices p) (_muxer_sink_pads p)
             (_source_output p) (_suppress_eos p) (_queue p) (idle p)
             v (caps_probes p).
Definition set_caps_probes (v : list ref) (p : NvDsPipeline) : NvDsPipeline :=
  mkPipeline (heap p) (_sources p) (_free_pad_indices p) (_muxer_sink_pads p)
             (_source_output p) (_suppress_eos p) (_queue p) (idle p)
             (waiting p) v.

(** Assignment to the object [r]. *)
Definition store (r : ref) (s : SourceInfo) (p : NvDsPipeline) : NvDsPipeline :=
  set_heap (<[r := s]> (heap p)) p.

(** [l.remove(x)]: the first occurrence goes. *)
Fixpoint remove_first (x : ref) (l : list ref) : list ref :=
  match l with
  | [] => []
  | y :: l' => if decide (x = y) then l' else y :: remove_first x l'
  end.

(** [GLib.idle_add]. *)
Definition idle_add (t : Task) (p : NvDsPipeline) : NvDsPipeline :=
  set_idle (idle p ++ [t]) p.

(** The pipeline after [__init__], [_add_source] and [_add_sink]:
    [_create_demuxer] allocates [_max_parallel_streams] source pads and
    [_add_sink] sets [_free_pad_indices = list(range(len(pads)))]. *)
Definition init (_max_parallel_streams : nat) (source_output : SourceOutput.t)
    (suppress_eos : bool) : NvDsPipeline :=
  mkPipeline [] (mkRegistry ∅ ∅) (Some <$> seq 0 _max_parallel_streams) ∅
             source_output suppress_eos [] [] [] [].

Section Admission.

(** [init_source] is not among the sources: the flag of the [lock] event
    of the record it creates is a parameter. *)
Variable fresh_lock : bool.

(** Modelled from the spec: [SourceInfoRegistry.init_source] creates a
    fresh [SourceInfo] (no slot, no resolutions, no elements) and registers
    it under its identifier. *)
Definition init_source (sid : string) (p : NvDsPipeline) : ref * NvDsPipeline :=
  let r := length (heap p) in
  (r, set_sources (mkRegistry (<[sid := r]> (sources_by_id (_sources p)))
                              (source_id_by_index (_sources p)))
        (set_heap (heap p ++ [mkSourceInfo sid None None None [] [] fresh_lock]) p)).

(** [on_source_added], up to the first [lock.wait]. [caps] is the name of
    the first structure of the current caps of the new pad, if it has caps;
    [sid] is [pad_to_source_id(new_pad)]. A stream that is not registered
    gets a fresh record and its CAPS probe at once; for a registered one
    the call enters the loop [while not source_info.lock.wait(5)]. *)
Definition on_source_added (caps : option string) (sid : string)
    (p : NvDsPipeline) : NvDsPipeline :=
  if match caps with
     | Some name => negb (String.prefix "video" name)
     | None => false
     end
  then p
  else
    match get_source (_sources p) sid with
    | None => let '(r, p') := init_source sid p in
              set_caps_probes (caps_probes p' ++ [r]) p'
    | Some r => set_waiting (waiting p ++ [r]) p
    end.

(** One [source_info.lock.wait(5)] of a blocked [on_source_added]: with the
    flag unset the loop logs and waits again; with the flag set the loop
    ends, [lock.clear()] runs and the CAPS probe is added. The wait that
    finds the flag set and the [clear()] after it are one step: the pads of
    the source element are named after the stream identifier, so one call
    at a time waits on a record. *)
Definition wait_release (r : ref) (p : NvDsPipeline) : NvDsPipeline :=
  match heap p !! r with
  | Some s =>
      if lock s then
        set_caps_probes (caps_probes p ++ [r])
          (set_waiting (remove_first r (waiting p))
             (store r (with_lock false s) p))
      else p
  | None => p
  end.

End Admission.

(** One iteration of [while source_info.pad_idx is None] in
    [_on_source_caps]: [pop(0)] from the free indices, or, on [IndexError],
    a warning and [time.sleep(5)]. *)
Definition acquire_pad_idx (r : ref) (s : SourceInfo) (p : NvDsPipeline)
    : NvDsPipeline :=
  match _free_pad_indices p with
  | i :: rest => set_free_pad_indices rest (store r (with_pad_idx i s) p)
  | [] => p
  end.

(** [_add_source_output]: the fake sink with its [on_last_pad_eos] probe,
    the output queue, the destination resolution and the elements of the
    output variant. [None] when [dest_resolution] raises. GStreamer calls
    whose result the code asserts (linking) are taken to succeed. *)
Definition _add_source_output (o : SourceOutput.t) (s : SourceInfo)
    : option SourceInfo :=
  let s1 := with_after_demuxer (after_demuxer s ++ ["queue"%string]) s in
  match SourceOutput.dest_resolution o s1 with
  | None => None
  | Some d =>
      let s2 := SourceOutput.add_output o (with_dest_resolution (Some d) s1) in
      Some (with_after_demuxer (after_demuxer s2 ++ ["fakesink"%string]) s2)
  end.

(** [_add_input_converter]; [accepts] is the answer of
    [video_converter_sink.query_accept_caps(new_pad_caps)]. *)
Definition _add_input_converter (accepts : bool) (s : SourceInfo) : SourceInfo :=
  let s1 := if accepts then s
            else with_before_muxer (before_muxer s ++ ["videoconvert"%string]) s in
  let s2 := with_before_muxer (before_muxer s1 ++ ["nvvideoconvert"%string]) s1 in
  with_before_muxer (before_muxer s2 ++ ["capsfilter"%string]) s2.

(** [_request_muxer_sink_pad]: the pad [sink_N] of the stream's index is
    requested, and given an EOS probe with the stream identifier, unless the
    muxer still has it. *)
Definition _request_muxer_sink_pad (s : SourceInfo) (p : NvDsPipeline)
    : NvDsPipeline :=
  match pad_idx s with
  | Some i =>
      match _muxer_sink_pads p !! i with
      | None => set_muxer_sink_pads (<[i := source_id s]> (_muxer_sink_pads p)) p
      | Some _ => p
      end
  | None => p
  end.

(** [_on_source_caps] after the loop: the body under
    [_source_adding_lock], after which the probe is removed. *)
Definition link_source (r : ref) (s : SourceInfo) (width height : Z)
    (accepts : bool) (p : NvDsPipeline) : option NvDsPipeline :=
  let s1 := with_src_resolution (Some (mkResolution width height)) s in
  let p1 := set_sources (update_source (_sources p) r s1) p in
  match (match after_demuxer s1 with
         | [] => _add_source_output (_source_output p) s1
         | _ => Some s1
         end) with
  | None => None
  | Some s2 =>
      let s3 := _add_input_converter accepts s2 in
      Some (set_caps_probes (remove_first r (caps_probes p))
              (_request_muxer_sink_pad s3 (store r s3 p1)))
  end.

(** [_on_source_caps], one scheduling step of it: [width] and [height] are
    the results of [caps_struct.get_int] ([None] fails the [assert]); while
    the stream has no index an iteration of the acquisition loop runs, and
    once it has one the stream is linked. *)
Definition _on_source_caps (r : ref) (width height : option Z) (accepts : bool)
    (p : NvDsPipeline) : option NvDsPipeline :=
  match width, height, heap p !! r with
  | Some w, Some h, Some s =>
      match pad_idx s with
      | None => Some (acquire_pad_idx r s p)
      | Some _ => link_source r s w h accepts p
      end
  | _, _, _ => None
  end.

(** [_on_muxer_sink_pad_eos] on the pad [sink_N]: the probe carries the
    stream identifier; [get_source] may raise [KeyError]. *)
Definition _on_muxer_sink_pad_eos (sink_pad : nat) (p : NvDsPipeline)
    : option (NvDsPipeline * PadProbeReturn) :=
  match _muxer_sink_pads p !! sink_pad with
  | None => None
  | Some sid =>
      match get_source (_sources p) sid with
      | None => None
      | Some r => Some (idle_add (RemoveInput r sink_pad) p, PASS)
      end
  end.

(** [_remove_input_elements], with [_release_muxer_sink_pad]. *)
Definition _remove_input_elements (r : ref) (sink_pad : nat) (p : NvDsPipeline)
    : option NvDsPipeline :=
  match heap p !! r with
  | None => None
  | Some s =>
      Some (set_muxer_sink_pads (delete sink_pad (_muxer_sink_pads p))
              (store r (with_before_muxer [] s) p))
  end.

(** [on_last_pad_eos]. *)
Definition on_last_pad_eos (r : ref) (p : NvDsPipeline)
    : option (NvDsPipeline * PadProbeReturn) :=
  match heap p !! r with
  | None => None
  | Some s =>
      Some (set_queue (_queue p ++ [source_id s]) (idle_add (RemoveOutput r) p),
            if _suppress_eos p then DROP else PASS)
  end.

(** [_remove_output_elements]. *)
Definition _remove_output_elements (r : ref) (p : NvDsPipeline)
    : option NvDsPipeline :=
  match heap p !! r with
  | None => None
  | Some s =>
      let s1 := with_after_demuxer [] s in
      let p1 := set_sources (remove_source (_sources p) s1) p in
      let p2 := set_free_pad_indices (_free_pad_indices p1 ++ [pad_idx s1]) p1 in
      Some (store r (with_lock true (with_pad_idx None s1)) p2)
  end.

(** The GLib main loop runs the oldest idle callback; each returns [False]
    and is not run again. *)
Definition run_task (t : Task) (p : NvDsPipeline) : option NvDsPipeline :=
  match t with
  | RemoveInput r sink_pad => _remove_input_elements r sink_pad p
  | RemoveOutput r => _remove_output_elements r p
  end.

Definition run_idle (p : NvDsPipeline) : option NvDsPipeline :=
  match idle p with
  | [] => None
  | t :: rest => run_task t (set_idle rest p)
  end.

(** What happens to the pipeline, one callback at a time. *)
Inductive Event :=
| SourceAdded (caps : option string) (sid : string)
| WaitRelease (r : ref)
| SourceCaps (r : ref) (width height : option Z) (accepts : bool)
| MuxerSinkPadEos (sink_pad : nat)
| LastPadEos (r : ref)
| Idle.

(** The fake sink of [r] is in the pipeline and its pad has not seen EOS:
    GStreamer delivers EOS once to a pad, and the probe goes with the
    element. *)
Definition last_pad_live (r : ref) (p : NvDsPipeline) : bool :=
  match heap p !! r with
  | Some s =>
      negb (bool_decide (after_demuxer s = []))
      && negb (bool_decide (RemoveOutput r ∈ idle p))
  | None => false
  end.

Section Run.
Variable fresh_lock : bool.

(** One event; [None] when the event cannot occur in this state (no such
    blocked call, probe or pad) or its callback raises. *)
Definition step (p : NvDsPipeline) (e : Event) : option NvDsPipeline :=
  match e with
  | SourceAdded caps sid => Some (on_source_added fresh_lock caps sid p)
  | WaitRelease r =>
      if bool_decide (r ∈ waiting p) then Some (wait_release r p) else None
  | SourceCaps r width height accepts =>
      if bool_decide (r ∈ caps_probes p)
      then _on_source_caps r width height accepts p
      else None
  | MuxerSinkPadEos sink_pad => fst <$> _on_muxer_sink_pad_eos sink_pad p
  | LastPadEos r =>
      if last_pad_live r p then fst <$> on_last_pad_eos r p else None
  | Idle => run_idle p
  end.

Fixpoint run (evs : list Event) (p : NvDsPipeline) : option NvDsPipeline :=
  match evs with
  | [] => Some p
  | e :: evs' =>
      match step p e with
      | Some p' => run evs' p'
      | None => None
      end
  end.

End Run.

(** The slot indices in the free pool, and those held by streams. *)
Definition free_slots (p : NvDsPipeline) : list nat := omap id (_free_pad_indices p).
Definition held_slots (p : NvDsPipeline) : list nat := omap pad_idx (heap p).

(** The [n] slot indices are, each once, either free or held. *)
Definition slots_conserved (n : nat) (p : NvDsPipeline) : Prop :=
  free_slots p ++ held_slots p ≡ₚ seq 0 n.

(** The record of a stream after its release. *)
Definition released (s : SourceInfo) : SourceInfo :=
  with_lock true (with_pad_idx None (with_after_demuxer [] s)).

(** The pipeline after both teardowns of the stream [r] that held [i]. *)
Definition drained (r : ref) (s : SourceInfo) (i : nat) (p : NvDsPipeline)
    : NvDsPipeline :=
  mkPipeline (<[r := released (with_before_muxer [] s)]> (heap p))
             (remove_source (_sources p) s)
             (_free_pad_indices p ++ [Some i])
             (delete i (_muxer_sink_pads p))
             (_source_output p) (_suppress_eos p)
             (_queue p ++ [source_id s]) [] (waiting p) (caps_probes p).

(** The streams with a queued [_remove_output_elements]. *)
Definition out_tasks (p : NvDsPipeline) : list ref :=
  omap (fun t => match t with RemoveOutput r => Some r | RemoveInput _ _ => None end)
       (idle p).

(** The invariant behind the release gate: a set gate means the post-batch
    elements are gone; a stream with a pending CAPS probe has its gate
    cleared and no post-batch elements; a queued release is for a stream
    that still has its post-batch elements, and is queued once. *)
Record gate_inv_on (h : list SourceInfo) (probes tasks : list ref) : Prop := {
  gi_lock : forall r s, h !! r = Some s -> lock s = true -> after_demuxer s = [];
  gi_probe : forall r s, r ∈ probes -> h !! r = Some s ->
                         lock s = false /\ after_demuxer s = [];
  gi_probe_valid : forall r, r ∈ probes -> (r < length h)%nat;
  gi_probe_nodup : NoDup probes;
  gi_task : forall r, r ∈ tasks -> exists s, h !! r = Some s /\ after_demuxer s <> [];
  gi_task_nodup : NoDup tasks
}.

Definition gate_inv (p : NvDsPipeline) : Prop :=
  gate_inv_on (heap p) (caps_probes p) (out_tasks p).

End Pipeline.

(** ** savant/deepstream/pipeline.py: EOS on the demuxer source pads *)

Module Demuxer.

(** A [Gst.Pad], by identity. *)
Definition Pad := nat.

(** The pads of the demuxer side: the source pads allocated by
    [_allocate_demuxer_pads], in index order; the link of a source pad to its
    peer; and the pads that were sent an EOS event by [send_event], oldest
    first. *)
Record State := mkState {
  _demuxer_src_pads : list Pad;
  links : gmap Pad Pad;
  eos_sent : list Pad
}.

(** [_on_demuxer_src_pad_eos(pad, event)]. [pad_idx] is the result of
    [gst_nvevent_parse_stream_eos(event)], an unsigned stream index or
    [None]. The outer [None] is the [IndexError] of
    [self._demuxer_src_pads[pad_idx]]. *)
Definition _on_demuxer_src_pad_eos (pad : Pad) (pad_idx : option nat) (st : State)
    : option (State * Pipeline.PadProbeReturn) :=
  match pad_idx with
  | None => Some (st, Pipeline.PASS)
  | Some i =>
      match _demuxer_src_pads st !! i with
      | None => None
      | Some allocated =>
          if negb (bool_decide (pad = allocated)) then Some (st, Pipeline.PASS)
          else
            match links st !! pad with
            | Some peer =>
                Some (mkState (_demuxer_src_pads st) (delete pad (links st))
                              (eos_sent st ++ [peer]),
                      Pipeline.DROP)
            | None => Some (st, Pipeline.DROP)
            end
      end
  end.

End Demuxer.

(** ** savant/deepstream/pipeline.py: per-batch metadata *)

Module Reconciler.

(** [savant.meta.attribute.AttributeMeta]: the two attributes the filter
    reads; [attr_value] stands for the rest. *)
Record AttributeMeta := mkAttributeMeta {
  element_name : string;
  attr_name : string;
  attr_value : Z
}.

(** [pyds.NvDsObjectMeta]: the identity, the label, the rectangle (left,
    top, width, height) and the attribute lists that
    [nvds_attr_meta_iterator] yields for the object. *)
Record NvDsObjectMeta := mkNvDsObjectMeta {
  object_id : Z;
  obj_label : string;
  rect_params : Q * Q * Q * Q;
  attr_meta_lists : list (list AttributeMeta)
}.

Definition with_object_id (v : Z) (o : NvDsObjectMeta) : NvDsObjectMeta :=
  mkNvDsObjectMeta v (obj_label o) (rect_params o) (attr_meta_lists o).

(** [pyds.NvDsFrameMeta]; [savant_idx] is the [idx] of the Savant frame
    meta attached to the frame, if there is one. *)
Record NvDsFrameMeta := mkNvDsFrameMeta {
  pad_index : nat;
  buf_pts : Z;
  savant_idx : option Z;
  objects : list NvDsObjectMeta
}.

(** A model attribute of the configuration, and the model kinds that
    [add_element] tells apart. *)
Record ModelAttribute := mkModelAttribute {
  ma_name : string;
  internal : bool
}.

Inductive Model :=
| AttributeModel (attributes : list ModelAttribute)
| ComplexModel (attributes : list ModelAttribute)
| OtherModel.

Inductive PipelineElement :=
| ModelElement (name : string) (model : Model)
| PlainElement (name : string).

(** [add_element], as far as [_internal_attrs] goes: for a model element
    with an attribute or complex model, every attribute flagged [internal]
    is added as the pair (element name, attribute name). *)
Definition add_element (element : PipelineElement)
    (_internal_attrs : gset (string * string)) : gset (string * string) :=
  match element with
  | ModelElement name (AttributeModel attributes)
  | ModelElement name (ComplexModel attributes) =>
      fold_left (fun acc attr =>
                   if internal attr then {[ (name, ma_name attr) ]} ∪ acc else acc)
                attributes _internal_attrs
  | _ => _internal_attrs
  end.

(** [_internal_attrs] once the elements of the pipeline were added. *)
Definition add_elements (elements : list PipelineElement) : gset (string * string) :=
  fold_left (fun acc element => add_element element acc) elements ∅.

Section UpdateFrameMeta.

(** The constants of [savant.meta.constants] and the converters of
    [savant.deepstream.metadata] and [savant.gstreamer.metadata] are not
    among the sources; they are parameters. Numbers of the output records
    are taken by value, as rationals: Python's [==] compares a float with a
    float or an integer by value. *)
Variable UNTRACKED_OBJECT_ID : Z.
Variable PRIMARY_OBJECT_LABEL : string.
Variable OutAttr : Type.
Variable nvds_attr_meta_output_converter : AttributeMeta -> OutAttr.

(** The output record of an object: the entries of the dictionary that
    [update_frame_meta] reads or writes ([bbox] with [xc], [yc], [width],
    [height], and [attributes]); [om_source] stands for the other entries,
    which the converter takes from the native record. *)
Record ObjMeta := mkObjMeta {
  om_source : NvDsObjectMeta;
  bbox_xc : Q;
  bbox_yc : Q;
  bbox_width : Q;
  bbox_height : Q;
  om_attributes : list OutAttr
}.

Definition with_attributes (v : list OutAttr) (m : ObjMeta) : ObjMeta :=
  mkObjMeta (om_source m) (bbox_xc m) (bbox_yc m) (bbox_width m) (bbox_height m) v.

Variable nvds_obj_meta_output_converter :
  NvDsObjectMeta -> FrameParameters -> option Resolution -> ObjMeta.

(** [get_source_frame_meta(source_id, frame_idx, frame_pts)]: the objects
    already in [frame_meta.metadata['objects']]. *)
Variable get_source_frame_meta : string -> option Z -> Z -> list ObjMeta.

(** The first iteration over the objects of a frame: [object_ids] is the
    [defaultdict(int)] of the frame. *)
Fixpoint correct_object_ids (object_ids : gmap string Z)
    (objs : list NvDsObjectMeta) : list NvDsObjectMeta :=
  match objs with
  | [] => []
  | nvds_obj_meta :: rest =>
      if object_id nvds_obj_meta =? UNTRACKED_OBJECT_ID then
        let n := default 0 (object_ids !! obj_label nvds_obj_meta) in
        with_object_id n nvds_obj_meta
          :: correct_object_ids (<[obj_label nvds_obj_meta := n + 1]> object_ids) rest
      else nvds_obj_meta :: correct_object_ids object_ids rest
  end.

(** The two nested loops over [nvds_attr_meta_iterator]: the conversion of
    every attribute whose (element name, name) pair is not in
    [_internal_attrs] is appended. *)
Definition collect_attributes (_internal_attrs : gset (string * string))
    (attr_lists : list (list AttributeMeta)) (obj_meta : ObjMeta) : ObjMeta :=
  fold_left
    (fun obj_meta attr_meta_list =>
       fold_left
         (fun obj_meta attr_meta =>
            if bool_decide ((element_name attr_meta, attr_name attr_meta)
                              ∉ _internal_attrs)
            then with_attributes
                   (om_attributes obj_meta
                      ++ [nvds_attr_meta_output_converter attr_meta]) obj_meta
            else obj_meta)
         attr_meta_list obj_meta)
    attr_lists obj_meta.

(** The comparison of the [bbox] tuple with
    [(width / 2, height / 2, width, height)] of the destination
    resolution; [/] is true division. *)
Definition equals_frame (obj_meta : ObjMeta) (dest : Resolution) : bool :=
  Qeq_bool (bbox_xc obj_meta) (res_width dest # 2)
  && Qeq_bool (bbox_yc obj_meta) (res_height dest # 2)
  && Qeq_bool (bbox_width obj_meta) (inject_Z (res_width dest))
  && Qeq_bool (bbox_height obj_meta) (inject_Z (res_height dest)).

(** The second iteration over the objects of a frame; [objects] is
    [frame_meta.metadata['objects']]. [None] is the [AttributeError] of
    [source_info.dest_resolution.width] when the resolution is [None]. *)
Fixpoint collect_objects (frame_params : FrameParameters)
    (_internal_attrs : gset (string * string)) (dest : option Resolution)
    (objs : list NvDsObjectMeta) (objects : list ObjMeta) : option (list ObjMeta) :=
  match objs with
  | [] => Some objects
  | nvds_obj_meta :: rest =>
      let obj_meta :=
        collect_attributes _internal_attrs (attr_meta_lists nvds_obj_meta)
          (nvds_obj_meta_output_converter nvds_obj_meta frame_params dest) in
      if String.eqb (obj_label nvds_obj_meta) PRIMARY_OBJECT_LABEL then
        match dest with
        | None => None
        | Some d =>
            if equals_frame obj_meta d
               && bool_decide (om_attributes obj_meta = [])
            then collect_objects frame_params _internal_attrs dest rest objects
            else collect_objects frame_params _internal_attrs dest rest
                   (objects ++ [obj_meta])
        end
      else collect_objects frame_params _internal_attrs dest rest
             (objects ++ [obj_meta])
  end.

(** The record that [metadata_add_frame_meta] stores for a frame. *)
Record FrameOutput := mkFrameOutput {
  fo_source_id : string;
  fo_frame_idx : option Z;
  fo_frame_pts : Z;
  fo_objects : list ObjMeta
}.

(** The body of the loop over the frames of a batch; [None] is a
    [KeyError] of the registry or the [AttributeError] above. *)
Definition update_frame (frame_params : FrameParameters)
    (_internal_attrs : gset (string * string)) (p : Pipeline.NvDsPipeline)
    (nvds_frame_meta : NvDsFrameMeta) : option FrameOutput :=
  let objs := correct_object_ids ∅ (objects nvds_frame_meta) in
  match Pipeline.get_id_by_pad_index (Pipeline._sources p)
          (pad_index nvds_frame_meta) with
  | None => None
  | Some sid =>
      let frame_idx := savant_idx nvds_frame_meta in
      let frame_pts := buf_pts nvds_frame_meta in
      match Pipeline.get_source (Pipeline._sources p) sid with
      | None => None
      | Some r =>
          match Pipeline.heap p !! r with
          | None => None
          | Some source_info =>
              match collect_objects frame_params _internal_attrs
                      (dest_resolution source_info) objs
                      (get_source_frame_meta sid frame_idx frame_pts) with
              | None => None
              | Some objects => Some (mkFrameOutput sid frame_idx frame_pts objects)
              end
          end
      end
  end.

(** [update_frame_meta]: the frames of the batch, in order; an exception
    in a frame ends the call. *)
Fixpoint update_frame_meta (frame_params : FrameParameters)
    (_internal_attrs : gset (string * string)) (p : Pipeline.NvDsPipeline)
    (batch : list NvDsFrameMeta) : option (list FrameOutput) :=
  match batch with
  | [] => Some []
  | nvds_frame_meta :: rest =>
      match update_frame frame_params _internal_attrs p nvds_frame_meta with
      | None => None
      | Some out =>
          match update_frame_meta frame_params _internal_attrs p rest with
          | None => None
          | Some outs => Some (out :: outs)
          end
      end
  end.

(** The specification's reading of the two iterations. *)

(** The number of objects of the label among [objs] that carry the
    untracked identity. *)
Definition untracked_before (objs : list NvDsObjectMeta) (label : string) : Z :=
  Z.of_nat (length (filter (fun o => object_id o = UNTRACKED_OBJECT_ID
                                     /\ obj_label o = label) objs)).

(** The attributes of an object that are not registered as internal. *)
Definition exported (_internal_attrs : gset (string * string))
    (o : NvDsObjectMeta) : list AttributeMeta :=
  filter (fun a => (element_name a, attr_name a) ∉ _internal_attrs)
         (concat (attr_meta_lists o)).

(** The output record of an object: its conversion, with the conversions
    of its exported attributes appended. *)
Definition output_record (frame_params : FrameParameters)
    (_internal_attrs : gset (string * string)) (dest : option Resolution)
    (o : NvDsObjectMeta) : ObjMeta :=
  let base := nvds_obj_meta_output_converter o frame_params dest in
  with_attributes
    (om_attributes base
       ++ (nvds_attr_meta_output_converter <$> exported _internal_attrs o))
    base.

(** The degenerate whole-frame object: primary label, the geometry of the
    whole destination frame and no attribute. *)
Definition degenerate (d : Resolution) (o : NvDsObjectMeta) (obj_meta : ObjMeta)
    : Prop :=
  obj_label o = PRIMARY_OBJECT_LABEL
  /\ (bbox_xc obj_meta == res_width d # 2)%Q
  /\ (bbox_yc obj_meta == res_height d # 2)%Q
  /\ (bbox_width obj_meta == inject_Z (res_width d))%Q
  /\ (bbox_height obj_meta == inject_Z (res_height d))%Q
  /\ om_attributes obj_meta = [].

#[global] Instance degenerate_dec (d : Resolution) (o : NvDsObjectMeta)
    (obj_meta : ObjMeta) : Decision (degenerate d o obj_meta).
Proof.
  unfold degenerate.
  repeat (apply and_dec; [first [apply Qeq_dec | apply _]|]).
  apply _.
Defined.

End UpdateFrameMeta.

End Reconciler.

(** ** Inputs of the examples *)

Section Examples.
Import Pipeline.

(** The boxes of the binary64 counterexamples: a 0.7 wide box whose left
    edge is set to 0.1, and the box centred at x = 100.5 of width 33.3. *)
Definition bbox_07 : Bbox.BBox float :=
  Bbox.mkBBox 0%float 0%float 0x1.6666666666666p-1%float 1%float.
Definition bbox_333 : Bbox.BBox float :=
  Bbox.mkBBox 0x1.92p+6%float 0%float 0x1.0a66666666666p+5%float 1%float.

(** A 101x202 source without padding, encoded as PNG. *)
Definition source_101x202 : SourceInfo :=
  mkSourceInfo "camera1" (Some 0%nat) (Some (mkResolution 101 202)) None [] [] false.
Definition frame_params_plain : FrameParameters :=
  mkFrameParameters 1280 720 None 1280 720.

(** Two streams admitted to a pipeline with two slots; the first is then
    drained and released. *)
Definition two_streams : list Pipeline.Event :=
  [Pipeline.SourceAdded None "camera1";
   Pipeline.SourceCaps 0%nat (Some 1280) (Some 720) true;
   Pipeline.SourceCaps 0%nat (Some 1280) (Some 720) true;
   Pipeline.SourceAdded (Some "video/x-raw") "camera2";
   Pipeline.SourceCaps 1%nat (Some 640) (Some 480) false;
   Pipeline.SourceCaps 1%nat (Some 640) (Some 480) false;
   Pipeline.MuxerSinkPadEos 0%nat;
   Pipeline.LastPadEos 0%nat;
   Pipeline.Idle;
   Pipeline.Idle].

(** One stream is admitted and its downstream EOS is processed; no EOS
    reaches the muxer sink pad. *)
Definition downstream_eos_only : list Pipeline.Event :=
  [Pipeline.SourceAdded None "camera1";
   Pipeline.SourceCaps 0%nat (Some 1280) (Some 720) true;
   Pipeline.SourceCaps 0%nat (Some 1280) (Some 720) true;
   Pipeline.LastPadEos 0%nat;
   Pipeline.Idle].

(** One stream is admitted, reappears, is drained at both boundaries and
    released; then the blocked re-admission passes the gate. *)
Definition readmission : list Pipeline.Event :=
  [Pipeline.SourceAdded None "camera1";
   Pipeline.SourceCaps 0%nat (Some 1280) (Some 720) true;
   Pipeline.SourceCaps 0%nat (Some 1280) (Some 720) true;
   Pipeline.SourceAdded None "camera1";
   Pipeline.MuxerSinkPadEos 0%nat;
   Pipeline.LastPadEos 0%nat;
   Pipeline.Idle;
   Pipeline.Idle;
   Pipeline.WaitRelease 0%nat].

(** The state of the first [SourceInfo] after a run, if any. *)
Definition first_source_after (fresh_lock : bool) (evs : list Pipeline.Event)
    : option SourceInfo :=
  match Pipeline.run fresh_lock evs
          (Pipeline.init 2 SourceOutput.SourceOutputOnlyMeta true) with
  | Some p => Pipeline.heap p !! 0%nat
  | None => None
  end.

(** A stream linked at slot 0 of a pipeline with two slots, nothing queued. *)
Definition linked_camera : SourceInfo :=
  mkSourceInfo "camera1" (Some 0%nat) (Some (mkResolution 1280 720))
               (Some (mkResolution 1280 720))
               ["nvvideoconvert"; "capsfilter"]%string
               ["queue"; "fakesink"]%string false.
Definition one_linked_stream : NvDsPipeline :=
  mkPipeline [linked_camera]
             (mkRegistry {[ "camera1"%string := 0%nat ]} {[ 0%nat := "camera1"%string ]})
             [Some 1%nat] {[ 0%nat := "camera1"%string ]}
             SourceOutput.SourceOutputOnlyMeta true [] [] [] [].

(** Three untracked cars, a tracked car and an untracked person. *)
Definition untracked_id : Z := 2 ^ 64 - 1.
Definition cars_frame : list Reconciler.NvDsObjectMeta :=
  [Reconciler.mkNvDsObjectMeta untracked_id "car" (0, 0, 10, 10)%Q [];
   Reconciler.mkNvDsObjectMeta untracked_id "car" (5, 5, 10, 10)%Q [];
   Reconciler.mkNvDsObjectMeta 77 "car" (9, 9, 10, 10)%Q [];
   Reconciler.mkNvDsObjectMeta untracked_id "person" (1, 1, 2, 2)%Q [];
   Reconciler.mkNvDsObjectMeta untracked_id "car" (7, 7, 10, 10)%Q []].

(** A concrete reading of the parameters: the primary label is "frame", an
    output attribute is the pair of its producer and its name, and the
    converted box of an object is the centre and the size of its
    rectangle. *)
Definition example_attr : Reconciler.AttributeMeta -> string * string :=
  fun a => (Reconciler.element_name a, Reconciler.attr_name a).
Definition example_obj (o : Reconciler.NvDsObjectMeta) (_ : FrameParameters)
    (_ : option Resolution) : Reconciler.ObjMeta (string * string) :=
  let '(l, t, w, h) := Reconciler.rect_params o in
  Reconciler.mkObjMeta _ o (l + w * (1 # 2))%Q (t + h * (1 # 2))%Q w h [].
Definition example_elements : list Reconciler.PipelineElement :=
  [Reconciler.ModelElement "detector"
     (Reconciler.ComplexModel [Reconciler.mkModelAttribute "raw" true]);
   Reconciler.ModelElement "classifier"
     (Reconciler.AttributeModel [Reconciler.mkModelAttribute "color" false;
                                 Reconciler.mkModelAttribute "age" false])].
Definition whole_frame_empty : Reconciler.NvDsObjectMeta :=
  Reconciler.mkNvDsObjectMeta untracked_id "frame" (0, 0, 1280, 720)%Q
    [[Reconciler.mkAttributeMeta "detector" "raw" 5]].
Definition whole_frame_colored : Reconciler.NvDsObjectMeta :=
  Reconciler.mkNvDsObjectMeta untracked_id "frame" (0, 0, 1280, 720)%Q
    [[Reconciler.mkAttributeMeta "classifier" "color" 3]].
Definition car_object : Reconciler.NvDsObjectMeta :=
  Reconciler.mkNvDsObjectMeta untracked_id "car" (10, 20, 100, 50)%Q
    [[Reconciler.mkAttributeMeta "detector" "raw" 1];
     [Reconciler.mkAttributeMeta "classifier" "age" 2]].
Definition example_frame : Reconciler.NvDsFrameMeta :=
  Reconciler.mkNvDsFrameMeta 0 40 (Some 7)
    [whole_frame_empty; whole_frame_colored; car_object].

(** Two allocated source pads, 10 and 11; only pad 11 is linked, to the
    queue pad 21. *)
Definition two_pads : Demuxer.State :=
  Demuxer.mkState [10; 11]%nat {[ 11%nat := 21%nat ]} [].

End Examples.

(** ** savant/deepstream/pipeline.py: construction of the pipeline *)

Module Setup.

(** [savant.gstreamer.codecs.Codec]: the members that [__init__] tells
    apart; any other member is an [OtherCodec]. *)
Inductive Codec := H264 | HEVC | RAW_RGBA | PNG | OtherCodec (name : string).

(** The [output_frame] dictionary of the module parameters: its [codec]
    and [encoder_params] entries, each present or not. *)
Record OutputFrame := mkOutputFrame {
  of_codec : option string;
  of_encoder_params : option (list (string * string))
}.

(** A value of a GStreamer property. *)
Inductive PropValue := PInt (z : Z) | PBool (b : bool) | PStr (s : string).

(** The buffer processors of [savant.deepstream.buffer_processor], by their
    constructor arguments that depend on the codec. *)
Inductive BufferProcessor :=
| NvDsRawBufferProcessor (output_frame : bool)
| NvDsEncodedBufferProcessor (codec : CodecInfo).

(** The source element of the configuration: its factory and the [uri]
    and [max-parallel-streams] properties [__init__] and [_add_source] use. *)
Record SourceElement := mkSourceElement {
  element : string;
  uri : option string;
  max_parallel_streams_prop : option Z
}.

Section Init.

(** [CODEC_BY_NAME] and [Codec.value] of [savant.gstreamer.codecs] are not
    among the sources. *)
Variable CODEC_BY_NAME : gmap string Codec.
Variable codec_value : Codec -> CodecInfo.

(** [__init__]: [self._output_frame_codec]. A missing or empty
    [output_frame] gives no codec; the outer [None] is the [KeyError] of
    [output_frame['codec']] or of [CODEC_BY_NAME[...]]. *)
Definition output_frame_codec (output_frame : option OutputFrame)
    : option (option Codec) :=
  match output_frame with
  | None => Some None
  | Some d =>
      match of_codec d, of_encoder_params d with
      | None, None => Some None
      | None, Some _ => None
      | Some name, _ =>
          match CODEC_BY_NAME !! name with
          | Some c => Some (Some c)
          | None => None
          end
      end
  end.

(** [__init__]: the choice of [self._source_output]. *)
Definition select_source_output (codec : option Codec)
    (frame_params : FrameParameters) : SourceOutput.t :=
  match codec with
  | None => SourceOutput.SourceOutputOnlyMeta
  | Some RAW_RGBA => SourceOutput.SourceOutputRawRgba frame_params
  | Some H264 => SourceOutput.SourceOutputH26X (codec_value H264) frame_params
  | Some HEVC => SourceOutput.SourceOutputH26X (codec_value HEVC) frame_params
  | Some PNG => SourceOutput.SourceOutputPng (codec_value PNG) frame_params
  | Some (OtherCodec name) =>
      SourceOutput.SourceOutputEncoded (codec_value (OtherCodec name)) frame_params
  end.

(** [_build_buffer_processor]. *)
Definition _build_buffer_processor (codec : option Codec) : BufferProcessor :=
  match codec with
  | None => NvDsRawBufferProcessor false
  | Some RAW_RGBA => NvDsRawBufferProcessor true
  | Some c => NvDsEncodedBufferProcessor (codec_value c)
  end.

End Init.

(** [__init__]: a [zeromq_source_bin] source is given the stream capacity
    of the pipeline. *)
Definition init_source_element (_max_parallel_streams : Z) (source : SourceElement)
    : SourceElement :=
  if String.eqb (element source) "zeromq_source_bin"
  then mkSourceElement (element source) (uri source) (Some _max_parallel_streams)
  else source.

(** [_add_source]: the flags [_suppress_eos] and [live_source], and the
    elements added before the muxer. [None] is the [KeyError] of
    [source.properties['uri']]. *)
Definition _add_source (source : SourceElement) : option (bool * bool * list Elem) :=
  let _suppress_eos := String.eqb (element source) "zeromq_source_bin" in
  if String.eqb (element source) "uridecodebin" then
    match uri source with
    | None => None
    | Some u =>
        let live_source := String.prefix "rtsp://" u in
        Some (_suppress_eos, live_source,
              if live_source then [element source; "queue"%string]
              else [element source])
    end
  else Some (_suppress_eos, false, [element source]).

(** [_create_muxer]: [frame_processing_parameters], in insertion order.
    [NVBUF_MEM_CUDA_UNIFIED] is a constant of [pyds]. *)
Definition frame_processing_parameters (NVBUF_MEM_CUDA_UNIFIED : Z)
    (frame_params : FrameParameters) (_batch_size _batched_push_timeout : Z)
    (live_source _suppress_eos is_aarch64 : bool) : list (string * PropValue) :=
  [("width", PInt (total_width frame_params));
   ("height", PInt (total_height frame_params));
   ("batch-size", PInt _batch_size);
   ("buffer-pool-size", PInt (Z.max 4 _batch_size));
   ("batched-push-timeout", PInt _batched_push_timeout);
   ("live-source", PBool live_source);
   ("interpolation-method", PInt 6);
   ("drop-pipeline-eos", PBool _suppress_eos)]%string
  ++ (if is_aarch64 then []
      else [("nvbuf-memory-type"%string, PInt NVBUF_MEM_CUDA_UNIFIED)]).

(** [':'.join(str(x) for x in [padding.left, padding.top, width, height])],
    the crop of [_add_input_converter] and of [add_output]. *)
Definition crop_string (frame_params : FrameParameters) (pd : FramePadding) : string :=
  String.concat ":"
    (pretty <$> [pad_left pd; pad_top pd; fp_width frame_params; fp_height frame_params]).

(** [_add_input_converter]: the properties set on [nvvideoconvert]. *)
Definition input_converter_props (NVBUF_MEM_CUDA_UNIFIED : Z)
    (frame_params : FrameParameters) (is_aarch64 : bool) : list (string * PropValue) :=
  (if is_aarch64 then []
   else [("nvbuf-memory-type"%string, PInt NVBUF_MEM_CUDA_UNIFIED)])
  ++ match padding frame_params with
     | Some pd => [("dest-crop"%string, PStr (crop_string frame_params pd))]
     | None => []
     end.

(** [SourceOutputWithFrame.add_output]: [output_converter_props]. *)
Definition output_converter_props (NVBUF_MEM_CUDA_UNIFIED : Z)
    (frame_params : FrameParameters) (is_aarch64 : bool) : list (string * PropValue) :=
  (if is_aarch64 then []
   else [("nvbuf-memory-type"%string, PInt NVBUF_MEM_CUDA_UNIFIED)])
  ++ match padding frame_params with
     | Some pd =>
         if negb (keep pd) then [("src_crop"%string, PStr (crop_string frame_params pd))]
         else []
     | None => []
     end.

(** [f'sink_{source_info.pad_idx}'], the name of a muxer sink pad. *)
Definition sink_pad_name (pad_idx : nat) : string := "sink_" +:+ pretty pad_idx.

(** [_allocate_demuxer_pads]: the names of the requested source pads,
    [f'src_{pad_idx}'] for [pad_idx in range(n_pads)]. *)
Definition _allocate_demuxer_pads (n_pads : nat) : list string :=
  (fun pad_idx => "src_" +:+ pretty pad_idx) <$> seq 0 n_pads.

End Setup.

(** ** savant/deepstream/pipeline.py: a stream EOS on every source pad *)

Module Broadcast.

(** "nvstreamdemux redirects GST_NVEVENT_STREAM_EOS on each src pad": the
    probe of [_on_demuxer_src_pad_eos] runs for the pads in turn, with the
    same event; an exception ends the delivery. *)
Fixpoint deliver (pads : list Demuxer.Pad) (pad_idx : option nat)
    (st : Demuxer.State) : option (Demuxer.State * list Pipeline.PadProbeReturn) :=
  match pads with
  | [] => Some (st, [])
  | pad :: rest =>
      match Demuxer._on_demuxer_src_pad_eos pad pad_idx st with
      | None => None
      | Some (st', ret) =>
          match deliver rest pad_idx st' with
          | None => None
          | Some (st'', rets) => Some (st'', ret :: rets)
          end
      end
  end.

End Broadcast.

(** ** Readings of an execution *)

(** Whether an event is an EOS on the pad of a fake sink. *)
Definition is_last_pad_eos (e : Pipeline.Event) : bool :=
  match e with
  | Pipeline.LastPadEos _ => true
  | _ => false
  end.

(** The message that an EOS on the pad of a fake sink puts on the output
    queue: the identifier of the stream of that sink. *)
Definition eos_message (h : list SourceInfo) (e : Pipeline.Event) : option string :=
  match e with
  | Pipeline.LastPadEos r => source_id <$> h !! r
  | _ => None
  end.

(** The post-batch elements of a stream for the output [o], in the order
    in which [_add_source_output] and [add_output] append them. *)
Definition output_chain (o : SourceOutput.t) : list Elem :=
  "queue"%string
    :: match o with
       | SourceOutput.SourceOutputOnlyMeta => []
       | _ => "nvvideoconvert"%string
                :: SourceOutput._add_transform_elems o ++ ["capsfilter"%string]
       end
    ++ ["fakesink"%string].

(** A record with post-batch elements is complete for the output [o]: the
    elements are the whole chain of [o], the record has a slot index and a
    source resolution, and its destination resolution is the one [o]
    computes for it. *)
Definition linked_ok (o : SourceOutput.t) (s : SourceInfo) : Prop :=
  after_demuxer s <> [] ->
  after_demuxer s = output_chain o
  /\ is_Some (pad_idx s) /\ is_Some (src_resolution s)
  /\ is_Some (dest_resolution s)
  /\ dest_resolution s = SourceOutput.dest_resolution o s.

Definition linked_inv (p : Pipeline.NvDsPipeline) : Prop :=
  forall (r : Pipeline.ref) (s : SourceInfo),
    Pipeline.heap p !! r = Some s -> linked_ok (Pipeline._source_output p) s.

(** The requested sink pads of the muxer are among [sink_0 .. sink_(n-1)],
    and the probe of each carries the identifier of a stream in the store. *)
Definition muxer_pads_inv (n : nat) (p : Pipeline.NvDsPipeline) : Prop :=
  forall (i : nat) (sid : string),
    Pipeline._muxer_sink_pads p !! i = Some sid ->
    (i < n)%nat
    /\ exists (r : Pipeline.ref) (s : SourceInfo),
        Pipeline.heap p !! r = Some s /\ source_id s = sid.

(** The demuxer side after [pad] was unlinked from its peer, if it had
    one, and the peer was sent EOS. *)
Definition detached (pad : Demuxer.Pad) (st : Demuxer.State) : Demuxer.State :=
  match Demuxer.links st !! pad with
  | Some peer =>
      Demuxer.mkState (Demuxer._demuxer_src_pads st) (delete pad (Demuxer.links st))
                      (Demuxer.eos_sent st ++ [peer])
  | None => st
  end.

(** The record of the stream of a frame, through the two registry lookups
    of [update_frame_meta]. *)
Definition frame_stream (p : Pipeline.NvDsPipeline) (frame : Reconciler.NvDsFrameMeta)
    : option SourceInfo :=
  match Pipeline.get_id_by_pad_index (Pipeline._sources p)
          (Reconciler.pad_index frame) with
  | None => None
  | Some sid =>
      match Pipeline.get_source (Pipeline._sources p) sid with
      | None => None
      | Some r => Pipeline.heap p !! r
      end
  end.

(** The frame parameters an output variant was built with. *)
Definition output_frame_params (o : SourceOutput.t) : option FrameParameters :=
  match o with
  | SourceOutput.SourceOutputOnlyMeta => None
  | SourceOutput.SourceOutputRawRgba fp => Some fp
  | SourceOutput.SourceOutputEncoded _ fp => Some fp
  | SourceOutput.SourceOutputH26X _ fp => Some fp
  | SourceOutput.SourceOutputPng _ fp => Some fp
  end.

(** The padding is kept while the frame has no width or no height: the
    divisor of the scaled destination resolution is zero. *)
Definition zero_divisor (o : SourceOutput.t) : Prop :=
  exists (fp : FrameParameters) (pd : FramePadding),
    output_frame_params o = Some fp /\ padding fp = Some pd /\ keep pd = true
    /\ (fp_width fp = 0 \/ fp_height fp = 0).

(** ** Inputs of further examples *)

Section MoreExamples.
Import Pipeline.

(** A pipeline with one slot, held by "camera1", while "camera2" has its
    CAPS probe and waits for a slot. *)
Definition waiting_camera : SourceInfo :=
  mkSourceInfo "camera2" None None None [] [] false.
Definition exhausted_pool : NvDsPipeline :=
  mkPipeline [linked_camera; waiting_camera]
             (mkRegistry {[ "camera1"%string := 0%nat; "camera2"%string := 1%nat ]}
                         {[ 0%nat := "camera1"%string ]})
             [] {[ 0%nat := "camera1"%string ]}
             SourceOutput.SourceOutputOnlyMeta true [] [] [] [1%nat].

(** Frame parameters with a padding of 10 and 20 pixels that is kept, and
    the same with the padding cropped at the output. *)
Definition frame_params_keep : FrameParameters :=
  mkFrameParameters 1280 720 (Some (mkFramePadding 10 20 10 20 true)) 1300 760.
Definition frame_params_crop : FrameParameters :=
  mkFrameParameters 1280 720 (Some (mkFramePadding 10 20 10 20 false)) 1300 760.

(** An H264 codec description. *)
Definition h264_info : CodecInfo := mkCodecInfo "nvv4l2h264enc" "h264parse" "video/x-h264".

(** Three source pads, all linked. *)
Definition three_pads : Demuxer.State :=
  Demuxer.mkState [10; 11; 12]%nat
    {[ 10%nat := 20%nat; 11%nat := 21%nat; 12%nat := 22%nat ]} [].

(** A frame of the stream at slot 0 with the five objects of [cars_frame]. *)
Definition cars_only_frame : Reconciler.NvDsFrameMeta :=
  Reconciler.mkNvDsFrameMeta 0 80 (Some 8) cars_frame.

(** Frame parameters of width 0 with a kept padding. *)
Definition frame_params_zero : FrameParameters :=
  mkFrameParameters 0 720 (Some (mkFramePadding 10 20 10 20 true)) 20 760.

End MoreExamples.

(* ===================================================================== *)
(** * Theorems *)
(* ===================================================================== *)

(** ** Bounding boxes ([savant/meta/bbox.py]) *)

Section BBoxFacts.
Import Bbox.

Lemma Qc_half_double : (Q2Qc (1 # 2) + Q2Qc (1 # 2) = 1)%Qc.
Proof. apply Qc_is_canon. reflexivity. Qed.

(** In exact arithmetic the setter and the getter of [left] are inverse. *)
Lemma Qc_left_set_left (b : BBox Qc) (v : Qc) : left (set_left b v) = v.
Proof. unfold left, set_left; simpl. ring. Qed.

Lemma Qc_top_set_top (b : BBox Qc) (v : Qc) : top (set_top b v) = v.
Proof. unfold top, set_top; simpl. ring. Qed.

Lemma Qc_right_left_width (b : BBox Qc) : right b = (left b + width b)%Qc.
Proof.
  unfold right, left; simpl.
  transitivity (x_center b - Q2Qc (1 # 2) * width b
                + (Q2Qc (1 # 2) + Q2Qc (1 # 2)) * width b)%Qc.
  - ring.
  - rewrite Qc_half_double. ring.
Qed.

Lemma Qc_bottom_top_height (b : BBox Qc) : bottom b = (top b + height b)%Qc.
Proof.
  unfold bottom, top; simpl.
  transitivity (y_center b - Q2Qc (1 # 2) * height b
                + (Q2Qc (1 # 2) + Q2Qc (1 # 2)) * height b)%Qc.
  - ring.
  - rewrite Qc_half_double. ring.
Qed.

End BBoxFacts.

(** C10, as stated, fails on the binary64 floats the class computes with:
    setting [left] to 0.1 on a box of width 0.7 and reading it back gives
    0.09999999999999998 (Python's [==] is [PrimFloat.eqb]), and for the box
    centred at 100.5 of width 33.3, [right] differs from [left + width]. *)
Lemma C10_float_roundtrip_fails :
  PrimFloat.eqb (Bbox.left (Bbox.set_left bbox_07 0x1.999999999999ap-4%float))
                0x1.999999999999ap-4%float = false
  /\ Bbox.left (Bbox.set_left bbox_07 0x1.999999999999ap-4%float)
     = 0x1.9999999999998p-4%float
  /\ PrimFloat.eqb (Bbox.right bbox_333)
                   (PrimFloat.add (Bbox.left bbox_333) (Bbox.width bbox_333)) = false.
Proof. repeat split; vm_compute; reflexivity. Qed.

(** C10 (amended): [set_left] changes only [x_center], to
    [v + 0.5 * width], and [set_top] only [y_center], to
    [v + 0.5 * height]; so [left] then reads [(v + 0.5 * width) - 0.5 * width]
    and [top] reads [(v + 0.5 * height) - 0.5 * height], in binary64; [tlbr]
    is [(left, top, x_center + 0.5 * width, y_center + 0.5 * height)]. In
    exact rational arithmetic these are [v], and [right = left + width],
    [bottom = top + height], [tlbr = (left, top, left + width, top + height)]. *)
Theorem C10_bbox_left_top_setters :
  (forall (b : Bbox.BBox float) (v : float),
      Bbox.width (Bbox.set_left b v) = Bbox.width b
      /\ Bbox.height (Bbox.set_left b v) = Bbox.height b
      /\ Bbox.y_center (Bbox.set_left b v) = Bbox.y_center b
      /\ Bbox.left (Bbox.set_left b v)
         = PrimFloat.sub (PrimFloat.add v (PrimFloat.mul 0.5%float (Bbox.width b)))
                         (PrimFloat.mul 0.5%float (Bbox.width b))
      /\ Bbox.width (Bbox.set_top b v) = Bbox.width b
      /\ Bbox.height (Bbox.set_top b v) = Bbox.height b
      /\ Bbox.x_center (Bbox.set_top b v) = Bbox.x_center b
      /\ Bbox.top (Bbox.set_top b v)
         = PrimFloat.sub (PrimFloat.add v (PrimFloat.mul 0.5%float (Bbox.height b)))
                         (PrimFloat.mul 0.5%float (Bbox.height b))
      /\ Bbox.tlbr b
         = (Bbox.left b, Bbox.top b,
            PrimFloat.add (Bbox.x_center b) (PrimFloat.mul 0.5%float (Bbox.width b)),
            PrimFloat.add (Bbox.y_center b) (PrimFloat.mul 0.5%float (Bbox.height b))))
  /\ (forall (b : Bbox.BBox Qc) (v : Qc),
      Bbox.left (Bbox.set_left b v) = v
      /\ Bbox.width (Bbox.set_left b v) = Bbox.width b
      /\ Bbox.height (Bbox.set_left b v) = Bbox.height b
      /\ Bbox.y_center (Bbox.set_left b v) = Bbox.y_center b
      /\ Bbox.top (Bbox.set_top b v) = v
      /\ Bbox.width (Bbox.set_top b v) = Bbox.width b
      /\ Bbox.height (Bbox.set_top b v) = Bbox.height b
      /\ Bbox.x_center (Bbox.set_top b v) = Bbox.x_center b
      /\ Bbox.right b = (Bbox.left b + Bbox.width b)%Qc
      /\ Bbox.bottom b = (Bbox.top b + Bbox.height b)%Qc
      /\ Bbox.tlbr b
         = (Bbox.left b, Bbox.top b,
            (Bbox.left b + Bbox.width b)%Qc, (Bbox.top b + Bbox.height b)%Qc)).
Proof.
  split.
  - intros b v. repeat split.
  - intros b v.
    pose proof (Qc_right_left_width b) as Hr.
    pose proof (Qc_bottom_top_height b) as Hb.
    repeat split; auto using Qc_left_set_left, Qc_top_set_top.
    unfold Bbox.tlbr. rewrite Hr, Hb. reflexivity.
Qed.

(** ** Output resolution ([savant/deepstream/source_output.py]) *)

Lemma py_round_div_8_nearest (n : Z) :
  let r := SourceOutput.py_round_div n 8 * 8 in
  r mod 8 = 0 /\ Z.abs (r - n) <= 4 /\ forall k : Z, Z.abs (r - n) <= Z.abs (8 * k - n).
Proof.
  unfold SourceOutput.py_round_div.
  pose proof (Z.div_mod n 8 ltac:(lia)) as Hdm.
  pose proof (Z.mod_pos_bound n 8 ltac:(lia)) as Hb.
  set (q := n / 8) in *. set (m := n mod 8) in *.
  assert (Hmul : forall x : Z, (x * 8) mod 8 = 0) by (intros x; apply Z.mod_mul; lia).
  destruct (Z.compare_spec (2 * m) 8) as [He | Hl | Hg]; cbv zeta.
  - destruct (Z.even q); (split; [apply Hmul | split; [lia | intros k; lia]]).
  - split; [apply Hmul | split; [lia | intros k; lia]].
  - split; [apply Hmul | split; [lia | intros k; lia]].
Qed.

(** C8: the PNG output rounds each dimension of the computed destination
    resolution, on its own, to a nearest multiple of 8 (no multiple of 8 is
    closer); a computed destination of 101x202 gives 104x200. The bound on
    the dimensions is the range in which the binary64 division by 8 of the
    code is exact. *)
Theorem C8_png_dest_resolution_multiple_of_8 :
  forall (frame_params : FrameParameters) (source_info : SourceInfo) (w h : Z),
    SourceOutput.with_frame_dest_resolution frame_params source_info
      = Some (mkResolution w h) ->
    Z.abs w <= 2 ^ 53 -> Z.abs h <= 2 ^ 53 ->
    (exists w' h',
        SourceOutput.png_dest_resolution frame_params source_info
          = Some (mkResolution w' h')
        /\ w' = SourceOutput.py_round_div w 8 * 8
        /\ h' = SourceOutput.py_round_div h 8 * 8
        /\ w' mod 8 = 0 /\ h' mod 8 = 0
        /\ (forall k : Z, Z.abs (w' - w) <= Z.abs (8 * k - w))
        /\ (forall k : Z, Z.abs (h' - h) <= Z.abs (8 * k - h)))
    /\ (w = 101 -> h = 202 ->
        SourceOutput.png_dest_resolution frame_params source_info
          = Some (mkResolution 104 200)).
Proof.
  intros fp si w h Hd _ _. unfold SourceOutput.png_dest_resolution. rewrite Hd.
  cbn [res_width res_height].
  destruct (py_round_div_8_nearest w) as (Hw1 & _ & Hw2).
  destruct (py_round_div_8_nearest h) as (Hh1 & _ & Hh2).
  split.
  - eexists _, _. repeat split; eauto.
  - intros -> ->. reflexivity.
Qed.

Lemma C8_png_dest_resolution_witness :
  SourceOutput.png_dest_resolution frame_params_plain source_101x202
    = Some (mkResolution 104 200).
Proof.
  refine (proj2 (C8_png_dest_resolution_multiple_of_8
                   frame_params_plain source_101x202 101 202 _ _ _) _ _);
    first [reflexivity | vm_compute; discriminate].
Defined.

(** ** Admission and release ([savant/deepstream/pipeline.py]) *)

Section ListFacts.
Context {A B : Type} (f : A -> option B).

Lemma omap_insert_same (h : list A) (r : nat) (s s' : A) :
  h !! r = Some s -> f s' = f s -> omap f (<[r := s']> h) = omap f h.
Proof.
  revert r. induction h as [|x h IH]; intros [|r] Hr Hf; simpl in *; try done.
  - injection Hr as ->. by rewrite Hf.
  - specialize (IH r Hr Hf). unfold omap in IH. by rewrite IH.
Qed.

Lemma omap_insert_perm (h : list A) (r : nat) (s s' : A) :
  h !! r = Some s ->
  exists rest,
    omap f h ≡ₚ option_list (f s) ++ rest
    /\ omap f (<[r := s']> h) ≡ₚ option_list (f s') ++ rest.
Proof.
  intros Hr. exists (omap f (take r h) ++ omap f (drop (S r) h)).
  assert (Hlt : (r < length h)%nat) by (apply lookup_lt_is_Some; eauto).
  split.
  - rewrite <- (take_drop_middle h r s Hr) at 1.
    rewrite omap_app. simpl. destruct (f s); simpl; [|done].
    by rewrite Permutation_middle.
  - rewrite insert_take_drop by done. rewrite omap_app. simpl.
    destruct (f s'); simpl; [|done]. by rewrite Permutation_middle.
Qed.

Lemma omap_NoDup_lookup_inj (h : list A) (a b : nat) (x y : A) (i : B) :
  NoDup (omap f h) -> h !! a = Some x -> h !! b = Some y ->
  f x = Some i -> f y = Some i -> a = b.
Proof.
  revert a b. induction h as [|z h IH]; intros a b Hnd Ha Hb Hx Hy; [done|].
  assert (Hin : forall c w, h !! c = Some w -> f w = Some i -> i ∈ omap f h).
  { intros c w Hc Hw. apply list_elem_of_omap. exists w. split; [|done].
    apply list_elem_of_lookup. eauto. }
  simpl in Hnd. destruct a as [|a], b as [|b]; simpl in *.
  - done.
  - injection Ha as ->. rewrite Hx in Hnd. apply NoDup_cons in Hnd as [Hni _].
    destruct Hni. eauto.
  - injection Hb as ->. rewrite Hy in Hnd. apply NoDup_cons in Hnd as [Hni _].
    destruct Hni. eauto.
  - f_equal. apply IH; try done.
    destruct (f z); [by apply NoDup_cons in Hnd as [_ ?]|done].
Qed.

End ListFacts.

Section Conservation.
Import Pipeline.

Lemma add_output_frame (o : SourceOutput.t) (s : SourceInfo) :
  let s' := SourceOutput.add_output o s in
  pad_idx s' = pad_idx s /\ lock s' = lock s /\ source_id s' = source_id s
  /\ before_muxer s' = before_muxer s
  /\ exists ext, after_demuxer s' = after_demuxer s ++ ext.
Proof.
  destruct o; simpl; repeat split; try done;
    first [by exists []; rewrite app_nil_r | by eexists].
Qed.

Lemma _add_source_output_frame (o : SourceOutput.t) (s s' : SourceInfo) :
  _add_source_output o s = Some s' ->
  pad_idx s' = pad_idx s /\ lock s' = lock s /\ source_id s' = source_id s
  /\ before_muxer s' = before_muxer s /\ after_demuxer s' <> [].
Proof.
  unfold _add_source_output. intros Hs.
  destruct (SourceOutput.dest_resolution _ _) as [d|]; [|done].
  injection Hs as <-.
  match goal with |- context [SourceOutput.add_output o ?x] =>
    destruct (add_output_frame o x) as (Hp & Hl & Hi & Hb & ext & Ha) end.
  simpl in *. repeat split; try done.
  intros Hnil. by apply app_eq_nil in Hnil as [_ ?].
Qed.

Lemma _add_input_converter_frame (accepts : bool) (s : SourceInfo) :
  let s' := _add_input_converter accepts s in
  pad_idx s' = pad_idx s /\ lock s' = lock s /\ source_id s' = source_id s
  /\ after_demuxer s' = after_demuxer s.
Proof. destruct accepts; simpl; repeat split. Qed.

(** What [link_source] does to the store: only the object [r] changes; it
    keeps its slot index and its gate, and its post-batch list is non-empty
    afterwards. *)
Lemma link_source_heap (r : ref) (s : SourceInfo) (w h : Z) (accepts : bool)
    (p p' : NvDsPipeline) :
  link_source r s w h accepts p = Some p' ->
  exists s',
    heap p' = <[r := s']> (heap p)
    /\ pad_idx s' = pad_idx s /\ lock s' = lock s /\ source_id s' = source_id s
    /\ after_demuxer s' <> []
    /\ _free_pad_indices p' = _free_pad_indices p
    /\ idle p' = idle p /\ waiting p' = waiting p
    /\ caps_probes p' = remove_first r (caps_probes p).
Proof.
  unfold link_source. intros Hl.
  destruct (after_demuxer (with_src_resolution _ s)) as [|e l] eqn:Had.
  - destruct (_add_source_output _ _) as [s2|] eqn:Hout; [|done].
    apply _add_source_output_frame in Hout as (Hp & Hk & Hi & _ & Ha).
    injection Hl as <-.
    destruct (_add_input_converter_frame accepts s2) as (Hp' & Hk' & Hi' & Ha').
    exists (_add_input_converter accepts s2).
    unfold _request_muxer_sink_pad.
    repeat case_match; simpl in *; repeat split; congruence.
  - injection Hl as <-.
    match goal with |- context [_add_input_converter accepts ?x] =>
      destruct (_add_input_converter_frame accepts x) as (Hp' & Hk' & Hi' & Ha');
      exists (_add_input_converter accepts x) end.
    unfold _request_muxer_sink_pad.
    repeat case_match; simpl in *; repeat split; try congruence.
Qed.

Lemma free_slots_snoc (l : list (option nat)) (x : option nat) :
  omap id (l ++ [x]) = omap id l ++ option_list x.
Proof. rewrite omap_app. by destruct x. Qed.

Lemma step_slots_conserved (fresh_lock : bool) (n : nat) (p p' : NvDsPipeline)
    (e : Event) :
  slots_conserved n p -> step fresh_lock p e = Some p' -> slots_conserved n p'.
Proof.
  unfold slots_conserved, free_slots, held_slots. intros Hinv Hstep.
  destruct e as [caps sid | r | r w h acc | pad | r | ]; simpl in Hstep.
  - (* SourceAdded *)
    injection Hstep as <-. unfold on_source_added.
    destruct (match caps with Some _ => _ | None => _ end); [done|].
    destruct (get_source _ _); simpl; [done|].
    rewrite omap_app. simpl. by rewrite app_nil_r.
  - (* WaitRelease *)
    case_bool_decide; [|done]. injection Hstep as <-. unfold wait_release.
    destruct (heap p !! r) as [s|] eqn:Hr; [|done].
    destruct (lock s); [|done]. simpl.
    by rewrite (omap_insert_same pad_idx _ _ s).
  - (* SourceCaps *)
    case_bool_decide; [|done]. unfold _on_source_caps in Hstep.
    destruct w as [w|]; [|done]. destruct h as [h|]; [|done].
    destruct (heap p !! r) as [s|] eqn:Hr; [|done].
    destruct (pad_idx s) as [i|] eqn:Hi.
    + apply link_source_heap in Hstep as (s' & -> & Hp & _ & _ & _ & -> & _).
      rewrite (omap_insert_same pad_idx _ _ s); [done..|congruence].
    + injection Hstep as <-. unfold acquire_pad_idx.
      destruct (_free_pad_indices p) as [|i rest] eqn:Hf.
      { by rewrite Hf. }
      simpl.
      destruct (omap_insert_perm pad_idx _ _ _ (with_pad_idx i s) Hr)
        as (rest' & H1 & H2).
      rewrite H2. rewrite <- Hinv, H1, Hi. simpl.
      destruct i as [i|]; simpl; [|done].
      by rewrite Permutation_middle.
  - (* MuxerSinkPadEos *)
    unfold _on_muxer_sink_pad_eos in Hstep.
    repeat case_match; simplify_eq/=; done.
  - (* LastPadEos *)
    destruct (last_pad_live r p); [|done]. unfold on_last_pad_eos in Hstep.
    repeat case_match; simplify_eq/=; done.
  - (* Idle *)
    unfold run_idle in Hstep. destruct (idle p) as [|t rest]; [done|].
    destruct t as [r pad | r]; simpl in Hstep.
    + unfold _remove_input_elements in Hstep. simpl in Hstep.
      destruct (heap p !! r) as [s|] eqn:Hr; [|done]. injection Hstep as <-.
      simpl. by rewrite (omap_insert_same pad_idx _ _ s).
    + unfold _remove_output_elements in Hstep. simpl in Hstep.
      destruct (heap p !! r) as [s|] eqn:Hr; [|done]. injection Hstep as <-.
      simpl. rewrite free_slots_snoc.
      destruct (omap_insert_perm pad_idx _ _ _
                  (with_lock true (with_pad_idx None (with_after_demuxer [] s))) Hr)
        as (rest' & H1 & H2).
      rewrite H2. rewrite <- Hinv, H1. simpl.
      by rewrite <- app_assoc.
Qed.

End Conservation.

Lemma omap_id_fmap_Some {A : Type} (l : list A) : omap id (Some <$> l) = l.
Proof. induction l as [|x l IH]; simpl; [done|]. f_equal. exact IH. Qed.

Lemma init_slots_conserved (n : nat) (o : SourceOutput.t) (se : bool) :
  Pipeline.slots_conserved n (Pipeline.init n o se).
Proof.
  unfold Pipeline.slots_conserved, Pipeline.free_slots, Pipeline.held_slots.
  simpl. by rewrite omap_id_fmap_Some, app_nil_r.
Qed.

Lemma run_slots_conserved (fresh_lock : bool) (n : nat) (evs : list Pipeline.Event)
    (p p' : Pipeline.NvDsPipeline) :
  Pipeline.slots_conserved n p -> Pipeline.run fresh_lock evs p = Some p' ->
  Pipeline.slots_conserved n p'.
Proof.
  revert p. induction evs as [|e evs IH]; intros p Hinv Hrun; simpl in Hrun.
  - by injection Hrun as <-.
  - destruct (Pipeline.step fresh_lock p e) as [p1|] eqn:Hs; [|done].
    eauto using step_slots_conserved.
Qed.

(** C2: after any sequence of callbacks (admissions, polls, EOS signals and
    deferred teardowns) from the initial pipeline with [n] slots, every slot
    index is, exactly once, either in the free list or held by a stream: an
    index a stream holds is not in the free list and is held by no other
    stream. *)
Theorem C2_slot_index_held_by_at_most_one_stream :
  forall (fresh_lock : bool) (n : nat) (o : SourceOutput.t) (se : bool)
         (evs : list Pipeline.Event) (p : Pipeline.NvDsPipeline),
    Pipeline.run fresh_lock evs (Pipeline.init n o se) = Some p ->
    (Pipeline.free_slots p ++ Pipeline.held_slots p ≡ₚ seq 0 n)
    /\ NoDup (Pipeline.free_slots p ++ Pipeline.held_slots p)
    /\ forall (r : Pipeline.ref) (s : SourceInfo) (i : nat),
        Pipeline.heap p !! r = Some s -> pad_idx s = Some i ->
        (i < n)%nat
        /\ (Some i ∉ Pipeline._free_pad_indices p)
        /\ forall (r' : Pipeline.ref) (s' : SourceInfo),
            Pipeline.heap p !! r' = Some s' -> pad_idx s' = Some i -> r' = r.
Proof.
  intros fl n o se evs p Hrun.
  pose proof (run_slots_conserved fl n evs _ _ (init_slots_conserved n o se) Hrun)
    as Hc.
  unfold Pipeline.slots_conserved in Hc.
  assert (Hnd : NoDup (Pipeline.free_slots p ++ Pipeline.held_slots p)).
  { rewrite Hc. apply NoDup_seq. }
  split; [done|]. split; [done|].
  intros r s i Hr Hi.
  assert (Hheld : i ∈ Pipeline.held_slots p).
  { apply list_elem_of_omap. exists s. split; [|done].
    apply list_elem_of_lookup. eauto. }
  apply NoDup_app in Hnd as (_ & Hdisj & Hndh).
  repeat split.
  - assert (Hin : i ∈ seq 0 n).
    { rewrite <- Hc. apply elem_of_app. by right. }
    apply elem_of_seq in Hin. lia.
  - intros Hfree. apply (Hdisj i); [|done].
    apply list_elem_of_omap. by exists (Some i).
  - intros r' s' Hr' Hi'.
    eapply (omap_NoDup_lookup_inj pad_idx); eauto.
Qed.

Lemma C2_slot_index_witness :
  match Pipeline.run false two_streams
          (Pipeline.init 2 SourceOutput.SourceOutputOnlyMeta true) with
  | Some p => NoDup (Pipeline.free_slots p ++ Pipeline.held_slots p)
  | None => False
  end.
Proof.
  destruct (Pipeline.run false two_streams _) as [p|] eqn:E.
  - exact (proj1 (proj2 (C2_slot_index_held_by_at_most_one_stream _ _ _ _ _ _ E))).
  - vm_compute in E. discriminate.
Defined.

(** ** The release gate *)

Section Gate.
Import Pipeline.

Lemma remove_first_elem_of (x y : ref) (l : list ref) :
  y ∈ remove_first x l -> y ∈ l.
Proof.
  induction l as [|z l IH]; simpl; [done|].
  case_decide; rewrite !elem_of_cons; intuition.
Qed.

Lemma remove_first_NoDup (x : ref) (l : list ref) :
  NoDup l -> NoDup (remove_first x l) /\ x ∉ remove_first x l.
Proof.
  induction 1 as [|z l Hz Hnd [IH1 IH2]]; simpl.
  - split; [constructor | apply not_elem_of_nil].
  - case_decide as Hxz.
    + subst. done.
    + split.
      * constructor; [|done]. intros Hin. by apply remove_first_elem_of in Hin.
      * apply not_elem_of_cons. done.
Qed.

Lemma gate_inv_store (h : list SourceInfo) (probes tasks probes' tasks' : list ref)
    (r : ref) (s s' : SourceInfo) :
  gate_inv_on h probes tasks ->
  h !! r = Some s ->
  NoDup probes' -> (forall x, x ∈ probes' -> x ∈ probes \/ x = r) ->
  NoDup tasks' -> (forall x, x ∈ tasks' -> x ∈ tasks \/ x = r) ->
  (lock s' = true -> after_demuxer s' = []) ->
  (r ∈ probes' -> lock s' = false /\ after_demuxer s' = []) ->
  (r ∈ tasks' -> after_demuxer s' <> []) ->
  gate_inv_on (<[r := s']> h) probes' tasks'.
Proof.
  intros [H1 H2 H3 H4 H5 H6] Hr Hnp Hp Hnt Ht Hl Hpr Htk.
  assert (Hlt : (r < length h)%nat) by (apply lookup_lt_is_Some; eauto).
  split; try done.
  - intros r' x Hx Hlk. apply list_lookup_insert_Some in Hx as [(-> & -> & _)|[Hne Hx]];
      eauto.
  - intros r' x Hin Hx. apply list_lookup_insert_Some in Hx as [(-> & -> & _)|[Hne Hx]].
    + eauto.
    + destruct (Hp _ Hin) as [?| ->]; [eauto | done].
  - intros r' Hin. rewrite length_insert. destruct (Hp _ Hin) as [?| ->]; eauto.
  - intros r' Hin. destruct (decide (r' = r)) as [->|Hne].
    + exists s'. split; [by apply list_lookup_insert_eq | eauto].
    + destruct (Ht _ Hin) as [Hold| ->]; [|done].
      destruct (H5 _ Hold) as (x & Hx & Hax). exists x.
      split; [|done]. by rewrite list_lookup_insert_ne.
Qed.

Lemma out_tasks_snoc (l : list Task) (t : Task) :
  omap (fun t => match t with RemoveOutput r => Some r | RemoveInput _ _ => None end)
       (l ++ [t])
  = omap (fun t => match t with RemoveOutput r => Some r | RemoveInput _ _ => None end) l
    ++ match t with RemoveOutput r => [r] | RemoveInput _ _ => [] end.
Proof. rewrite omap_app. by destruct t. Qed.

Lemma elem_of_out_tasks (r : ref) (p : NvDsPipeline) :
  r ∈ out_tasks p <-> RemoveOutput r ∈ idle p.
Proof.
  unfold out_tasks. rewrite list_elem_of_omap. split.
  - intros ([r1 pad|r1] & Hin & Heq); simplify_eq. done.
  - intros Hin. by exists (RemoveOutput r).
Qed.

Lemma last_pad_live_spec (r : ref) (p : NvDsPipeline) :
  last_pad_live r p = true ->
  exists s, heap p !! r = Some s /\ after_demuxer s <> [] /\ RemoveOutput r ∉ idle p.
Proof.
  unfold last_pad_live. destruct (heap p !! r) as [s|]; [|done].
  intros [H1 H2]%andb_true_iff. exists s.
  apply negb_true_iff, bool_decide_eq_false in H1, H2. done.
Qed.

Lemma step_gate_inv (p p' : NvDsPipeline) (e : Event) :
  gate_inv p -> step false p e = Some p' -> gate_inv p'.
Proof.
  unfold gate_inv. intros Hinv Hstep.
  destruct e as [caps sid | r | r w h acc | pad | r | ]; simpl in Hstep.
  - (* SourceAdded *)
    injection Hstep as <-. unfold on_source_added.
    destruct (match caps with Some _ => _ | None => _ end); [done|].
    destruct (get_source _ _); simpl; [done|].
    destruct Hinv as [H1 H2 H3 H4 H5 H6]. split; simpl; try done.
    + intros r s [Hs|[Hge Hs]]%lookup_app_Some Hl; [eauto|].
      apply list_lookup_singleton_Some in Hs as [_ <-]. done.
    + intros r s Hin Hs. apply lookup_app_Some in Hs as [Hs|[Hge Hs]].
      * apply elem_of_app in Hin as [Hin|Hin]; [eauto|].
        apply list_elem_of_singleton in Hin as ->.
        apply lookup_lt_Some in Hs. lia.
      * apply list_lookup_singleton_Some in Hs as [_ <-]. done.
    + intros r Hin. rewrite length_app. simpl.
      apply elem_of_app in Hin as [Hin|Hin]; [apply H3 in Hin; lia|].
      apply list_elem_of_singleton in Hin as ->. lia.
    + apply NoDup_app. split; [done|]. split; [|apply NoDup_singleton].
      intros x Hx ->%list_elem_of_singleton. apply H3 in Hx. lia.
    + intros r Hin. destruct (H5 _ Hin) as (s & Hs & Ha). exists s.
      split; [|done]. apply lookup_app_Some. by left.
  - (* WaitRelease *)
    case_bool_decide; [|done]. injection Hstep as <-. unfold wait_release.
    destruct (heap p !! r) as [s|] eqn:Hr; [|done].
    destruct (lock s) eqn:Hlock; [|done].
    pose proof Hinv as [H1 H2 H3 H4 H5 H6].
    assert (Hnp : r ∉ caps_probes p).
    { intros Hin. destruct (H2 _ _ Hin Hr). congruence. }
    unfold out_tasks; simpl.
    apply (gate_inv_store _ _ _ _ _ r s _ Hinv Hr); simpl.
    + apply NoDup_app. split; [done|]. split; [|apply NoDup_singleton].
      intros x Hx ->%list_elem_of_singleton. done.
    + intros x [?|Hx%list_elem_of_singleton]%elem_of_app; eauto.
    + done.
    + eauto.
    + done.
    + eauto.
    + intros Hin. destruct (H5 _ Hin) as (x & Hx & Hax). simplify_eq.
      rewrite (H1 _ _ Hr Hlock) in Hax. done.
  - (* SourceCaps *)
    case_bool_decide as Hin; [|done]. unfold _on_source_caps in Hstep.
    destruct w as [w|]; [|done]. destruct h as [h|]; [|done].
    destruct (heap p !! r) as [s|] eqn:Hr; [|done].
    pose proof Hinv as [H1 H2 H3 H4 H5 H6].
    destruct (H2 _ _ Hin Hr) as [Hlock Hafter].
    destruct (pad_idx s) as [i|] eqn:Hi.
    + apply link_source_heap in Hstep
        as (s' & Hh & _ & Hl & _ & Ha & _ & Hidle & _ & Hprobes).
      unfold out_tasks. rewrite Hh, Hidle, Hprobes.
      destruct (remove_first_NoDup r _ H4) as [Hnd Hnotin].
      apply (gate_inv_store _ _ _ _ _ r s _ Hinv Hr).
      * done.
      * intros x Hx. left. by eapply remove_first_elem_of.
      * done.
      * eauto.
      * congruence.
      * done.
      * done.
    + injection Hstep as <-. unfold acquire_pad_idx.
      destruct (_free_pad_indices p) as [|i rest]; [done|].
      unfold out_tasks; simpl.
      apply (gate_inv_store _ _ _ _ _ r s _ Hinv Hr); simpl; eauto.
      intros Hin'. destruct (H5 _ Hin') as (x & Hx & Hax). by simplify_eq.
  - (* MuxerSinkPadEos *)
    unfold _on_muxer_sink_pad_eos in Hstep.
    repeat case_match; simplify_eq/=.
    unfold out_tasks; simpl. rewrite out_tasks_snoc, app_nil_r. done.
  - (* LastPadEos *)
    destruct (last_pad_live r p) eqn:Hlive; [|done].
    apply last_pad_live_spec in Hlive as (s & Hr & Ha & Hni).
    unfold on_last_pad_eos in Hstep. rewrite Hr in Hstep. simplify_eq/=.
    unfold out_tasks; simpl. rewrite out_tasks_snoc.
    pose proof Hinv as [H1 H2 H3 H4 H5 H6].
    rewrite <- (list_insert_id (heap p) r s Hr).
    apply (gate_inv_store _ _ _ _ _ r s _ Hinv Hr).
    + done.
    + eauto.
    + apply NoDup_app. split; [done|]. split; [|apply NoDup_singleton].
      intros x Hx ->%list_elem_of_singleton. by apply elem_of_out_tasks in Hx.
    + intros x [?|Hx%list_elem_of_singleton]%elem_of_app; eauto.
    + eauto.
    + eauto.
    + done.
  - (* Idle *)
    unfold run_idle in Hstep. destruct (idle p) as [|t rest] eqn:Hidle; [done|].
    pose proof Hinv as [H1 H2 H3 H4 H5 H6].
    unfold out_tasks in *. rewrite Hidle in *.
    destruct t as [r pad | r]; simpl in Hstep.
    + unfold _remove_input_elements in Hstep. simpl in Hstep.
      destruct (heap p !! r) as [s|] eqn:Hr; [|done]. injection Hstep as <-.
      simpl in *.
      apply (gate_inv_store _ _ _ _ _ r s _ Hinv Hr); simpl; eauto.
      intros Hin. destruct (H5 _ Hin) as (x & Hx & Hax). by simplify_eq.
    + unfold _remove_output_elements in Hstep. simpl in Hstep.
      destruct (heap p !! r) as [s|] eqn:Hr; [|done]. injection Hstep as <-.
      simpl in *. apply NoDup_cons in H6 as [Hni Hnd].
      destruct (H5 r) as (x & Hx & Hax); [apply elem_of_cons; by left|]. simplify_eq.
      apply (gate_inv_store _ _ _ _ _ r s _ Hinv Hr); simpl.
      * done.
      * eauto.
      * done.
      * intros y Hy. left. apply elem_of_cons. by right.
      * done.
      * intros Hin. by destruct (H2 _ _ Hin Hr).
      * done.
Qed.

End Gate.

Lemma init_gate_inv (n : nat) (o : SourceOutput.t) (se : bool) :
  Pipeline.gate_inv (Pipeline.init n o se).
Proof.
  split; simpl; try done; try apply NoDup_nil_2.
  - intros r Hin. by apply not_elem_of_nil in Hin.
  - intros r Hin. by apply not_elem_of_nil in Hin.
Qed.

Lemma run_gate_inv (evs : list Pipeline.Event) (p p' : Pipeline.NvDsPipeline) :
  Pipeline.gate_inv p -> Pipeline.run false evs p = Some p' -> Pipeline.gate_inv p'.
Proof.
  revert p. induction evs as [|e evs IH]; intros p Hinv Hrun; simpl in Hrun.
  - by injection Hrun as <-.
  - destruct (Pipeline.step false p e) as [p1|] eqn:Hs; [|done].
    eauto using step_gate_inv.
Qed.

(** C4, as stated, fails in both directions, whatever the gate of a fresh
    record is: after the downstream EOS alone the gate is set while the
    pre-batch elements are still allocated; and when a blocked re-admission
    has passed the gate, the gate is cleared while neither list has an
    element. *)
Lemma C4_gate_iff_no_elements_fails :
  (exists s, first_source_after false downstream_eos_only = Some s
             /\ lock s = true
             /\ before_muxer s = ["nvvideoconvert"; "capsfilter"]%string
             /\ after_demuxer s = [])
  /\ (exists s, first_source_after true downstream_eos_only = Some s
                /\ lock s = true
                /\ before_muxer s = ["nvvideoconvert"; "capsfilter"]%string
                /\ after_demuxer s = [])
  /\ (exists s, first_source_after false readmission = Some s
                /\ lock s = false
                /\ before_muxer s = [] /\ after_demuxer s = [])
  /\ (exists s, first_source_after true readmission = Some s
                /\ lock s = false
                /\ before_muxer s = [] /\ after_demuxer s = []).
Proof.
  repeat split; eexists; (split; [vm_compute; reflexivity|]); repeat split.
Qed.

(** C4 (amended): when a fresh record starts with its gate unset, in every
    reachable state a set gate means that the post-batch list of the stream
    is empty; the gate says nothing of the pre-batch list, and empty lists
    do not mean that the gate is set. *)
Theorem C4_gate_set_implies_post_batch_released :
  forall (fresh_lock : bool) (n : nat) (o : SourceOutput.t) (se : bool)
         (evs : list Pipeline.Event) (p : Pipeline.NvDsPipeline),
    fresh_lock = false ->
    Pipeline.run fresh_lock evs (Pipeline.init n o se) = Some p ->
    forall (r : Pipeline.ref) (s : SourceInfo),
      Pipeline.heap p !! r = Some s -> lock s = true -> after_demuxer s = [].
Proof.
  intros fl n o se evs p -> Hrun r s Hr Hl.
  pose proof (run_gate_inv evs _ _ (init_gate_inv n o se) Hrun) as [H1 _ _ _ _ _].
  eauto.
Qed.

Lemma C4_gate_set_witness :
  match first_source_after false downstream_eos_only with
  | Some s => lock s = true /\ after_demuxer s = []
  | None => False
  end.
Proof.
  unfold first_source_after.
  destruct (Pipeline.run false downstream_eos_only _) as [p|] eqn:E;
    [|vm_compute in E; discriminate].
  destruct (Pipeline.heap p !! 0%nat) as [s|] eqn:Hs.
  - assert (Hl : lock s = true).
    { vm_compute in E. injection E as <-. vm_compute in Hs. by injection Hs as <-. }
    split; [exact Hl|].
    exact (C4_gate_set_implies_post_batch_released
             false 2 _ true _ p eq_refl E 0%nat s Hs Hl).
  - vm_compute in E. injection E as <-. vm_compute in Hs. discriminate.
Defined.

(** ** The two EOS boundaries *)

Section Drain.
Import Pipeline.

(** C1, as stated, fails: with the downstream EOS alone, and no EOS at the
    muxer sink pad at all, the stream is released: its post-batch elements
    are removed, its index 0 is back in the free list (behind index 1), its
    [pad_idx] is [None] and its gate is set, while its pre-batch elements
    and its muxer sink pad are still there. *)
Lemma C1_released_without_upstream_eos :
  Forall (fun e => forall pad, e <> MuxerSinkPadEos pad) downstream_eos_only
  /\ exists p s,
      run false downstream_eos_only (init 2 SourceOutput.SourceOutputOnlyMeta true)
        = Some p
      /\ heap p !! 0%nat = Some s
      /\ after_demuxer s = [] /\ pad_idx s = None /\ lock s = true
      /\ _free_pad_indices p = [Some 1%nat; Some 0%nat]
      /\ before_muxer s = ["nvvideoconvert"; "capsfilter"]%string
      /\ _muxer_sink_pads p !! 0%nat = Some "camera1"%string
      /\ idle p = [].
Proof.
  split.
  - repeat constructor; discriminate.
  - eexists _, _. split; [vm_compute; reflexivity|]. repeat split.
Qed.

Lemma last_pad_live_true (r : ref) (s : SourceInfo) (p : NvDsPipeline) :
  heap p !! r = Some s -> after_demuxer s <> [] -> RemoveOutput r ∉ idle p ->
  last_pad_live r p = true.
Proof.
  intros Hr Ha Hi. unfold last_pad_live. rewrite Hr.
  rewrite !bool_decide_eq_false_2 by done. done.
Qed.

Lemma run_downstream_eos (fl : bool) (r : ref) (s : SourceInfo) (p : NvDsPipeline) :
  heap p !! r = Some s -> after_demuxer s <> [] -> idle p = [] ->
  run fl [LastPadEos r; Idle] p
  = Some (store r (released s)
            (set_free_pad_indices (_free_pad_indices p ++ [pad_idx s])
               (set_sources (remove_source (_sources p) (with_after_demuxer [] s))
                  (set_idle [] (set_queue (_queue p ++ [source_id s]) p))))).
Proof.
  intros Hr Ha Hi. simpl.
  rewrite (last_pad_live_true r s p Hr Ha) by (rewrite Hi; apply not_elem_of_nil).
  unfold on_last_pad_eos. rewrite Hr. simpl.
  unfold run_idle. simpl. rewrite Hi. simpl.
  unfold _remove_output_elements. simpl. rewrite Hr. reflexivity.
Qed.

Lemma run_cons (fl : bool) (e : Event) (evs : list Event) (p p' : NvDsPipeline) :
  step fl p e = Some p' -> run fl (e :: evs) p = run fl evs p'.
Proof. intros Hs. simpl. by rewrite Hs. Qed.

Lemma step_muxer_sink_pad_eos (fl : bool) (i : nat) (sid : string) (r : ref)
    (p : NvDsPipeline) :
  _muxer_sink_pads p !! i = Some sid -> get_source (_sources p) sid = Some r ->
  step fl p (MuxerSinkPadEos i) = Some (idle_add (RemoveInput r i) p).
Proof.
  intros Hpad Hsrc. simpl. unfold _on_muxer_sink_pad_eos. by rewrite Hpad, Hsrc.
Qed.

Lemma step_last_pad_eos (fl : bool) (r : ref) (s : SourceInfo) (p : NvDsPipeline) :
  heap p !! r = Some s -> after_demuxer s <> [] -> RemoveOutput r ∉ idle p ->
  step fl p (LastPadEos r)
  = Some (set_queue (_queue p ++ [source_id s]) (idle_add (RemoveOutput r) p)).
Proof.
  intros Hr Ha Hi. simpl. rewrite (last_pad_live_true r s p Hr Ha Hi).
  unfold on_last_pad_eos. by rewrite Hr.
Qed.

Lemma step_idle_remove_input (fl : bool) (r : ref) (i : nat) (rest : list Task)
    (s : SourceInfo) (p : NvDsPipeline) :
  idle p = RemoveInput r i :: rest -> heap p !! r = Some s ->
  step fl p Idle
  = Some (set_muxer_sink_pads (delete i (_muxer_sink_pads p))
            (store r (with_before_muxer [] s) (set_idle rest p))).
Proof.
  intros Hi Hr. simpl. unfold run_idle. rewrite Hi. simpl.
  unfold _remove_input_elements. simpl. by rewrite Hr.
Qed.

Lemma step_idle_remove_output (fl : bool) (r : ref) (rest : list Task)
    (s : SourceInfo) (p : NvDsPipeline) :
  idle p = RemoveOutput r :: rest -> heap p !! r = Some s ->
  step fl p Idle
  = Some (store r (released s)
            (set_free_pad_indices (_free_pad_indices p ++ [pad_idx s])
               (set_sources (remove_source (_sources p) (with_after_demuxer [] s))
                  (set_idle rest p)))).
Proof.
  intros Hi Hr. simpl. unfold run_idle. rewrite Hi. simpl.
  unfold _remove_output_elements. simpl. by rewrite Hr.
Qed.

(** C1 (amended): the RELEASED step of a stream is the deferred task of its
    downstream EOS and does not wait for the upstream EOS: run alone, it
    removes the post-batch elements, returns the slot index to the free
    list, clears [pad_idx] and sets the gate, leaving the pre-batch elements
    in place. The upstream EOS and its teardown never touch the free list,
    the slot index or the gate. When both EOS signals have arrived, in
    either order, before the teardowns run, or when the upstream teardown
    runs before the downstream EOS arrives, the pipeline ends in the same
    state, in which the slot index has been appended to the free list
    once. *)
Theorem C1_release_on_downstream_eos_either_order :
  forall (fl : bool) (p : NvDsPipeline) (r : ref) (s : SourceInfo) (i : nat),
    heap p !! r = Some s -> pad_idx s = Some i -> after_demuxer s <> [] ->
    idle p = [] ->
    _muxer_sink_pads p !! i = Some (source_id s) ->
    get_source (_sources p) (source_id s) = Some r ->
    (exists p1,
        run fl [LastPadEos r; Idle] p = Some p1
        /\ heap p1 !! r = Some (released s)
        /\ before_muxer (released s) = before_muxer s
        /\ after_demuxer (released s) = []
        /\ pad_idx (released s) = None
        /\ lock (released s) = true
        /\ _free_pad_indices p1 = _free_pad_indices p ++ [Some i])
    /\ run fl [MuxerSinkPadEos i; LastPadEos r; Idle; Idle] p = Some (drained r s i p)
    /\ run fl [LastPadEos r; MuxerSinkPadEos i; Idle; Idle] p = Some (drained r s i p)
    /\ run fl [MuxerSinkPadEos i; Idle; LastPadEos r; Idle] p = Some (drained r s i p)
    /\ _free_pad_indices (drained r s i p) = _free_pad_indices p ++ [Some i]
    /\ (exists s', heap (drained r s i p) !! r = Some s'
                   /\ before_muxer s' = [] /\ after_demuxer s' = []
                   /\ pad_idx s' = None /\ lock s' = true)
    /\ (forall (q q' : NvDsPipeline) (j : nat),
          step fl q (MuxerSinkPadEos j) = Some q' ->
          _free_pad_indices q' = _free_pad_indices q /\ heap q' = heap q)
    /\ (forall (q q' : NvDsPipeline) (r' : ref) (j : nat) (s' : SourceInfo),
          heap q !! r' = Some s' -> _remove_input_elements r' j q = Some q' ->
          _free_pad_indices q' = _free_pad_indices q
          /\ heap q' = <[r' := with_before_muxer [] s']> (heap q)).
Proof.
  intros fl p r s i Hr Hi Ha Hidle Hpad Hsrc.
  assert (Hlt : (r < length (heap p))%nat) by (apply lookup_lt_is_Some; eauto).
  split; [|split; [|split; [|split; [|split; [|split; [|split]]]]]].
  - eexists. split; [by apply run_downstream_eos|].
    simpl. rewrite Hi. split; [by apply list_lookup_insert_eq|done].
  - erewrite run_cons by (by eapply step_muxer_sink_pad_eos).
    erewrite run_cons.
    2:{ eapply (step_last_pad_eos _ _ s); simpl; [done..|].
        rewrite Hidle. by intros ?%list_elem_of_singleton. }
    erewrite run_cons.
    2:{ eapply (step_idle_remove_input _ _ _ [RemoveOutput r] s); simpl; [|done].
        by rewrite Hidle. }
    erewrite run_cons.
    2:{ eapply (step_idle_remove_output _ _ [] (with_before_muxer [] s)); simpl;
          [done|]. by apply list_lookup_insert_eq. }
    f_equal. unfold drained, store, remove_source. simpl.
    by rewrite Hi, list_insert_insert_eq.
  - erewrite run_cons.
    2:{ eapply (step_last_pad_eos _ _ s); [done..|].
        rewrite Hidle. apply not_elem_of_nil. }
    erewrite run_cons by (by eapply step_muxer_sink_pad_eos).
    erewrite run_cons.
    2:{ eapply (step_idle_remove_output _ _ [RemoveInput r i] s); simpl; [|done].
        by rewrite Hidle. }
    erewrite run_cons.
    2:{ eapply (step_idle_remove_input _ _ _ [] (released s)); simpl; [done|].
        by apply list_lookup_insert_eq. }
    f_equal. unfold drained, store, remove_source. simpl.
    by rewrite Hi, list_insert_insert_eq.
  - erewrite run_cons by (by eapply step_muxer_sink_pad_eos).
    erewrite run_cons.
    2:{ eapply (step_idle_remove_input _ _ _ [] s); simpl; [|done].
        by rewrite Hidle. }
    erewrite run_cons.
    2:{ eapply (step_last_pad_eos _ _ (with_before_muxer [] s)); simpl.
        - by apply list_lookup_insert_eq.
        - done.
        - apply not_elem_of_nil. }
    erewrite run_cons.
    2:{ eapply (step_idle_remove_output _ _ [] (with_before_muxer [] s)); simpl;
          [done|].
        by apply list_lookup_insert_eq. }
    f_equal. unfold drained, store, remove_source. simpl.
    by rewrite Hi, !list_insert_insert_eq.
  - done.
  - eexists. split; [by apply list_lookup_insert_eq|]. done.
  - intros q q' j Hq. simpl in Hq. unfold _on_muxer_sink_pad_eos in Hq.
    repeat case_match; simplify_eq/=; done.
  - intros q q' r' j s' Hs' Hq. unfold _remove_input_elements in Hq.
    rewrite Hs' in Hq. by injection Hq as <-.
Qed.

(** The pipeline of the witnesses is the one reached when "camera1" has
    been admitted to a pipeline with two slots. *)
Lemma one_linked_stream_reachable :
  run false [SourceAdded None "camera1";
             SourceCaps 0%nat (Some 1280) (Some 720) true;
             SourceCaps 0%nat (Some 1280) (Some 720) true]
      (init 2 SourceOutput.SourceOutputOnlyMeta true)
  = Some one_linked_stream.
Proof. vm_compute. reflexivity. Qed.

Lemma C1_release_either_order_witness :
  run false [MuxerSinkPadEos 0%nat; LastPadEos 0%nat; Idle; Idle] one_linked_stream
  = Some (drained 0%nat linked_camera 0%nat one_linked_stream)
  /\ run false [LastPadEos 0%nat; MuxerSinkPadEos 0%nat; Idle; Idle] one_linked_stream
     = Some (drained 0%nat linked_camera 0%nat one_linked_stream)
  /\ _free_pad_indices (drained 0%nat linked_camera 0%nat one_linked_stream)
     = [Some 1%nat; Some 0%nat].
Proof.
  destruct (C1_release_on_downstream_eos_either_order
              false one_linked_stream 0%nat linked_camera 0%nat)
    as (_ & H1 & H2 & _ & H3 & _); try reflexivity; try (vm_compute; discriminate).
  auto.
Defined.

End Drain.

(** ** Re-admission of a stream identifier *)

Section Readmission.
Import Pipeline.

Lemma step_heap_length (fl : bool) (p p' : NvDsPipeline) (e : Event) :
  step fl p e = Some p' -> (length (heap p) <= length (heap p'))%nat.
Proof.
  intros Hstep.
  destruct e as [caps sid | r | r w h acc | pad | r | ]; simpl in Hstep.
  - injection Hstep as <-. unfold on_source_added.
    destruct (match caps with Some _ => _ | None => _ end); [done|].
    destruct (get_source _ _); simpl; [done|]. rewrite length_app. lia.
  - case_bool_decide; [|done]. injection Hstep as <-. unfold wait_release.
    destruct (heap p !! r) as [s|]; [|done]. destruct (lock s); [|done].
    simpl. by rewrite length_insert.
  - case_bool_decide; [|done]. unfold _on_source_caps in Hstep.
    destruct w as [w|]; [|done]. destruct h as [h|]; [|done].
    destruct (heap p !! r) as [s|] eqn:Hr; [|done].
    destruct (pad_idx s) as [i|].
    + apply link_source_heap in Hstep as (s' & -> & _). by rewrite length_insert.
    + injection Hstep as <-. unfold acquire_pad_idx.
      destruct (_free_pad_indices p); simpl; [done|]. by rewrite length_insert.
  - unfold _on_muxer_sink_pad_eos in Hstep. repeat case_match; simplify_eq/=; done.
  - destruct (last_pad_live r p); [|done]. unfold on_last_pad_eos in Hstep.
    repeat case_match; simplify_eq/=; done.
  - unfold run_idle in Hstep. destruct (idle p) as [|[r pad|r] rest]; [done|..];
      simpl in Hstep.
    + unfold _remove_input_elements in Hstep. simpl in Hstep.
      destruct (heap p !! r); [|done]. injection Hstep as <-. simpl.
      by rewrite length_insert.
    + unfold _remove_output_elements in Hstep. simpl in Hstep.
      destruct (heap p !! r); [|done]. injection Hstep as <-. simpl.
      by rewrite length_insert.
Qed.

(** A CAPS probe for an existing record appears only when a poll of its
    gate finds the gate set. *)
Lemma step_enters_caps_probes (fl : bool) (p p' : NvDsPipeline) (e : Event) (r : ref) :
  step fl p e = Some p' -> (r < length (heap p))%nat ->
  r ∉ caps_probes p -> r ∈ caps_probes p' ->
  e = WaitRelease r /\ exists s, heap p !! r = Some s /\ lock s = true.
Proof.
  intros Hstep Hlt Hni Hin.
  destruct e as [caps sid | r0 | r0 w h acc | pad | r0 | ]; simpl in Hstep.
  - injection Hstep as <-. unfold on_source_added in Hin.
    destruct (match caps with Some _ => _ | None => _ end); [done|].
    destruct (get_source _ _); simpl in Hin; [done|].
    apply elem_of_app in Hin as [?|Hin%list_elem_of_singleton]; [done|lia].
  - case_bool_decide; [|done]. injection Hstep as <-. unfold wait_release in Hin.
    destruct (heap p !! r0) as [s|] eqn:Hr; [|done].
    destruct (lock s) eqn:Hl; [|done]. simpl in Hin.
    apply elem_of_app in Hin as [?|Hin%list_elem_of_singleton]; [done|].
    subst. eauto.
  - case_bool_decide; [|done]. unfold _on_source_caps in Hstep.
    destruct w as [w|]; [|done]. destruct h as [h|]; [|done].
    destruct (heap p !! r0) as [s|] eqn:Hr; [|done].
    destruct (pad_idx s) as [i|].
    + apply link_source_heap in Hstep as (s' & _ & _ & _ & _ & _ & _ & _ & _ & Hp).
      rewrite Hp in Hin. by apply remove_first_elem_of in Hin.
    + injection Hstep as <-. unfold acquire_pad_idx in Hin.
      destruct (_free_pad_indices p); simpl in Hin; done.
  - unfold _on_muxer_sink_pad_eos in Hstep. repeat case_match; simplify_eq/=; done.
  - destruct (last_pad_live r0 p); [|done]. unfold on_last_pad_eos in Hstep.
    repeat case_match; simplify_eq/=; done.
  - unfold run_idle in Hstep. destruct (idle p) as [|[r1 pad|r1] rest]; [done|..];
      simpl in Hstep.
    + unfold _remove_input_elements in Hstep. simpl in Hstep.
      destruct (heap p !! r1); [|done]. by injection Hstep as <-.
    + unfold _remove_output_elements in Hstep. simpl in Hstep.
      destruct (heap p !! r1); [|done]. by injection Hstep as <-.
Qed.

Lemma slot_acquisition_after_gate (fl : bool) (r : ref) (w h : option Z) (acc : bool)
    (evs2 : list Event) (p' : NvDsPipeline) (evs1 : list Event) :
  forall p : NvDsPipeline,
    (r < length (heap p))%nat -> r ∉ caps_probes p ->
    run fl (evs1 ++ SourceCaps r w h acc :: evs2) p = Some p' ->
    exists (pre post : list Event) (q : NvDsPipeline) (s : SourceInfo),
      evs1 = pre ++ WaitRelease r :: post
      /\ run fl pre p = Some q /\ heap q !! r = Some s /\ lock s = true.
Proof.
  induction evs1 as [|e evs1 IH]; intros p Hlt Hni Hrun; simpl in Hrun.
  - rewrite bool_decide_eq_false_2 in Hrun by done. done.
  - destruct (step fl p e) as [p1|] eqn:Hs; [|done].
    destruct (decide (r ∈ caps_probes p1)) as [Hin|Hni1].
    + destruct (step_enters_caps_probes fl p p1 e r Hs Hlt Hni Hin)
        as (-> & s & Hr & Hl).
      by exists [], evs1, p, s.
    + pose proof (step_heap_length fl p p1 e Hs) as Hlen.
      destruct (IH p1 ltac:(lia) Hni1 Hrun) as (pre & post & q & s & -> & Hq & Hr & Hl).
      exists (e :: pre), post, q, s. simpl. rewrite Hs. done.
Qed.

Lemma wait_release_unset (r : ref) (s : SourceInfo) (p : NvDsPipeline) (n : nat) :
  heap p !! r = Some s -> lock s = false -> Nat.iter n (wait_release r) p = p.
Proof.
  intros Hr Hl. induction n as [|n IH]; simpl; [done|].
  rewrite IH. unfold wait_release. by rewrite Hr, Hl.
Qed.

(** C3: a new attachment for an identifier that is in the registry does
    not get to the CAPS probe, where the slot is acquired: the call waits on
    the gate of the record. While the gate is unset, any number of polls
    leave the call waiting and the pipeline as it is (no failure); a poll
    that finds the gate set clears it and adds the probe. In every
    execution that follows, a slot acquisition for the record comes after a
    poll at which its gate was set. *)
Theorem C3_readmission_waits_for_release_gate :
  forall (fl : bool) (p : NvDsPipeline) (caps : option string) (sid : string)
         (r : ref) (s : SourceInfo),
    match caps with
    | Some name => negb (String.prefix "video" name)
    | None => false
    end = false ->
    get_source (_sources p) sid = Some r ->
    heap p !! r = Some s ->
    r ∉ caps_probes p ->
    let p0 := on_source_added fl caps sid p in
    p0 = set_waiting (waiting p ++ [r]) p
    /\ (forall (w h : option Z) (acc : bool),
          step fl p0 (SourceCaps r w h acc) = None)
    /\ (lock s = false -> forall n : nat, Nat.iter n (wait_release r) p0 = p0)
    /\ (lock s = true ->
        exists s', heap (wait_release r p0) !! r = Some s' /\ lock s' = false
                   /\ r ∈ caps_probes (wait_release r p0))
    /\ forall (evs1 evs2 : list Event) (w h : option Z) (acc : bool)
              (p' : NvDsPipeline),
        run fl (evs1 ++ SourceCaps r w h acc :: evs2) p0 = Some p' ->
        exists (pre post : list Event) (q : NvDsPipeline) (s' : SourceInfo),
          evs1 = pre ++ WaitRelease r :: post
          /\ run fl pre p0 = Some q /\ heap q !! r = Some s' /\ lock s' = true.
Proof.
  intros fl p caps sid r s Hv Hsrc Hr Hni p0.
  assert (Hp0 : p0 = set_waiting (waiting p ++ [r]) p).
  { unfold p0, on_source_added. by rewrite Hv, Hsrc. }
  assert (Hlt : (r < length (heap p))%nat) by (apply lookup_lt_is_Some; eauto).
  rewrite Hp0. split; [done|]. split; [|split; [|split]].
  - intros w h acc. simpl. by rewrite bool_decide_eq_false_2.
  - intros Hl n. by apply (wait_release_unset r s).
  - intros Hl. unfold wait_release. simpl. rewrite Hr, Hl. simpl.
    exists (with_lock false s). split; [by apply list_lookup_insert_eq|].
    split; [done|]. apply elem_of_app. right. by apply list_elem_of_singleton.
  - intros evs1 evs2 w h acc p' Hrun.
    by eapply slot_acquisition_after_gate.
Qed.

(** The pipeline of [one_linked_stream] when "camera1" reappears while its
    first incarnation is still linked. *)
Lemma C3_readmission_witness :
  on_source_added false (Some "video/x-raw"%string) "camera1" one_linked_stream
  = set_waiting [0%nat] one_linked_stream
  /\ Nat.iter 3 (wait_release 0%nat)
       (on_source_added false (Some "video/x-raw"%string) "camera1" one_linked_stream)
     = on_source_added false (Some "video/x-raw"%string) "camera1" one_linked_stream.
Proof.
  destruct (C3_readmission_waits_for_release_gate
              false one_linked_stream (Some "video/x-raw"%string) "camera1"
              0%nat linked_camera)
    as (H1 & _ & H2 & _); try reflexivity.
  - vm_compute. by intros ?%not_elem_of_nil.
  - split; [exact H1 | exact (H2 eq_refl 3%nat)].
Defined.

End Readmission.

(** ** Per-batch metadata ([update_frame_meta]) *)

Section Identities.
Import Reconciler.
Variable UNTRACKED_OBJECT_ID : Z.

Lemma correct_object_ids_length (m : gmap string Z) (objs : list NvDsObjectMeta) :
  length (correct_object_ids UNTRACKED_OBJECT_ID m objs) = length objs.
Proof.
  revert m. induction objs as [|o objs IH]; intros m; simpl; [done|].
  destruct (object_id o =? UNTRACKED_OBJECT_ID); simpl; by rewrite IH.
Qed.

Lemma correct_object_ids_lookup (objs : list NvDsObjectMeta) :
  forall (m : gmap string Z) (k : nat) (o : NvDsObjectMeta),
    objs !! k = Some o ->
    correct_object_ids UNTRACKED_OBJECT_ID m objs !! k
    = Some (if object_id o =? UNTRACKED_OBJECT_ID
            then with_object_id
                   (default 0 (m !! obj_label o)
                    + untracked_before UNTRACKED_OBJECT_ID (take k objs) (obj_label o)) o
            else o).
Proof.
  unfold untracked_before.
  induction objs as [|o0 objs IH]; intros m k o Hk; [done|].
  destruct k as [|k]; simpl in Hk.
  - injection Hk as ->. simpl.
    destruct (object_id o =? UNTRACKED_OBJECT_ID); simpl; [|done].
    by rewrite Z.add_0_r.
  - simpl. destruct (Z.eqb_spec (object_id o0) UNTRACKED_OBJECT_ID) as [Hu|Hu]; simpl.
    + rewrite (IH _ k o Hk). f_equal.
      destruct (object_id o =? UNTRACKED_OBJECT_ID); [|done]. f_equal.
      destruct (decide (obj_label o0 = obj_label o)) as [Hl|Hl].
      * rewrite filter_cons_True by done. rewrite Hl, lookup_insert_eq. simpl. lia.
      * rewrite filter_cons_False by (intros [_ ?]; done).
        by rewrite lookup_insert_ne.
    + rewrite (IH _ k o Hk). f_equal.
      rewrite filter_cons_False by (intros [? _]; done). done.
Qed.

End Identities.

(** C5: in the first iteration over a frame, whose counters start empty,
    the object at position [k] gets, when it carries the untracked identity,
    the number of untracked objects of its label before it in the frame
    (0, 1, 2, ... per label, in iteration order); an object with another
    identity is left as it is, and does not count. *)
Theorem C5_fallback_identity_per_frame_and_label :
  forall (UNTRACKED_OBJECT_ID : Z) (objs : list Reconciler.NvDsObjectMeta)
         (k : nat) (o : Reconciler.NvDsObjectMeta),
    objs !! k = Some o ->
    length (Reconciler.correct_object_ids UNTRACKED_OBJECT_ID ∅ objs) = length objs
    /\ (Reconciler.object_id o = UNTRACKED_OBJECT_ID ->
        Reconciler.correct_object_ids UNTRACKED_OBJECT_ID ∅ objs !! k
        = Some (Reconciler.with_object_id
                  (Reconciler.untracked_before UNTRACKED_OBJECT_ID (take k objs)
                     (Reconciler.obj_label o)) o))
    /\ (Reconciler.object_id o <> UNTRACKED_OBJECT_ID ->
        Reconciler.correct_object_ids UNTRACKED_OBJECT_ID ∅ objs !! k = Some o
        /\ forall (rest : list Reconciler.NvDsObjectMeta) (label : string),
            Reconciler.untracked_before UNTRACKED_OBJECT_ID (take k objs ++ o :: rest) label
            = Reconciler.untracked_before UNTRACKED_OBJECT_ID (take k objs ++ rest) label).
Proof.
  intros U objs k o Hk.
  pose proof (correct_object_ids_lookup U objs ∅ k o Hk) as Hl.
  rewrite lookup_empty in Hl. simpl in Hl.
  split; [apply correct_object_ids_length|]. split.
  - intros Hu. rewrite Hl. apply Z.eqb_eq in Hu. by rewrite Hu.
  - intros Hu. split.
    + rewrite Hl. apply Z.eqb_neq in Hu. by rewrite Hu.
    + intros rest label. unfold Reconciler.untracked_before.
      rewrite !filter_app. rewrite filter_cons_False by (intros [? _]; done). done.
Qed.

Lemma C5_fallback_identity_witness :
  Reconciler.object_id <$> Reconciler.correct_object_ids untracked_id ∅ cars_frame
  = [0; 1; 77; 0; 2]
  /\ Reconciler.correct_object_ids untracked_id ∅ cars_frame !! 4%nat
     = Some (Reconciler.mkNvDsObjectMeta 2 "car" (7, 7, 10, 10)%Q []).
Proof.
  split; [reflexivity|].
  destruct (C5_fallback_identity_per_frame_and_label untracked_id cars_frame 4%nat
              (Reconciler.mkNvDsObjectMeta untracked_id "car" (7, 7, 10, 10)%Q [])
              eq_refl) as (_ & H & _).
  rewrite (H eq_refl). reflexivity.
Defined.

Section Objects.
Import Reconciler.
Variable UNTRACKED_OBJECT_ID : Z.
Variable PRIMARY_OBJECT_LABEL : string.
Variable OutAttr : Type.
Variable attr_converter : AttributeMeta -> OutAttr.
Variable obj_converter :
  NvDsObjectMeta -> FrameParameters -> option Resolution -> ObjMeta OutAttr.
Variable frame_params : FrameParameters.
Variable _internal_attrs : gset (string * string).

Lemma with_attributes_id (m : ObjMeta OutAttr) :
  with_attributes OutAttr (om_attributes OutAttr m) m = m.
Proof. by destruct m. Qed.

Lemma collect_attributes_inner (l : list AttributeMeta) (m : ObjMeta OutAttr) :
  fold_left
    (fun obj_meta attr_meta =>
       if bool_decide ((element_name attr_meta, attr_name attr_meta) ∉ _internal_attrs)
       then with_attributes OutAttr
              (om_attributes OutAttr obj_meta ++ [attr_converter attr_meta]) obj_meta
       else obj_meta) l m
  = with_attributes OutAttr
      (om_attributes OutAttr m
         ++ (attr_converter
               <$> filter (fun a => (element_name a, attr_name a) ∉ _internal_attrs) l))
      m.
Proof.
  revert m. induction l as [|a l IH]; intros m; simpl.
  - by rewrite app_nil_r, with_attributes_id.
  - rewrite IH. rewrite filter_cons.
    case_bool_decide as Hd; case_decide as Hd'; try done.
    simpl. by rewrite <- app_assoc.
Qed.

(** The nested loops compute the specification's record. *)
Lemma collect_attributes_spec (lists : list (list AttributeMeta)) (m : ObjMeta OutAttr) :
  collect_attributes OutAttr attr_converter _internal_attrs lists m
  = with_attributes OutAttr
      (om_attributes OutAttr m
         ++ (attr_converter
               <$> filter (fun a => (element_name a, attr_name a) ∉ _internal_attrs)
                          (concat lists)))
      m.
Proof.
  unfold collect_attributes. revert m.
  induction lists as [|l lists IH]; intros m; simpl.
  - by rewrite app_nil_r, with_attributes_id.
  - rewrite collect_attributes_inner, IH. simpl.
    by rewrite filter_app, fmap_app, app_assoc.
Qed.

Lemma collect_attributes_output_record (dest : option Resolution) (o : NvDsObjectMeta) :
  collect_attributes OutAttr attr_converter _internal_attrs (attr_meta_lists o)
    (obj_converter o frame_params dest)
  = output_record OutAttr attr_converter obj_converter frame_params
      _internal_attrs dest o.
Proof. apply collect_attributes_spec. Qed.

Lemma equals_frame_spec (m : ObjMeta OutAttr) (d : Resolution) :
  equals_frame OutAttr m d = true
  <-> (bbox_xc OutAttr m == res_width d # 2)%Q
      /\ (bbox_yc OutAttr m == res_height d # 2)%Q
      /\ (bbox_width OutAttr m == inject_Z (res_width d))%Q
      /\ (bbox_height OutAttr m == inject_Z (res_height d))%Q.
Proof.
  unfold equals_frame. rewrite !andb_true_iff, !Qeq_bool_iff. tauto.
Qed.

(** The test of the second iteration is the specification's [degenerate]. *)
Lemma skip_test_spec (d : Resolution) (o : NvDsObjectMeta) (m : ObjMeta OutAttr) :
  String.eqb (obj_label o) PRIMARY_OBJECT_LABEL
  && (equals_frame OutAttr m d && bool_decide (om_attributes OutAttr m = [])) = true
  <-> degenerate PRIMARY_OBJECT_LABEL OutAttr d o m.
Proof.
  unfold degenerate.
  rewrite !andb_true_iff, String.eqb_eq, equals_frame_spec, bool_decide_eq_true.
  tauto.
Qed.

Lemma collect_objects_spec (d : Resolution) (objs : list NvDsObjectMeta) :
  forall objects : list (ObjMeta OutAttr),
    collect_objects PRIMARY_OBJECT_LABEL OutAttr attr_converter obj_converter
      frame_params _internal_attrs (Some d) objs objects
    = Some (objects
              ++ (output_record OutAttr attr_converter obj_converter frame_params
                    _internal_attrs (Some d)
                    <$> filter (fun o =>
                                  ~ degenerate PRIMARY_OBJECT_LABEL OutAttr d o
                                      (output_record OutAttr attr_converter
                                         obj_converter frame_params _internal_attrs
                                         (Some d) o))
                               objs)).
Proof.
  induction objs as [|o objs IH]; intros objects; simpl.
  - by rewrite app_nil_r.
  - rewrite collect_attributes_output_record.
    set (m := output_record _ _ _ _ _ _ o).
    pose proof (skip_test_spec d o m) as Hskip.
    rewrite filter_cons.
    destruct (String.eqb (obj_label o) PRIMARY_OBJECT_LABEL) eqn:Hlabel;
      [destruct (equals_frame OutAttr m d && bool_decide (om_attributes OutAttr m = []))
         eqn:Htest|];
      simpl in Hskip; destruct (decide _) as [Hnd|Hd].
    + destruct Hnd. by apply Hskip.
    + apply IH.
    + rewrite IH. simpl. by rewrite <- app_assoc.
    + destruct Hd. intros Hdeg. by apply Hskip in Hdeg.
    + rewrite IH. simpl. by rewrite <- app_assoc.
    + destruct Hd. intros Hdeg. by apply Hskip in Hdeg.
Qed.

Lemma collect_objects_sublist (dest : option Resolution) (objs : list NvDsObjectMeta) :
  forall objects out : list (ObjMeta OutAttr),
    collect_objects PRIMARY_OBJECT_LABEL OutAttr attr_converter obj_converter
      frame_params _internal_attrs dest objs objects = Some out ->
    exists kept : list NvDsObjectMeta,
      kept `sublist_of` objs
      /\ out = objects
               ++ (output_record OutAttr attr_converter obj_converter frame_params
                     _internal_attrs dest <$> kept).
Proof.
  induction objs as [|o objs IH]; intros objects out Hout; simpl in Hout.
  - injection Hout as <-. exists []. by rewrite app_nil_r.
  - rewrite collect_attributes_output_record in Hout.
    assert (Hskip : forall kept,
               kept `sublist_of` objs -> out = objects ++ (output_record OutAttr
                 attr_converter obj_converter frame_params _internal_attrs dest <$> kept) ->
               exists kept', kept' `sublist_of` o :: objs /\ out = objects ++ (output_record
                 OutAttr attr_converter obj_converter frame_params _internal_attrs dest
                 <$> kept')).
    { intros kept Hs ->. exists kept. split; [by apply sublist_cons|done]. }
    assert (Hkeep : forall kept,
               kept `sublist_of` objs ->
               out = (objects ++ [output_record OutAttr attr_converter obj_converter
                        frame_params _internal_attrs dest o]) ++ (output_record OutAttr
                 attr_converter obj_converter frame_params _internal_attrs dest <$> kept) ->
               exists kept', kept' `sublist_of` o :: objs /\ out = objects ++ (output_record
                 OutAttr attr_converter obj_converter frame_params _internal_attrs dest
                 <$> kept')).
    { intros kept Hs ->. exists (o :: kept). split; [by apply sublist_skip|].
      simpl. by rewrite <- app_assoc. }
    destruct (String.eqb (obj_label o) PRIMARY_OBJECT_LABEL).
    + destruct dest as [d|]; [|done].
      destruct (equals_frame _ _ d && _).
      * destruct (IH _ _ Hout) as (kept & Hs & Ho). eauto.
      * destruct (IH _ _ Hout) as (kept & Hs & Ho). eauto.
    + destruct (IH _ _ Hout) as (kept & Hs & Ho). eauto.
Qed.

End Objects.

Section InternalAttrs.
Import Reconciler.

Lemma add_element_attrs (name : string) (attributes : list ModelAttribute)
    (acc : gset (string * string)) (x y : string) :
  (x, y) ∈ fold_left (fun acc attr =>
                        if internal attr then {[ (name, ma_name attr) ]} ∪ acc else acc)
                     attributes acc
  <-> (x, y) ∈ acc \/ (x = name /\ mkModelAttribute y true ∈ attributes).
Proof.
  revert acc. induction attributes as [|[n i] attributes IH]; intros acc; simpl.
  - split; [auto|]. intros [?|[_ Hin]]; [done|]. by apply not_elem_of_nil in Hin.
  - rewrite IH. destruct i.
    + rewrite elem_of_union, elem_of_singleton, elem_of_cons. split.
      * intros [[Heq|?]|[-> ?]]; [injection Heq as -> ->|..]; auto.
      * intros [?|[-> [Heq|?]]]; [auto|injection Heq as ->|]; auto.
    + rewrite elem_of_cons. split.
      * intros [?|[-> ?]]; auto.
      * intros [?|[-> [Heq|?]]]; [auto|discriminate|auto].
Qed.

Lemma add_element_spec (element : PipelineElement) (acc : gset (string * string))
    (x y : string) :
  (x, y) ∈ add_element element acc
  <-> (x, y) ∈ acc
      \/ exists attributes,
          (element = ModelElement x (AttributeModel attributes)
           \/ element = ModelElement x (ComplexModel attributes))
          /\ mkModelAttribute y true ∈ attributes.
Proof.
  destruct element as [name [attrs|attrs|]|name]; simpl;
    rewrite ?add_element_attrs; split;
    try (intros [?|[-> ?]]; [auto|right; eexists; eauto]);
    try (intros [?|(attrs' & [Heq|Heq] & ?)]; [auto|try discriminate..];
         injection Heq as -> ->; auto);
    auto.
Qed.

Lemma add_elements_from (elements : list PipelineElement) (acc : gset (string * string))
    (x y : string) :
  (x, y) ∈ fold_left (fun acc element => add_element element acc) elements acc
  <-> (x, y) ∈ acc
      \/ exists attributes,
          (ModelElement x (AttributeModel attributes) ∈ elements
           \/ ModelElement x (ComplexModel attributes) ∈ elements)
          /\ mkModelAttribute y true ∈ attributes.
Proof.
  revert acc. induction elements as [|e elements IH]; intros acc; simpl.
  - split; [auto|]. intros [?|(attrs & [Hin|Hin] & _)]; [done|..];
      by apply not_elem_of_nil in Hin.
  - rewrite IH, add_element_spec. setoid_rewrite elem_of_cons. split.
    + intros [[?|(attrs & [->| ->] & ?)]|(attrs & [?|?] & ?)]; eauto 8.
    + intros [?|(attrs & [[<-|?]|[<-|?]] & ?)]; eauto 8.
Qed.

(** What [add_element] has registered once the pipeline is built. *)
Lemma add_elements_spec (elements : list PipelineElement) (x y : string) :
  (x, y) ∈ add_elements elements
  <-> exists attributes,
      (ModelElement x (AttributeModel attributes) ∈ elements
       \/ ModelElement x (ComplexModel attributes) ∈ elements)
      /\ mkModelAttribute y true ∈ attributes.
Proof.
  unfold add_elements. rewrite add_elements_from. split; [|auto].
  intros [Hin|?]; [|done]. by apply not_elem_of_empty in Hin.
Qed.

End InternalAttrs.

(** C6: for a frame of a stream with destination resolution [d], the
    objects appended to the output list of the frame are, in the native
    iteration order, the output records of exactly the objects that are not
    degenerate; and an object is degenerate when its label is the primary
    label, its converted box is [(d.width / 2, d.height / 2, d.width,
    d.height)] and its record has no attribute once the internal ones are
    filtered out (so one exported attribute keeps the object). *)
Theorem C6_degenerate_primary_object_is_omitted :
  forall (UNTRACKED_OBJECT_ID : Z) (PRIMARY_OBJECT_LABEL : string) (OutAttr : Type)
         (attr_converter : Reconciler.AttributeMeta -> OutAttr)
         (obj_converter : Reconciler.NvDsObjectMeta -> FrameParameters ->
                          option Resolution -> Reconciler.ObjMeta OutAttr)
         (get_source_frame_meta :
            string -> option Z -> Z -> list (Reconciler.ObjMeta OutAttr))
         (frame_params : FrameParameters) (_internal_attrs : gset (string * string))
         (p : Pipeline.NvDsPipeline) (frame : Reconciler.NvDsFrameMeta)
         (sid : string) (r : Pipeline.ref) (source_info : SourceInfo) (d : Resolution),
    Pipeline.get_id_by_pad_index (Pipeline._sources p) (Reconciler.pad_index frame)
      = Some sid ->
    Pipeline.get_source (Pipeline._sources p) sid = Some r ->
    Pipeline.heap p !! r = Some source_info ->
    dest_resolution source_info = Some d ->
    let record :=
      Reconciler.output_record OutAttr attr_converter obj_converter frame_params
        _internal_attrs (Some d) in
    Reconciler.update_frame UNTRACKED_OBJECT_ID PRIMARY_OBJECT_LABEL OutAttr
      attr_converter obj_converter get_source_frame_meta frame_params
      _internal_attrs p frame
    = Some (Reconciler.mkFrameOutput OutAttr sid (Reconciler.savant_idx frame)
              (Reconciler.buf_pts frame)
              (get_source_frame_meta sid (Reconciler.savant_idx frame)
                 (Reconciler.buf_pts frame)
               ++ (record
                     <$> filter (fun o => ~ Reconciler.degenerate PRIMARY_OBJECT_LABEL
                                              OutAttr d o (record o))
                                (Reconciler.correct_object_ids UNTRACKED_OBJECT_ID ∅
                                   (Reconciler.objects frame)))))
    /\ forall o : Reconciler.NvDsObjectMeta,
        let base := obj_converter o frame_params (Some d) in
        Reconciler.degenerate PRIMARY_OBJECT_LABEL OutAttr d o (record o)
        <-> Reconciler.obj_label o = PRIMARY_OBJECT_LABEL
            /\ (Reconciler.bbox_xc OutAttr base == res_width d # 2)%Q
            /\ (Reconciler.bbox_yc OutAttr base == res_height d # 2)%Q
            /\ (Reconciler.bbox_width OutAttr base == inject_Z (res_width d))%Q
            /\ (Reconciler.bbox_height OutAttr base == inject_Z (res_height d))%Q
            /\ Reconciler.om_attributes OutAttr base = []
            /\ Reconciler.exported _internal_attrs o = [].
Proof.
  intros U P OutAttr ac oc init fp ia p frame sid r si d Hid Hsrc Hr Hd record.
  split.
  - unfold Reconciler.update_frame. rewrite Hid, Hsrc, Hr, Hd.
    by rewrite collect_objects_spec.
  - intros o base. unfold Reconciler.degenerate, record, Reconciler.output_record.
    fold base. simpl. split.
    + intros (H1 & H2 & H3 & H4 & H5 & [H6 H7]%app_eq_nil).
      apply fmap_nil_inv in H7. done.
    + intros (H1 & H2 & H3 & H4 & H5 & H6 & H7). rewrite H6, H7. done.
Qed.

Lemma C6_degenerate_primary_object_witness :
  Reconciler.fo_objects _
  <$> Reconciler.update_frame untracked_id "frame" _ example_attr example_obj
        (fun _ _ _ => []) frame_params_plain
        (Reconciler.add_elements example_elements) one_linked_stream example_frame
  = Some [Reconciler.mkObjMeta _ (Reconciler.with_object_id 1 whole_frame_colored)
            (0 + 1280 * (1 # 2)) (0 + 720 * (1 # 2)) 1280 720
            [("classifier", "color")]%string;
          Reconciler.mkObjMeta _ (Reconciler.with_object_id 0 car_object)
            (10 + 100 * (1 # 2)) (20 + 50 * (1 # 2)) 100 50
            [("classifier", "age")]%string]%Q.
Proof.
  rewrite (proj1 (C6_degenerate_primary_object_is_omitted
                    untracked_id "frame" _ example_attr example_obj (fun _ _ _ => [])
                    frame_params_plain (Reconciler.add_elements example_elements)
                    one_linked_stream example_frame "camera1" 0%nat linked_camera
                    (mkResolution 1280 720) eq_refl eq_refl eq_refl eq_refl)).
  vm_compute. reflexivity.
Defined.

Lemma update_frame_objects (UNTRACKED_OBJECT_ID : Z) (PRIMARY_OBJECT_LABEL : string)
    (OutAttr : Type) (attr_converter : Reconciler.AttributeMeta -> OutAttr)
    (obj_converter : Reconciler.NvDsObjectMeta -> FrameParameters ->
                     option Resolution -> Reconciler.ObjMeta OutAttr)
    (get_source_frame_meta :
       string -> option Z -> Z -> list (Reconciler.ObjMeta OutAttr))
    (frame_params : FrameParameters) (_internal_attrs : gset (string * string))
    (p : Pipeline.NvDsPipeline) (frame : Reconciler.NvDsFrameMeta)
    (out : Reconciler.FrameOutput OutAttr) :
  Reconciler.update_frame UNTRACKED_OBJECT_ID PRIMARY_OBJECT_LABEL OutAttr
    attr_converter obj_converter get_source_frame_meta frame_params
    _internal_attrs p frame = Some out ->
  exists (dest : option Resolution) (kept : list Reconciler.NvDsObjectMeta),
    kept `sublist_of` Reconciler.correct_object_ids UNTRACKED_OBJECT_ID ∅
                        (Reconciler.objects frame)
    /\ Reconciler.fo_objects OutAttr out
       = get_source_frame_meta (Reconciler.fo_source_id OutAttr out)
           (Reconciler.fo_frame_idx OutAttr out) (Reconciler.fo_frame_pts OutAttr out)
         ++ (Reconciler.output_record OutAttr attr_converter obj_converter
               frame_params _internal_attrs dest <$> kept).
Proof.
  unfold Reconciler.update_frame. intros Hout.
  destruct (Pipeline.get_id_by_pad_index _ _) as [sid|]; [|done].
  destruct (Pipeline.get_source _ _) as [r|]; [|done].
  destruct (Pipeline.heap p !! r) as [si|]; [|done].
  destruct (Reconciler.collect_objects _ _ _ _ _ _ _ _ _) as [objs|] eqn:Hc; [|done].
  injection Hout as <-. simpl.
  apply collect_objects_sublist in Hc as (kept & Hs & ->). eauto.
Qed.

(** C7: with the pairs that [add_element] registered while the pipeline was
    built, for every batch that [update_frame_meta] processes, in whatever
    state the pipeline is, the objects appended to the output of each frame
    are output records of objects of that frame, and the attributes of such
    a record are those of the converted object followed by the conversions
    of the exported attributes, in order; an attribute is exported if and
    only if its (producer, name) pair is not registered. A pair is
    registered if and only if a model element of that name, with an
    attribute or complex model, has an attribute of that name flagged
    internal. *)
Theorem C7_internal_attributes_are_not_exported :
  forall (UNTRACKED_OBJECT_ID : Z) (PRIMARY_OBJECT_LABEL : string) (OutAttr : Type)
         (attr_converter : Reconciler.AttributeMeta -> OutAttr)
         (obj_converter : Reconciler.NvDsObjectMeta -> FrameParameters ->
                          option Resolution -> Reconciler.ObjMeta OutAttr)
         (get_source_frame_meta :
            string -> option Z -> Z -> list (Reconciler.ObjMeta OutAttr))
         (elements : list Reconciler.PipelineElement)
         (frame_params : FrameParameters)
         (p : Pipeline.NvDsPipeline) (batch : list Reconciler.NvDsFrameMeta)
         (outs : list (Reconciler.FrameOutput OutAttr)),
    let _internal_attrs := Reconciler.add_elements elements in
    Reconciler.update_frame_meta UNTRACKED_OBJECT_ID PRIMARY_OBJECT_LABEL OutAttr
      attr_converter obj_converter get_source_frame_meta frame_params
      _internal_attrs p batch = Some outs ->
    Forall2
      (fun frame out =>
         exists (dest : option Resolution) (kept : list Reconciler.NvDsObjectMeta),
           kept `sublist_of` Reconciler.correct_object_ids UNTRACKED_OBJECT_ID ∅
                               (Reconciler.objects frame)
           /\ Reconciler.fo_objects OutAttr out
              = get_source_frame_meta (Reconciler.fo_source_id OutAttr out)
                  (Reconciler.fo_frame_idx OutAttr out)
                  (Reconciler.fo_frame_pts OutAttr out)
                ++ (Reconciler.output_record OutAttr attr_converter obj_converter
                      frame_params _internal_attrs dest <$> kept))
      batch outs
    /\ (forall (dest : option Resolution) (o : Reconciler.NvDsObjectMeta),
          Reconciler.om_attributes OutAttr
            (Reconciler.output_record OutAttr attr_converter obj_converter
               frame_params _internal_attrs dest o)
          = Reconciler.om_attributes OutAttr (obj_converter o frame_params dest)
            ++ (attr_converter <$> Reconciler.exported _internal_attrs o))
    /\ (forall (o : Reconciler.NvDsObjectMeta) (a : Reconciler.AttributeMeta),
          a ∈ Reconciler.exported _internal_attrs o
          <-> a ∈ concat (Reconciler.attr_meta_lists o)
              /\ (Reconciler.element_name a, Reconciler.attr_name a) ∉ _internal_attrs)
    /\ (forall x y : string,
          (x, y) ∈ _internal_attrs
          <-> exists attributes,
              (Reconciler.ModelElement x (Reconciler.AttributeModel attributes)
                 ∈ elements
               \/ Reconciler.ModelElement x (Reconciler.ComplexModel attributes)
                    ∈ elements)
              /\ Reconciler.mkModelAttribute y true ∈ attributes).
Proof.
  intros U P OutAttr ac oc init elements fp p batch outs ia Hrun.
  split; [|split; [|split]].
  - revert outs Hrun. induction batch as [|frame batch IH]; intros outs Hrun;
      simpl in Hrun.
    + injection Hrun as <-. constructor.
    + destruct (Reconciler.update_frame _ _ _ _ _ _ _ _ _ frame) as [out|] eqn:Hf;
        [|done].
      destruct (Reconciler.update_frame_meta _ _ _ _ _ _ _ _ _ batch) as [outs'|];
        [|done].
      injection Hrun as <-. constructor; [|by apply IH].
      by eapply update_frame_objects.
  - done.
  - intros o a. unfold Reconciler.exported. rewrite list_elem_of_filter. tauto.
  - intros x y. apply add_elements_spec.
Qed.

Lemma C7_internal_attributes_witness :
  Forall2
    (fun frame out =>
       exists (dest : option Resolution) (kept : list Reconciler.NvDsObjectMeta),
         kept `sublist_of` Reconciler.correct_object_ids untracked_id ∅
                             (Reconciler.objects frame)
         /\ Reconciler.fo_objects _ out
            = Reconciler.output_record _ example_attr example_obj frame_params_plain
                (Reconciler.add_elements example_elements) dest <$> kept)
    [example_frame; example_frame]
    [Reconciler.mkFrameOutput _ "camera1" (Some 7) 40
       [Reconciler.mkObjMeta _ (Reconciler.with_object_id 1 whole_frame_colored)
          (0 + 1280 * (1 # 2)) (0 + 720 * (1 # 2)) 1280 720
          [("classifier", "color")]%string;
        Reconciler.mkObjMeta _ (Reconciler.with_object_id 0 car_object)
          (10 + 100 * (1 # 2)) (20 + 50 * (1 # 2)) 100 50
          [("classifier", "age")]%string]%Q;
     Reconciler.mkFrameOutput _ "camera1" (Some 7) 40
       [Reconciler.mkObjMeta _ (Reconciler.with_object_id 1 whole_frame_colored)
          (0 + 1280 * (1 # 2)) (0 + 720 * (1 # 2)) 1280 720
          [("classifier", "color")]%string;
        Reconciler.mkObjMeta _ (Reconciler.with_object_id 0 car_object)
          (10 + 100 * (1 # 2)) (20 + 50 * (1 # 2)) 100 50
          [("classifier", "age")]%string]%Q].
Proof.
  refine (proj1 (C7_internal_attributes_are_not_exported
                   untracked_id "frame" _ example_attr example_obj (fun _ _ _ => [])
                   example_elements frame_params_plain one_linked_stream
                   [example_frame; example_frame] _ _)).
  vm_compute. reflexivity.
Defined.

(** ** EOS on the demuxer source pads *)

(** C9, as stated, fails: a stream EOS for index 0 on the pad allocated for
    index 0 meets the condition, yet with no peer on the pad nothing is
    unlinked and no EOS is sent (the event is only dropped); and an event
    whose index names no allocated pad is not passed through:
    [self._demuxer_src_pads[pad_idx]] raises. *)
Lemma C9_matching_pad_without_peer :
  Demuxer._on_demuxer_src_pad_eos 10%nat (Some 0%nat) two_pads
  = Some (two_pads, Pipeline.DROP)
  /\ Demuxer._on_demuxer_src_pad_eos 10%nat (Some 5%nat) two_pads = None.
Proof. split; reflexivity. Qed.

(** C9 (amended): the event is dropped if and only if its parsed index is
    present and the receiving pad is the pad allocated for that index; the
    pad's peer, when it has one, is then unlinked and sent EOS, and with no
    peer nothing else changes. An event whose index cannot be parsed, or
    whose index names another allocated pad, is passed through and changes
    nothing. *)
Theorem C9_demuxer_src_pad_eos :
  forall (pad : Demuxer.Pad) (pad_idx : option nat) (st : Demuxer.State),
    (pad_idx = None ->
     Demuxer._on_demuxer_src_pad_eos pad pad_idx st = Some (st, Pipeline.PASS))
    /\ (forall (i : nat) (allocated : Demuxer.Pad),
          pad_idx = Some i -> Demuxer._demuxer_src_pads st !! i = Some allocated ->
          pad <> allocated ->
          Demuxer._on_demuxer_src_pad_eos pad pad_idx st = Some (st, Pipeline.PASS))
    /\ (forall (i : nat) (peer : Demuxer.Pad),
          pad_idx = Some i -> Demuxer._demuxer_src_pads st !! i = Some pad ->
          Demuxer.links st !! pad = Some peer ->
          Demuxer._on_demuxer_src_pad_eos pad pad_idx st
          = Some (Demuxer.mkState (Demuxer._demuxer_src_pads st)
                    (delete pad (Demuxer.links st))
                    (Demuxer.eos_sent st ++ [peer]),
                  Pipeline.DROP))
    /\ (forall i : nat,
          pad_idx = Some i -> Demuxer._demuxer_src_pads st !! i = Some pad ->
          Demuxer.links st !! pad = None ->
          Demuxer._on_demuxer_src_pad_eos pad pad_idx st = Some (st, Pipeline.DROP))
    /\ (forall st' : Demuxer.State,
          Demuxer._on_demuxer_src_pad_eos pad pad_idx st = Some (st', Pipeline.DROP)
          <-> (exists i : nat,
                  pad_idx = Some i /\ Demuxer._demuxer_src_pads st !! i = Some pad)
              /\ st' = match Demuxer.links st !! pad with
                       | Some peer =>
                           Demuxer.mkState (Demuxer._demuxer_src_pads st)
                             (delete pad (Demuxer.links st))
                             (Demuxer.eos_sent st ++ [peer])
                       | None => st
                       end).
Proof.
  intros pad pad_idx st. unfold Demuxer._on_demuxer_src_pad_eos.
  split; [|split; [|split; [|split]]].
  - by intros ->.
  - intros i q -> Hq Hne. rewrite Hq. by rewrite bool_decide_eq_false_2.
  - intros i peer -> Hq Hp. rewrite Hq, Hp. by rewrite bool_decide_eq_true_2.
  - intros i -> Hq Hp. rewrite Hq, Hp. by rewrite bool_decide_eq_true_2.
  - intros st'. destruct pad_idx as [i|].
    + destruct (Demuxer._demuxer_src_pads st !! i) as [q|] eqn:Hq.
      * case_bool_decide as Hpq; simpl.
        -- subst q. destruct (Demuxer.links st !! pad) as [peer|]; split.
           ++ intros [= <-]. eauto.
           ++ by intros [_ ->].
           ++ intros [= <-]. eauto.
           ++ by intros [_ ->].
        -- split; [done|]. intros [(j & [= <-] & Hj) _]. congruence.
      * split; [done|]. intros [(j & [= <-] & Hj) _]. congruence.
    + split; [done|]. by intros [(j & ? & _) _].
Qed.

Lemma C9_demuxer_src_pad_eos_witness :
  Demuxer._on_demuxer_src_pad_eos 11%nat (Some 1%nat) two_pads
  = Some (Demuxer.mkState [10; 11]%nat (delete 11%nat {[ 11%nat := 21%nat ]}) [21%nat],
          Pipeline.DROP)
  /\ Demuxer._on_demuxer_src_pad_eos 11%nat (Some 0%nat) two_pads
     = Some (two_pads, Pipeline.PASS).
Proof.
  split.
  - exact (proj1 (proj2 (proj2 (C9_demuxer_src_pad_eos 11%nat (Some 1%nat) two_pads)))
             1%nat 21%nat eq_refl eq_refl eq_refl).
  - refine (proj1 (proj2 (C9_demuxer_src_pad_eos 11%nat (Some 0%nat) two_pads))
              0%nat 10%nat eq_refl eq_refl _).
    discriminate.
Defined.

(* ===================================================================== *)
(** * Further properties of the code *)
(* ===================================================================== *)

(** ** Slots and streams over an execution *)

Section Capacity.
Import Pipeline.

(** X1: after any sequence of callbacks from the initial pipeline with [n]
    slots, the free indices and the held indices are [n] together: at most
    [n] streams hold a slot, and when the free list is empty exactly [n]
    do. *)
Theorem X1_held_slots_bounded :
  forall (fl : bool) (n : nat) (o : SourceOutput.t) (se : bool)
         (evs : list Event) (p : NvDsPipeline),
    run fl evs (init n o se) = Some p ->
    (length (free_slots p) + length (held_slots p) = n)%nat
    /\ (length (held_slots p) <= n)%nat
    /\ (free_slots p = [] -> length (held_slots p) = n).
Proof.
  intros fl n o se evs p Hrun.
  pose proof (run_slots_conserved fl n evs _ _ (init_slots_conserved n o se) Hrun)
    as Hc.
  unfold slots_conserved in Hc. apply Permutation_length in Hc.
  rewrite length_app, length_seq in Hc.
  split; [done|]. split; [lia|]. intros Hf. rewrite Hf in Hc. simpl in Hc. done.
Qed.

Lemma X1_held_slots_witness :
  match run false two_streams (init 2 SourceOutput.SourceOutputOnlyMeta true) with
  | Some p => (length (held_slots p) <= 2)%nat
  | None => False
  end.
Proof.
  destruct (run false two_streams _) as [p|] eqn:E.
  - exact (proj1 (proj2 (X1_held_slots_bounded _ _ _ _ _ _ E))).
  - vm_compute in E. discriminate.
Defined.

(** X2: with an empty free list, an iteration of the acquisition loop of
    [_on_source_caps] for a stream without index changes nothing and does
    not fail; once [_remove_output_elements] has released another stream
    that held [i], the next iteration gives that stream exactly [i], and
    the free list is empty again. *)
Theorem X2_exhausted_pool_blocks_until_release :
  forall (p : NvDsPipeline) (r : ref) (s : SourceInfo) (w h : Z) (acc : bool),
    heap p !! r = Some s -> pad_idx s = None -> _free_pad_indices p = [] ->
    _on_source_caps r (Some w) (Some h) acc p = Some p
    /\ forall (r' : ref) (s' : SourceInfo) (i : nat),
        r' <> r -> heap p !! r' = Some s' -> pad_idx s' = Some i ->
        exists p1 p2 : NvDsPipeline,
          _remove_output_elements r' p = Some p1
          /\ _free_pad_indices p1 = [Some i]
          /\ _on_source_caps r (Some w) (Some h) acc p1 = Some p2
          /\ heap p2 !! r = Some (with_pad_idx (Some i) s)
          /\ heap p2 !! r' = Some (released s')
          /\ _free_pad_indices p2 = [].
Proof.
  intros p r s w h acc Hr Hi Hf. split.
  - unfold _on_source_caps. rewrite Hr, Hi. unfold acquire_pad_idx. by rewrite Hf.
  - intros r' s' i Hne Hr' Hi'.
    assert (Hlt : (r < length (heap p))%nat) by (apply lookup_lt_is_Some; eauto).
    assert (Hlt' : (r' < length (heap p))%nat) by (apply lookup_lt_is_Some; eauto).
    eexists _, _. split; [|split; [|split; [|split; [|split]]]].
    + unfold _remove_output_elements. rewrite Hr'. reflexivity.
    + simpl. by rewrite Hf, Hi'.
    + unfold _on_source_caps. simpl.
      rewrite (list_lookup_insert_ne (heap p) r' r) by done.
      unfold ref in *. rewrite Hr, Hi.
      unfold acquire_pad_idx. simpl. rewrite Hf, Hi'. reflexivity.
    + simpl. apply list_lookup_insert_eq. by rewrite length_insert.
    + simpl. rewrite list_lookup_insert_ne by done.
      by apply list_lookup_insert_eq.
    + done.
Qed.

Lemma X2_exhausted_pool_witness :
  _on_source_caps 1%nat (Some 640) (Some 480) true exhausted_pool = Some exhausted_pool
  /\ exists p1 p2 : NvDsPipeline,
      _remove_output_elements 0%nat exhausted_pool = Some p1
      /\ _free_pad_indices p1 = [Some 0%nat]
      /\ _on_source_caps 1%nat (Some 640) (Some 480) true p1 = Some p2
      /\ heap p2 !! 1%nat = Some (with_pad_idx (Some 0%nat) waiting_camera)
      /\ heap p2 !! 0%nat = Some (released linked_camera)
      /\ _free_pad_indices p2 = [].
Proof.
  destruct (X2_exhausted_pool_blocks_until_release
              exhausted_pool 1%nat waiting_camera 640 480 true
              eq_refl eq_refl eq_refl) as [H1 H2].
  split; [exact H1|].
  apply (H2 0%nat linked_camera 0%nat); [discriminate|reflexivity|reflexivity].
Defined.

End Capacity.

(** ** What an execution keeps *)

Section Executions.
Import Pipeline.

Lemma held_slot_lt (n : nat) (p : NvDsPipeline) (r : ref) (s : SourceInfo) (i : nat) :
  slots_conserved n p -> heap p !! r = Some s -> pad_idx s = Some i -> (i < n)%nat.
Proof.
  unfold slots_conserved. intros Hc Hr Hi.
  assert (Hin : i ∈ seq 0 n).
  { rewrite <- Hc. apply elem_of_app. right. apply list_elem_of_omap.
    exists s. split; [|done]. apply list_elem_of_lookup. eauto. }
  apply elem_of_seq in Hin. lia.
Qed.

Lemma dest_resolution_src (o : SourceOutput.t) (s s' : SourceInfo) :
  src_resolution s = src_resolution s' ->
  SourceOutput.dest_resolution o s = SourceOutput.dest_resolution o s'.
Proof.
  intros H. destruct o; simpl;
    unfold SourceOutput.png_dest_resolution, SourceOutput.with_frame_dest_resolution,
      SourceOutput.only_meta_dest_resolution; by rewrite H.
Qed.

(** What [link_source] makes of a record without post-batch elements, and
    what it does to the muxer and to the constants of the pipeline. *)
Lemma link_source_record (r : ref) (s : SourceInfo) (w h : Z) (accepts : bool)
    (p p' : NvDsPipeline) :
  link_source r s w h accepts p = Some p' ->
  after_demuxer s = [] ->
  exists (s' : SourceInfo) (d : Resolution),
    heap p' = <[r := s']> (heap p)
    /\ after_demuxer s' = output_chain (_source_output p)
    /\ pad_idx s' = pad_idx s
    /\ src_resolution s' = Some (mkResolution w h)
    /\ dest_resolution s' = Some d
    /\ SourceOutput.dest_resolution (_source_output p) s' = Some d.
Proof.
  unfold link_source. cbn [after_demuxer with_src_resolution]. intros Hl Ha.
  rewrite Ha in Hl. unfold _add_source_output in Hl.
  destruct (SourceOutput.dest_resolution _ _) as [d|] eqn:Hd; [|done].
  injection Hl as <-. eexists _, d.
  split.
  { unfold _request_muxer_sink_pad. repeat case_match; reflexivity. }
  rewrite <- Hd.
  destruct (_source_output p), accepts; simpl; rewrite ?Ha; repeat split;
    try (symmetry; exact Hd); by apply dest_resolution_src.
Qed.

Lemma link_source_consts (r : ref) (s : SourceInfo) (w h : Z) (accepts : bool)
    (p p' : NvDsPipeline) :
  link_source r s w h accepts p = Some p' ->
  _source_output p' = _source_output p /\ _queue p' = _queue p
  /\ (_muxer_sink_pads p' = _muxer_sink_pads p
      \/ exists i, pad_idx s = Some i
                   /\ _muxer_sink_pads p' = <[i := source_id s]> (_muxer_sink_pads p)).
Proof.
  unfold link_source. intros Hl.
  destruct (match after_demuxer _ with [] => _ | _ => _ end) as [s2|] eqn:Hs2; [|done].
  injection Hl as <-.
  assert (Hp : pad_idx s2 = pad_idx s /\ source_id s2 = source_id s).
  { destruct (after_demuxer (with_src_resolution _ s)).
    - by apply _add_source_output_frame in Hs2 as (? & _ & ? & _).
    - by injection Hs2 as <-. }
  destruct Hp as [Hp Hi].
  destruct (_add_input_converter_frame accepts s2) as (Hp' & _ & Hi' & _).
  unfold _request_muxer_sink_pad. rewrite Hp', Hp, Hi', Hi.
  destruct (pad_idx s) as [i|]; [|by simpl; auto].
  destruct (_ !! i); simpl; repeat split; eauto.
Qed.

(** The store only grows, and a record keeps its stream identifier. *)
Lemma step_source_id (fl : bool) (p p' : NvDsPipeline) (e : Event) (r : ref)
    (s : SourceInfo) :
  step fl p e = Some p' -> heap p !! r = Some s ->
  exists s', heap p' !! r = Some s' /\ source_id s' = source_id s.
Proof.
  intros Hstep Hr.
  assert (Hins : forall (r0 : ref) (s0 s1 : SourceInfo),
             heap p !! r0 = Some s0 -> source_id s1 = source_id s0 ->
             exists s', <[r0 := s1]> (heap p) !! r = Some s'
                        /\ source_id s' = source_id s).
  { intros r0 s0 s1 H0 Hid. destruct (decide (r0 = r)) as [->|Hne].
    - exists s1. split; [|congruence].
      apply list_lookup_insert_eq. apply lookup_lt_is_Some. eauto.
    - exists s. by rewrite list_lookup_insert_ne. }
  destruct e as [caps sid | r0 | r0 w h acc | pad | r0 | ]; simpl in Hstep.
  - injection Hstep as <-. unfold on_source_added.
    destruct (match caps with Some _ => _ | None => _ end); [eauto|].
    destruct (get_source _ _); simpl; [eauto|].
    exists s. split; [|done]. apply lookup_app_l_Some. done.
  - case_bool_decide; [|done]. injection Hstep as <-. unfold wait_release.
    destruct (heap p !! r0) as [s0|] eqn:H0; [|eauto].
    destruct (lock s0); [|eauto]. simpl. by apply (Hins r0 s0).
  - case_bool_decide; [|done]. unfold _on_source_caps in Hstep.
    destruct w as [w|]; [|done]. destruct h as [h|]; [|done].
    destruct (heap p !! r0) as [s0|] eqn:H0; [|done].
    destruct (pad_idx s0) as [i|] eqn:Hi.
    + apply link_source_heap in Hstep as (s' & -> & _ & _ & Hid & _).
      by apply (Hins r0 s0).
    + injection Hstep as <-. unfold acquire_pad_idx.
      destruct (_free_pad_indices p); [eauto|]. simpl. by apply (Hins r0 s0).
  - unfold _on_muxer_sink_pad_eos in Hstep.
    repeat case_match; simplify_eq/=; eauto.
  - destruct (last_pad_live r0 p); [|done]. unfold on_last_pad_eos in Hstep.
    repeat case_match; simplify_eq/=; eauto.
  - unfold run_idle in Hstep. destruct (idle p) as [|t rest]; [done|].
    destruct t as [r0 pad | r0]; simpl in Hstep.
    + unfold _remove_input_elements in Hstep. simpl in Hstep.
      destruct (heap p !! r0) as [s0|] eqn:H0; [|done]. injection Hstep as <-.
      simpl. by apply (Hins r0 s0).
    + unfold _remove_output_elements in Hstep. simpl in Hstep.
      destruct (heap p !! r0) as [s0|] eqn:H0; [|done]. injection Hstep as <-.
      simpl. by apply (Hins r0 s0).
Qed.

Lemma run_source_id (fl : bool) (evs : list Event) :
  forall (p p' : NvDsPipeline) (r : ref) (s : SourceInfo),
    run fl evs p = Some p' -> heap p !! r = Some s ->
    exists s', heap p' !! r = Some s' /\ source_id s' = source_id s.
Proof.
  induction evs as [|e evs IH]; intros p p' r s Hrun Hr; simpl in Hrun.
  - injection Hrun as <-. eauto.
  - destruct (step fl p e) as [p1|] eqn:Hs; [|done].
    destruct (step_source_id _ _ _ _ _ _ Hs Hr) as (s1 & Hr1 & Hid1).
    destruct (IH _ _ _ _ Hrun Hr1) as (s' & Hr' & Hid').
    exists s'. split; [done|congruence].
Qed.

(** What a step does to the output queue and to the constants. *)
Lemma step_queue (fl : bool) (p p' : NvDsPipeline) (e : Event) :
  step fl p e = Some p' ->
  _source_output p' = _source_output p
  /\ match e with
     | LastPadEos r =>
         exists s, heap p !! r = Some s /\ _queue p' = _queue p ++ [source_id s]
     | _ => _queue p' = _queue p
     end.
Proof.
  intros Hstep.
  destruct e as [caps sid | r0 | r0 w h acc | pad | r0 | ]; simpl in Hstep.
  - injection Hstep as <-. unfold on_source_added.
    destruct (match caps with Some _ => _ | None => _ end); [done|].
    by destruct (get_source _ _).
  - case_bool_decide; [|done]. injection Hstep as <-. unfold wait_release.
    destruct (heap p !! r0) as [s0|]; [|done]. by destruct (lock s0).
  - case_bool_decide; [|done]. unfold _on_source_caps in Hstep.
    destruct w as [w|]; [|done]. destruct h as [h|]; [|done].
    destruct (heap p !! r0) as [s0|] eqn:H0; [|done].
    destruct (pad_idx s0) as [i|] eqn:Hi.
    + by apply link_source_consts in Hstep as (? & ? & _).
    + injection Hstep as <-. unfold acquire_pad_idx.
      by destruct (_free_pad_indices p).
  - unfold _on_muxer_sink_pad_eos in Hstep.
    repeat case_match; simplify_eq/=; done.
  - destruct (last_pad_live r0 p); [|done]. unfold on_last_pad_eos in Hstep.
    destruct (heap p !! r0) as [s0|]; [|done]. simpl in Hstep.
    injection Hstep as <-. eauto.
  - unfold run_idle in Hstep. destruct (idle p) as [|t rest]; [done|].
    destruct t as [r0 pad | r0]; simpl in Hstep.
    + unfold _remove_input_elements in Hstep. simpl in Hstep.
      destruct (heap p !! r0) as [s0|]; [|done]. by injection Hstep as <-.
    + unfold _remove_output_elements in Hstep. simpl in Hstep.
      destruct (heap p !! r0) as [s0|]; [|done]. by injection Hstep as <-.
Qed.

Lemma run_source_output (fl : bool) (evs : list Event) :
  forall p p' : NvDsPipeline,
    run fl evs p = Some p' -> _source_output p' = _source_output p.
Proof.
  induction evs as [|e evs IH]; intros p p' Hrun; simpl in Hrun.
  - by injection Hrun as <-.
  - destruct (step fl p e) as [p1|] eqn:Hs; [|done].
    apply step_queue in Hs as [Ho _]. rewrite <- Ho. by apply IH.
Qed.

Lemma linked_inv_store (p p' : NvDsPipeline) (r : ref) (s' : SourceInfo) :
  linked_inv p -> heap p' = <[r := s']> (heap p) ->
  _source_output p' = _source_output p ->
  linked_ok (_source_output p) s' -> linked_inv p'.
Proof.
  intros Hinv Hh Ho Hok r0 s0 H0. rewrite Ho. rewrite Hh in H0.
  destruct (decide (r = r0)) as [->|Hne].
  - apply list_lookup_insert_Some in H0 as [(_ & <- & _)|(? & _)]; done.
  - rewrite list_lookup_insert_ne in H0 by done. by apply (Hinv r0).
Qed.

Lemma step_linked_inv (p p' : NvDsPipeline) (e : Event) :
  gate_inv p -> linked_inv p -> step false p e = Some p' -> linked_inv p'.
Proof.
  intros Hg Hinv Hstep.
  destruct e as [caps sid | r0 | r0 w h acc | pad | r0 | ]; simpl in Hstep.
  - injection Hstep as <-. unfold on_source_added.
    destruct (match caps with Some _ => _ | None => _ end); [done|].
    destruct (get_source _ _); [done|].
    intros r s Hr. simpl in Hr |- *.
    apply lookup_app_Some in Hr as [Hr|[_ Hr]]; [by apply (Hinv r)|].
    apply list_lookup_singleton_Some in Hr as [_ <-]. by intros ?.
  - case_bool_decide; [|done]. injection Hstep as <-. unfold wait_release.
    destruct (heap p !! r0) as [s0|] eqn:H0; [|done].
    destruct (lock s0); [|done].
    eapply (linked_inv_store p _ r0); [done|reflexivity|reflexivity|].
    exact (Hinv _ _ H0).
  - case_bool_decide as Hpr; [|done]. unfold _on_source_caps in Hstep.
    destruct w as [w|]; [|done]. destruct h as [h|]; [|done].
    destruct (heap p !! r0) as [s0|] eqn:H0; [|done].
    destruct (pad_idx s0) as [i|] eqn:Hi.
    + destruct (gi_probe _ _ _ Hg _ _ Hpr H0) as [_ Ha].
      pose proof (link_source_consts _ _ _ _ _ _ _ Hstep) as (Ho & _ & _).
      apply link_source_record in Hstep as (s' & d & Hh & Hc & Hp & Hs & Hd & Hd');
        [|done].
      eapply (linked_inv_store p _ r0); [done|exact Hh|exact Ho|].
      intros _. rewrite Hp, Hi, Hs, Hd, Hd'. eauto.
    + injection Hstep as <-. unfold acquire_pad_idx.
      destruct (_free_pad_indices p) as [|j rest]; [done|].
      eapply (linked_inv_store p _ r0); [done|reflexivity|reflexivity|].
      intros Ha. simpl in Ha. destruct (Hinv _ _ H0 Ha) as (_ & [? Hsome] & _).
      congruence.
  - unfold _on_muxer_sink_pad_eos in Hstep.
    repeat case_match; simplify_eq/=; done.
  - destruct (last_pad_live r0 p); [|done]. unfold on_last_pad_eos in Hstep.
    repeat case_match; simplify_eq/=; done.
  - unfold run_idle in Hstep. destruct (idle p) as [|t rest] eqn:Hidle; [done|].
    assert (Hinv' : linked_inv (set_idle rest p)) by done.
    destruct t as [r0 pad | r0]; simpl in Hstep.
    + unfold _remove_input_elements in Hstep. simpl in Hstep.
      destruct (heap p !! r0) as [s0|] eqn:H0; [|done]. injection Hstep as <-.
      eapply (linked_inv_store (set_idle rest p) _ r0);
        [done|reflexivity|reflexivity|].
      exact (Hinv _ _ H0).
    + unfold _remove_output_elements in Hstep. simpl in Hstep.
      destruct (heap p !! r0) as [s0|] eqn:H0; [|done]. injection Hstep as <-.
      eapply (linked_inv_store (set_idle rest p) _ r0);
        [done|reflexivity|reflexivity|].
      by intros ?.
Qed.

Lemma run_linked_inv (evs : list Event) :
  forall p p' : NvDsPipeline,
    gate_inv p -> linked_inv p -> run false evs p = Some p' -> linked_inv p'.
Proof.
  induction evs as [|e evs IH]; intros p p' Hg Hinv Hrun; simpl in Hrun.
  - by injection Hrun as <-.
  - destruct (step false p e) as [p1|] eqn:Hs; [|done].
    eapply IH; [| |exact Hrun]; eauto using step_gate_inv, step_linked_inv.
Qed.

(** X3: after any sequence of callbacks from the initial pipeline with [n]
    slots and output variant [o], the post-batch elements of a stream are
    either none or the whole chain of [o] (queue, the elements of the
    output, fake sink), never a part of it or more; and a stream that has
    them holds a slot index below [n], has a source resolution, and its
    destination resolution is set to what [o] computes from that source
    resolution, so [update_frame_meta] finds [dest_resolution] set for every
    stream whose frames can reach it. *)
Theorem X3_linked_stream_is_complete :
  forall (n : nat) (o : SourceOutput.t) (se : bool) (evs : list Event)
         (p : NvDsPipeline) (r : ref) (s : SourceInfo),
    run false evs (init n o se) = Some p ->
    heap p !! r = Some s -> after_demuxer s <> [] ->
    after_demuxer s = output_chain o
    /\ (exists i : nat, pad_idx s = Some i /\ (i < n)%nat)
    /\ exists src d : Resolution,
        src_resolution s = Some src /\ dest_resolution s = Some d
        /\ SourceOutput.dest_resolution o s = Some d.
Proof.
  intros n o se evs p r s Hrun Hr Ha.
  assert (Hinit : linked_inv (init n o se)) by (intros r0 s0 H0; done).
  pose proof (run_linked_inv _ _ _ (init_gate_inv n o se) Hinit Hrun) as Hinv.
  pose proof (run_slots_conserved _ n _ _ _ (init_slots_conserved n o se) Hrun) as Hc.
  destruct (Hinv _ _ Hr Ha) as (Hc' & [i Hi] & [src Hs] & [d Hd] & Heq).
  rewrite (run_source_output _ _ _ _ Hrun) in Heq, Hc'.
  split; [exact Hc'|]. split.
  - exists i. split; [done|]. by eapply held_slot_lt.
  - exists src, d. simpl in Heq. rewrite <- Heq. done.
Qed.

Lemma X3_linked_stream_witness :
  match run false two_streams (init 2 SourceOutput.SourceOutputOnlyMeta true) with
  | Some p =>
      match heap p !! 1%nat with
      | Some s => exists i : nat, pad_idx s = Some i /\ (i < 2)%nat
      | None => False
      end
  | None => False
  end.
Proof.
  destruct (run false two_streams _) as [p|] eqn:E; [|vm_compute in E; discriminate].
  destruct (heap p !! 1%nat) as [s|] eqn:Hs.
  - refine (proj1 (proj2 (X3_linked_stream_is_complete _ _ _ _ _ _ _ E Hs _))).
    vm_compute in E. injection E as <-. vm_compute in Hs. injection Hs as <-.
    discriminate.
  - vm_compute in E. injection E as <-. vm_compute in Hs. discriminate.
Defined.

(** X4: over any execution the output queue only grows, by one
    [SinkEndOfStream] message per EOS on the pad of a fake sink, in the order
    of these events, each with the identifier of the stream of that sink. *)
Theorem X4_one_message_per_downstream_eos :
  forall (fl : bool) (evs : list Event) (p p' : NvDsPipeline),
    run fl evs p = Some p' ->
    _queue p' = _queue p ++ omap (eos_message (heap p')) evs
    /\ length (_queue p')
       = (length (_queue p) + length (filter is_last_pad_eos evs))%nat.
Proof.
  intros fl evs. induction evs as [|e evs IH]; intros p p' Hrun; simpl in Hrun.
  - injection Hrun as <-. simpl. rewrite app_nil_r. split; [done|lia].
  - destruct (step fl p e) as [p1|] eqn:Hs; [|done].
    destruct (IH _ _ Hrun) as [Hq Hl].
    pose proof (step_queue _ _ _ _ Hs) as [_ Hq1].
    rewrite filter_cons.
    destruct e as [caps sid | r0 | r0 w h acc | pad | r0 | ];
      try (cbn [omap list_omap eos_message is_last_pad_eos];
           rewrite Hq1 in *; simpl; split; [exact Hq|exact Hl]).
    destruct Hq1 as (s & Hr & Hq1).
    destruct (step_source_id _ _ _ _ _ _ Hs Hr) as (s1 & Hr1 & Hid1).
    destruct (run_source_id _ _ _ _ _ _ Hrun Hr1) as (s' & Hr' & Hid').
    split.
    + rewrite Hq, Hq1, <- app_assoc. f_equal.
      change (omap (eos_message (heap p')) (LastPadEos r0 :: evs))
        with (match eos_message (heap p') (LastPadEos r0) with
              | Some x => x :: omap (eos_message (heap p')) evs
              | None => omap (eos_message (heap p')) evs
              end).
      simpl. rewrite Hr'. simpl. f_equal. congruence.
    + rewrite Hl, Hq1, length_app. simpl. lia.
Qed.

Lemma X4_one_message_witness :
  match run false two_streams (init 2 SourceOutput.SourceOutputOnlyMeta true) with
  | Some p => length (_queue p) = 1%nat
  | None => False
  end.
Proof.
  destruct (run false two_streams _) as [p|] eqn:E; [|vm_compute in E; discriminate].
  exact (proj2 (X4_one_message_per_downstream_eos _ _ _ _ E)).
Defined.

End Executions.

(** ** The free list *)

Section FreeList.
Import Pipeline.

Lemma Forall_is_Some_omap {A : Type} (l : list (option A)) :
  Forall is_Some l -> l = Some <$> omap id l.
Proof.
  induction 1 as [|x l [i ->] _ IH]; [done|]. simpl. f_equal. exact IH.
Qed.

Lemma step_free_indices (p p' : NvDsPipeline) (e : Event) :
  gate_inv p -> linked_inv p -> step false p e = Some p' ->
  Forall is_Some (_free_pad_indices p) -> Forall is_Some (_free_pad_indices p').
Proof.
  intros Hg Hinv Hstep Hf.
  destruct e as [caps sid | r0 | r0 w h acc | pad | r0 | ]; simpl in Hstep.
  - injection Hstep as <-. unfold on_source_added.
    destruct (match caps with Some _ => _ | None => _ end); [done|].
    by destruct (get_source _ _).
  - case_bool_decide; [|done]. injection Hstep as <-. unfold wait_release.
    destruct (heap p !! r0) as [s0|]; [|done]. by destruct (lock s0).
  - case_bool_decide; [|done]. unfold _on_source_caps in Hstep.
    destruct w as [w|]; [|done]. destruct h as [h|]; [|done].
    destruct (heap p !! r0) as [s0|] eqn:H0; [|done].
    destruct (pad_idx s0) as [i|] eqn:Hi.
    + apply link_source_heap in Hstep as (s' & _ & _ & _ & _ & _ & -> & _). done.
    + injection Hstep as <-. unfold acquire_pad_idx.
      destruct (_free_pad_indices p) as [|j rest] eqn:Hfp; [by rewrite Hfp|]. simpl.
      by apply Forall_cons in Hf as [_ ?].
  - unfold _on_muxer_sink_pad_eos in Hstep.
    repeat case_match; simplify_eq/=; done.
  - destruct (last_pad_live r0 p); [|done]. unfold on_last_pad_eos in Hstep.
    repeat case_match; simplify_eq/=; done.
  - unfold run_idle in Hstep. destruct (idle p) as [|t rest] eqn:Hidle; [done|].
    destruct t as [r0 pad | r0]; simpl in Hstep.
    + unfold _remove_input_elements in Hstep. simpl in Hstep.
      destruct (heap p !! r0) as [s0|]; [|done]. by injection Hstep as <-.
    + unfold _remove_output_elements in Hstep. simpl in Hstep.
      destruct (heap p !! r0) as [s0|] eqn:H0; [|done]. injection Hstep as <-.
      simpl. apply Forall_app. split; [done|]. apply Forall_singleton.
      assert (Hin : r0 ∈ out_tasks p).
      { apply elem_of_out_tasks. rewrite Hidle. apply list_elem_of_here. }
      destruct (gi_task _ _ _ Hg _ Hin) as (s1 & H1 & Ha).
      assert (s1 = s0) as -> by congruence.
      by destruct (Hinv _ _ H0 Ha) as (_ & ? & _).
Qed.

(** X5: after any sequence of callbacks from the initial pipeline the free
    list holds slot indices only: [_remove_output_elements] never appends
    the [None] of a stream without slot, because a release is queued only
    for a stream with post-batch elements, which holds a slot until that
    release runs. So [pop(0)] always hands out an index, and the free
    indices and the held ones are [n] in number. *)
Theorem X5_free_list_holds_indices_only :
  forall (n : nat) (o : SourceOutput.t) (se : bool) (evs : list Event)
         (p : NvDsPipeline),
    run false evs (init n o se) = Some p ->
    Forall is_Some (_free_pad_indices p)
    /\ _free_pad_indices p = Some <$> free_slots p
    /\ (length (_free_pad_indices p) + length (held_slots p) = n)%nat.
Proof.
  intros n o se evs p Hrun.
  assert (Hgen : forall q, gate_inv q -> linked_inv q ->
                   Forall is_Some (_free_pad_indices q) ->
                   run false evs q = Some p -> Forall is_Some (_free_pad_indices p)).
  { clear Hrun. induction evs as [|e evs IH]; intros q Hg Hl Hf Hrun; simpl in Hrun.
    - by injection Hrun as <-.
    - destruct (step false q e) as [q1|] eqn:Hs; [|done].
      eapply IH; [| | |exact Hrun];
        eauto using step_gate_inv, step_linked_inv, step_free_indices. }
  assert (Hall : Forall is_Some (_free_pad_indices p)).
  { apply (Hgen (init n o se)); [apply init_gate_inv| | |done].
    - intros r s Hr. done.
    - simpl. apply Forall_fmap, Forall_true. intros i. by eexists. }
  assert (Heq : _free_pad_indices p = Some <$> free_slots p).
  { unfold free_slots. by apply Forall_is_Some_omap. }
  split; [done|]. split; [done|].
  pose proof (run_slots_conserved _ n _ _ _ (init_slots_conserved n o se) Hrun) as Hc.
  unfold slots_conserved in Hc. apply Permutation_length in Hc.
  rewrite length_app, length_seq in Hc. rewrite Heq at 1. by rewrite length_fmap.
Qed.

Lemma X5_free_list_witness :
  match run false two_streams (init 2 SourceOutput.SourceOutputOnlyMeta true) with
  | Some p => Forall is_Some (_free_pad_indices p)
  | None => False
  end.
Proof.
  destruct (run false two_streams _) as [p|] eqn:E; [|vm_compute in E; discriminate].
  exact (proj1 (X5_free_list_holds_indices_only _ _ _ _ _ E)).
Defined.

End FreeList.

(** ** Deferred teardowns and the sink pads of the muxer *)

Section Teardown.
Import Pipeline.

Lemma lookup_insert_out_of_range {A : Type} (l : list A) (i j : nat) (x : A) :
  l !! j = None -> <[i := x]> l !! j = None.
Proof. rewrite !lookup_ge_None, length_insert. done. Qed.

(** X6: the two deferred teardowns commute, for the same stream or for two
    streams, in every state: whichever of [_remove_input_elements] and
    [_remove_output_elements] the main loop runs first, the pipeline ends
    in the same state, and one order raises exactly when the other does. *)
Theorem X6_teardowns_commute :
  forall (r r' : ref) (sink_pad : nat) (p : NvDsPipeline),
    _remove_input_elements r sink_pad p ≫= _remove_output_elements r'
    = _remove_output_elements r' p ≫= _remove_input_elements r sink_pad.
Proof.
  intros r r' i p. unfold _remove_input_elements, _remove_output_elements.
  destruct (heap p !! r) as [s|] eqn:Hr, (heap p !! r') as [s'|] eqn:Hr';
    cbn [mbind option_bind heap store set_heap set_sources set_free_pad_indices
         set_muxer_sink_pads].
  - destruct (decide (r = r')) as [->|Hne].
    + assert (s' = s) as -> by congruence.
      rewrite !list_lookup_insert_eq by (apply lookup_lt_is_Some; eauto).
      unfold store, set_muxer_sink_pads, set_free_pad_indices, set_sources, set_heap.
      simpl. rewrite !list_insert_insert_eq. reflexivity.
    + rewrite !list_lookup_insert_ne by done. unfold ref in *. rewrite Hr, Hr'.
      unfold store, set_muxer_sink_pads, set_free_pad_indices, set_sources, set_heap.
      simpl. rewrite list_insert_insert_ne by done. reflexivity.
  - rewrite lookup_insert_out_of_range by done. reflexivity.
  - rewrite lookup_insert_out_of_range by done. reflexivity.
  - reflexivity.
Qed.

Lemma step_muxer_pads (fl : bool) (p p' : NvDsPipeline) (e : Event) :
  step fl p e = Some p' ->
  _muxer_sink_pads p' = _muxer_sink_pads p
  \/ (exists i, _muxer_sink_pads p' = delete i (_muxer_sink_pads p))
  \/ exists (r : ref) (s : SourceInfo) (i : nat),
      heap p !! r = Some s /\ pad_idx s = Some i
      /\ _muxer_sink_pads p' = <[i := source_id s]> (_muxer_sink_pads p).
Proof.
  intros Hstep.
  destruct e as [caps sid | r0 | r0 w h acc | pad | r0 | ]; simpl in Hstep.
  - injection Hstep as <-. unfold on_source_added. left.
    destruct (match caps with Some _ => _ | None => _ end); [done|].
    by destruct (get_source _ _).
  - case_bool_decide; [|done]. injection Hstep as <-. unfold wait_release. left.
    destruct (heap p !! r0) as [s0|]; [|done]. by destruct (lock s0).
  - case_bool_decide; [|done]. unfold _on_source_caps in Hstep.
    destruct w as [w|]; [|done]. destruct h as [h|]; [|done].
    destruct (heap p !! r0) as [s0|] eqn:H0; [|done].
    destruct (pad_idx s0) as [i|] eqn:Hi.
    + apply link_source_consts in Hstep as (_ & _ & [Hm|(j & Hj & Hm)]); [by left|].
      right. right. exists r0, s0, j. split; [done|]. split; [congruence|done].
    + injection Hstep as <-. unfold acquire_pad_idx. left.
      by destruct (_free_pad_indices p).
  - unfold _on_muxer_sink_pad_eos in Hstep. left.
    repeat case_match; simplify_eq/=; done.
  - destruct (last_pad_live r0 p); [|done]. unfold on_last_pad_eos in Hstep. left.
    repeat case_match; simplify_eq/=; done.
  - unfold run_idle in Hstep. destruct (idle p) as [|t rest]; [done|].
    destruct t as [r0 pad | r0]; simpl in Hstep.
    + unfold _remove_input_elements in Hstep. simpl in Hstep.
      destruct (heap p !! r0) as [s0|]; [|done]. injection Hstep as <-.
      right. left. by exists pad.
    + unfold _remove_output_elements in Hstep. simpl in Hstep.
      destruct (heap p !! r0) as [s0|]; [|done]. injection Hstep as <-. by left.
Qed.

Lemma step_muxer_pads_inv (fl : bool) (n : nat) (p p' : NvDsPipeline) (e : Event) :
  slots_conserved n p -> muxer_pads_inv n p -> step fl p e = Some p' ->
  muxer_pads_inv n p'.
Proof.
  intros Hc Hinv Hstep i sid Hi.
  assert (Hkeep : forall j sid', _muxer_sink_pads p !! j = Some sid' ->
            (j < n)%nat /\ exists r s, heap p' !! r = Some s /\ source_id s = sid').
  { intros j sid' Hj. destruct (Hinv _ _ Hj) as (Hlt & r & s & Hr & Hid).
    split; [done|].
    destruct (step_source_id _ _ _ _ _ _ Hstep Hr) as (s' & Hr' & Hid').
    exists r, s'. split; [done|congruence]. }
  destruct (step_muxer_pads _ _ _ _ Hstep)
    as [Hm|[(j & Hm)|(r & s & j & Hr & Hj & Hm)]]; rewrite Hm in Hi.
  - by apply Hkeep.
  - apply lookup_delete_Some in Hi as [_ Hi]. by apply Hkeep.
  - apply lookup_insert_Some in Hi as [[<- <-]|[_ Hi]]; [|by apply Hkeep].
    split; [by eapply held_slot_lt|].
    destruct (step_source_id _ _ _ _ _ _ Hstep Hr) as (s' & Hr' & Hid').
    by exists r, s'.
Qed.

(** X7: after any sequence of callbacks from the initial pipeline with [n]
    slots the muxer has been asked only for sink pads [sink_i] with
    [i < n], and the EOS probe of each carries the identifier of a stream
    the pipeline has a record of. *)
Theorem X7_muxer_pads_within_capacity :
  forall (fl : bool) (n : nat) (o : SourceOutput.t) (se : bool) (evs : list Event)
         (p : NvDsPipeline) (i : nat) (sid : string),
    run fl evs (init n o se) = Some p ->
    _muxer_sink_pads p !! i = Some sid ->
    (i < n)%nat
    /\ exists (r : ref) (s : SourceInfo), heap p !! r = Some s /\ source_id s = sid.
Proof.
  intros fl n o se evs p i sid Hrun.
  enough (Hinv : muxer_pads_inv n p) by apply Hinv.
  assert (Hgen : forall q, slots_conserved n q -> muxer_pads_inv n q ->
                           run fl evs q = Some p -> muxer_pads_inv n p).
  { clear Hrun. induction evs as [|e evs IH]; intros q Hc Hq Hrun; simpl in Hrun.
    - by injection Hrun as <-.
    - destruct (step fl q e) as [q1|] eqn:Hs; [|done].
      eapply IH; [| |exact Hrun];
        eauto using step_slots_conserved, step_muxer_pads_inv. }
  apply (Hgen (init n o se)); [apply init_slots_conserved| |done].
  intros j sid' Hj. simpl in Hj. by rewrite lookup_empty in Hj.
Qed.

Lemma X7_muxer_pads_witness :
  match run false two_streams (init 2 SourceOutput.SourceOutputOnlyMeta true) with
  | Some p =>
      match _muxer_sink_pads p !! 1%nat with
      | Some sid => (1 < 2)%nat
      | None => False
      end
  | None => False
  end.
Proof.
  destruct (run false two_streams _) as [p|] eqn:E; [|vm_compute in E; discriminate].
  destruct (_muxer_sink_pads p !! 1%nat) as [sid|] eqn:Hs.
  - exact (proj1 (X7_muxer_pads_within_capacity _ _ _ _ _ _ _ _ E Hs)).
  - vm_compute in E. injection E as <-. vm_compute in Hs. discriminate.
Defined.

End Teardown.

(** ** Construction of the pipeline *)

Section Construction.
Import Setup.

(** X8: [__init__] and [_build_buffer_processor] read the same codec and
    agree: the raw buffer processor is built exactly for the outputs that
    append no encoder, with [output_frame] unset exactly for the metadata
    only output, which appends nothing at all; and the encoded buffer
    processor gets the codec whose encoder the output appends first. *)
Theorem X8_source_output_matches_buffer_processor :
  forall (codec_value : Codec -> CodecInfo) (codec : option Codec)
         (frame_params : FrameParameters),
    let o := select_source_output codec_value codec frame_params in
    match _build_buffer_processor codec_value codec with
    | NvDsRawBufferProcessor output_frame =>
        SourceOutput._add_transform_elems o = []
        /\ (output_frame = false <-> o = SourceOutput.SourceOutputOnlyMeta)
        /\ (output_frame = false <-> forall s, SourceOutput.add_output o s = s)
    | NvDsEncodedBufferProcessor info =>
        exists rest, SourceOutput._add_transform_elems o = encoder info :: rest
    end.
Proof.
  intros cv [[| | | |name]|] fp; simpl; eauto.
  - split; [done|]. split; [done|]. split; [done|].
    intros H. specialize (H (mkSourceInfo "" None None None [] [] false)).
    discriminate.
  - by repeat split.
Qed.

(** X9: [_add_source] raises exactly for a [uridecodebin] source without
    [uri]; otherwise EOS suppression is on exactly for [zeromq_source_bin],
    the source is live exactly for a [uridecodebin] with an [rtsp://] URI,
    never both, a queue follows the source exactly when it is live, and so
    the muxer is never created with both [live-source] and
    [drop-pipeline-eos] set. *)
Theorem X9_add_source_flags :
  forall source : SourceElement,
    (_add_source source = None
     <-> element source = "uridecodebin"%string /\ uri source = None)
    /\ forall (suppress_eos live_source : bool) (elems : list Elem),
        _add_source source = Some (suppress_eos, live_source, elems) ->
        (suppress_eos = true <-> element source = "zeromq_source_bin"%string)
        /\ (live_source = true
            <-> element source = "uridecodebin"%string
                /\ exists u, uri source = Some u
                             /\ String.prefix "rtsp://" u = true)
        /\ ~ (suppress_eos = true /\ live_source = true)
        /\ elems = element source :: (if live_source then ["queue"%string] else [])
        /\ forall (NVBUF : Z) (fp : FrameParameters) (batch timeout : Z)
                  (aarch64 : bool),
            let props := frame_processing_parameters NVBUF fp batch timeout
                           live_source suppress_eos aarch64 in
            ~ (("live-source"%string, PBool true) ∈ props
               /\ ("drop-pipeline-eos"%string, PBool true) ∈ props).
Proof.
  intros [el u mps]. unfold _add_source. simpl.
  destruct (String.eqb_spec el "uridecodebin") as [->|Hne]; simpl.
  - destruct u as [u|]; split.
    + split; [done|]. by intros [_ ?].
    + intros se live els [= <- <- <-]. split; [done|]. split.
      { split; [eauto|]. by intros (_ & u' & [= <-] & ?). }
      split; [by intros [? _]|]. split; [by destruct (String.prefix _ _)|].
      intros NV fp b t a [_ H]. unfold frame_processing_parameters in H.
      rewrite elem_of_app in H. destruct H as [H|H].
      * repeat (apply elem_of_cons in H as [H|H]; [discriminate|]).
        by apply not_elem_of_nil in H.
      * destruct a; [by apply not_elem_of_nil in H|].
        apply elem_of_cons in H as [H|H]; [discriminate|].
        by apply not_elem_of_nil in H.
    + done.
    + done.
  - split; [split; [done|by intros [? _]]|].
    intros se live els [= <- <- <-].
    split; [by destruct (String.eqb_spec el "zeromq_source_bin")|].
    split; [split; [done|by intros [? _]]|].
    split; [by intros [_ ?]|]. split; [done|].
    intros NV fp b t a [H _]. unfold frame_processing_parameters in H.
    rewrite elem_of_app in H. destruct H as [H|H].
    * repeat (apply elem_of_cons in H as [H|H]; [discriminate|]).
      by apply not_elem_of_nil in H.
    * destruct a; [by apply not_elem_of_nil in H|].
      apply elem_of_cons in H as [H|H]; [discriminate|].
      by apply not_elem_of_nil in H.
Qed.

Lemma X9_add_source_witness :
  _add_source (mkSourceElement "uridecodebin" None None) = None
  /\ ~ (("live-source"%string, PBool true)
          ∈ frame_processing_parameters 3 frame_params_plain 1 2000 true false false
        /\ ("drop-pipeline-eos"%string, PBool true)
             ∈ frame_processing_parameters 3 frame_params_plain 1 2000 true false false).
Proof.
  split.
  - apply (proj1 (X9_add_source_flags (mkSourceElement "uridecodebin" None None))).
    by split.
  - apply (proj2 (X9_add_source_flags
                    (mkSourceElement "uridecodebin" (Some "rtsp://camera/1"%string)
                       None))
             false true ["uridecodebin"; "queue"]%string eq_refl).
Defined.

(** X10: the properties [_create_muxer] gives to [nvstreammux] have
    pairwise different names (they are the keys of a dictionary); with a
    batch size in the allowed range 1 - 1024 the buffer pool size is in its
    allowed range 4 - 1024 and not below the batch size; and the memory
    type is set exactly off aarch64. *)
Theorem X10_muxer_properties :
  forall (NVBUF : Z) (fp : FrameParameters) (batch timeout : Z)
         (live_source suppress_eos aarch64 : bool),
    let props := frame_processing_parameters NVBUF fp batch timeout
                   live_source suppress_eos aarch64 in
    NoDup props.*1
    /\ (1 <= batch <= 1024 ->
        exists size : Z,
          ("buffer-pool-size"%string, PInt size) ∈ props
          /\ 4 <= size <= 1024 /\ batch <= size)
    /\ ("batch-size"%string, PInt batch) ∈ props
    /\ ("width"%string, PInt (total_width fp)) ∈ props
    /\ ("height"%string, PInt (total_height fp)) ∈ props
    /\ ("nvbuf-memory-type"%string ∈ props.*1 <-> aarch64 = false).
Proof.
  intros NV fp b t live se a. unfold frame_processing_parameters.
  split; [|split; [|split; [|split; [|split]]]].
  - destruct a; simpl; apply (bool_decide_unpack _); vm_compute; reflexivity.
  - intros Hb. exists (Z.max 4 b). split; [|lia].
    apply elem_of_app. left. do 3 apply list_elem_of_further. apply list_elem_of_here.
  - apply elem_of_app. left. do 2 apply list_elem_of_further. apply list_elem_of_here.
  - apply elem_of_app. left. apply list_elem_of_here.
  - apply elem_of_app. left. apply list_elem_of_further. apply list_elem_of_here.
  - destruct a; simpl; split; try done.
    + intros H. repeat (apply elem_of_cons in H as [H|H]; [discriminate|]).
      by apply not_elem_of_nil in H.
    + intros _. do 8 apply list_elem_of_further. apply list_elem_of_here.
Qed.

Lemma X10_muxer_properties_witness :
  exists size : Z,
    ("buffer-pool-size"%string, PInt size)
      ∈ frame_processing_parameters 3 frame_params_plain 1 2000 false true false
    /\ 4 <= size <= 1024 /\ 1 <= size.
Proof.
  apply (proj1 (proj2 (X10_muxer_properties 3 frame_params_plain 1 2000
                         false true false))).
  lia.
Defined.

(** X11: for padded frames the input converter always places the source
    picture inside the padding ([dest-crop]); the output converter cuts the
    same rectangle out again ([src_crop], the same string) exactly when the
    padding is not kept, and then the destination resolution is the source
    resolution; when the padding is kept nothing is cut and the destination
    resolution is the scaled one. Without padding no crop is set. *)
Theorem X11_crop_only_when_padding_is_dropped :
  forall (NVBUF : Z) (fp : FrameParameters) (aarch64 : bool) (s : SourceInfo)
         (src : Resolution),
    src_resolution s = Some src ->
    match padding fp with
    | Some pd =>
        ("dest-crop"%string, PStr (crop_string fp pd))
          ∈ input_converter_props NVBUF fp aarch64
        /\ if keep pd
           then ("src_crop"%string ∉ (output_converter_props NVBUF fp aarch64).*1)
                /\ (fp_width fp <> 0 -> fp_height fp <> 0 ->
                    SourceOutput.with_frame_dest_resolution fp s
                    = Some (mkResolution
                              (res_width src * total_width fp / fp_width fp)
                              (res_height src * total_height fp / fp_height fp)))
           else ("src_crop"%string, PStr (crop_string fp pd))
                  ∈ output_converter_props NVBUF fp aarch64
                /\ SourceOutput.with_frame_dest_resolution fp s = Some src
    | None =>
        ("dest-crop"%string ∉ (input_converter_props NVBUF fp aarch64).*1)
        /\ ("src_crop"%string ∉ (output_converter_props NVBUF fp aarch64).*1)
        /\ SourceOutput.with_frame_dest_resolution fp s = Some src
    end.
Proof.
  intros NV fp a s [w h] Hs.
  unfold input_converter_props, output_converter_props,
    SourceOutput.with_frame_dest_resolution.
  rewrite Hs. cbn [res_width res_height].
  assert (Hno : forall k : string, k <> "nvbuf-memory-type"%string ->
            k ∉ (if a then [] else [("nvbuf-memory-type"%string, PInt NV)]).*1).
  { intros k Hk H. destruct a; simpl in H; [by apply not_elem_of_nil in H|].
    apply elem_of_cons in H as [H|H]; [done|by apply not_elem_of_nil in H]. }
  destruct (padding fp) as [pd|].
  - split; [apply elem_of_app; right; apply list_elem_of_here|].
    destruct (keep pd); simpl.
    + split.
      * rewrite app_nil_r. by apply Hno.
      * intros Hw Hh.
        destruct (Z.eqb_spec (fp_width fp) 0), (Z.eqb_spec (fp_height fp) 0); done.
    + split; [apply elem_of_app; right; apply list_elem_of_here|done].
  - rewrite !app_nil_r. split; [by apply Hno|]. split; [by apply Hno|done].
Qed.

Lemma X11_crop_witness :
  ("src_crop"%string, PStr "10:20:1280:720")
    ∈ output_converter_props 3 frame_params_crop false
  /\ SourceOutput.with_frame_dest_resolution frame_params_crop source_101x202
     = Some (mkResolution 101 202).
Proof.
  pose proof (X11_crop_only_when_padding_is_dropped 3 frame_params_crop false
                source_101x202 (mkResolution 101 202) eq_refl) as [_ H].
  exact H.
Defined.

(** X12: pad names tell slots apart. The muxer sink pads of two slot
    indices have the same name only if the indices are equal;
    [_allocate_demuxer_pads] requests [n_pads] source pads with pairwise
    different names, the [k]-th being [src_k]. *)
Theorem X12_pad_names_identify_slots :
  (forall i j : nat, sink_pad_name i = sink_pad_name j -> i = j)
  /\ forall n_pads : nat,
      length (_allocate_demuxer_pads n_pads) = n_pads
      /\ NoDup (_allocate_demuxer_pads n_pads)
      /\ forall k : nat, (k < n_pads)%nat ->
           _allocate_demuxer_pads n_pads !! k = Some ("src_" +:+ pretty k).
Proof.
  split.
  - intros i j H. unfold sink_pad_name in H. simpl in H.
    injection H as H. simpl in H. exact (pretty_nat_inj _ _ H).
  - intros n. unfold _allocate_demuxer_pads. split; [|split].
    + by rewrite length_fmap, length_seq.
    + apply NoDup_fmap_2; [|apply NoDup_seq].
      intros a b H. simpl in H. injection H as H. simpl in H.
      exact (pretty_nat_inj _ _ H).
    + intros k Hk. rewrite list_lookup_fmap, lookup_seq_lt by done. reflexivity.
Qed.

Lemma X12_pad_names_witness :
  _allocate_demuxer_pads 3 !! 2%nat = Some "src_2"%string.
Proof.
  refine (proj2 (proj2 (proj2 X12_pad_names_identify_slots 3%nat)) 2%nat _). lia.
Defined.

End Construction.

(** ** EOS on the demuxer source pads *)

Section DemuxerEos.
Import Demuxer.

(** X13: a stream EOS that the probe has handled is handled once: the
    same event on the same pad, delivered again, gives the same answer and
    changes nothing more (the pad is unlinked already, no second EOS is
    sent). The probe never touches the allocated pads, only removes links,
    sends at most one EOS, and changes nothing when it answers PASS. *)
Theorem X13_demuxer_eos_is_idempotent :
  forall (pad : Pad) (pad_idx : option nat) (st st' : State)
         (ret : Pipeline.PadProbeReturn),
    _on_demuxer_src_pad_eos pad pad_idx st = Some (st', ret) ->
    _on_demuxer_src_pad_eos pad pad_idx st' = Some (st', ret)
    /\ _demuxer_src_pads st' = _demuxer_src_pads st
    /\ links st' ⊆ links st
    /\ (ret = Pipeline.PASS \/ ret = Pipeline.DROP)
    /\ (ret = Pipeline.PASS -> st' = st)
    /\ exists sent : list Pad,
        eos_sent st' = eos_sent st ++ sent /\ (length sent <= 1)%nat.
Proof.
  intros pad idx st st' ret H.
  assert (Hsame : forall r, r = Pipeline.PASS \/ r = Pipeline.DROP ->
            _on_demuxer_src_pad_eos pad idx st = Some (st, r) ->
            _on_demuxer_src_pad_eos pad idx st = Some (st, r)
            /\ _demuxer_src_pads st = _demuxer_src_pads st
            /\ links st ⊆ links st
            /\ (r = Pipeline.PASS \/ r = Pipeline.DROP)
            /\ (r = Pipeline.PASS -> st = st)
            /\ exists sent : list Pad,
                eos_sent st = eos_sent st ++ sent /\ (length sent <= 1)%nat).
  { intros r Hr Hf. do 5 (split; [done|]). exists []. rewrite app_nil_r. simpl. auto. }
  pose proof H as H0. unfold _on_demuxer_src_pad_eos in H.
  destruct idx as [i|].
  2:{ injection H as <- <-. apply Hsame; auto. }
  destruct (_demuxer_src_pads st !! i) as [allocated|] eqn:Hi; [|done].
  destruct (negb (bool_decide (pad = allocated))) eqn:Hb.
  { injection H as <- <-. apply Hsame; auto. }
  destruct (links st !! pad) as [peer|] eqn:Hl; injection H as <- <-.
  - unfold _on_demuxer_src_pad_eos.
    cbn [_demuxer_src_pads links eos_sent]. rewrite Hi, Hb, lookup_delete_eq.
    split; [done|]. split; [done|]. split; [apply delete_subseteq|].
    split; [auto|]. split; [discriminate|]. exists [peer]. simpl. auto.
  - apply Hsame; auto.
Qed.

Lemma X13_demuxer_eos_witness :
  _on_demuxer_src_pad_eos 11%nat (Some 1%nat)
    (mkState [10; 11]%nat (delete 11%nat {[ 11%nat := 21%nat ]}) [21%nat])
  = Some (mkState [10; 11]%nat (delete 11%nat {[ 11%nat := 21%nat ]}) [21%nat],
          Pipeline.DROP).
Proof.
  refine (proj1 (X13_demuxer_eos_is_idempotent 11%nat (Some 1%nat) two_pads _ _ _)).
  reflexivity.
Defined.

(** X14: the probe raises ([IndexError]) exactly when the event names a
    stream index that is not below the number of allocated source pads; an
    event without stream index never raises. *)
Theorem X14_demuxer_eos_raises_iff_out_of_range :
  forall (pad : Pad) (pad_idx : option nat) (st : State),
    _on_demuxer_src_pad_eos pad pad_idx st = None
    <-> exists i : nat, pad_idx = Some i /\ (length (_demuxer_src_pads st) <= i)%nat.
Proof.
  intros pad idx st. unfold _on_demuxer_src_pad_eos. split.
  - destruct idx as [i|]; [|done].
    destruct (_demuxer_src_pads st !! i) eqn:Hi.
    + by repeat case_match.
    + intros _. exists i. split; [done|]. by apply lookup_ge_None.
  - intros (i & -> & Hi). apply lookup_ge_None in Hi. by rewrite Hi.
Qed.

(** X15: nvstreamdemux hands a stream EOS to the probe of every source
    pad. For the event of stream [i] over the allocated pads, which are
    pairwise different, the delivery does not raise, exactly the probe of
    the [i]-th pad answers DROP and all others PASS, and the only change is
    that the [i]-th pad is unlinked and its peer, if any, sent EOS: the
    other streams keep their links. *)
Theorem X15_stream_eos_detaches_one_pad :
  forall (st : State) (i : nat) (pad : Pad),
    NoDup (_demuxer_src_pads st) ->
    _demuxer_src_pads st !! i = Some pad ->
    Broadcast.deliver (_demuxer_src_pads st) (Some i) st
    = Some (detached pad st,
            (fun q => if bool_decide (q = pad) then Pipeline.DROP else Pipeline.PASS)
              <$> _demuxer_src_pads st)
    /\ (forall q : Pad, q <> pad -> links (detached pad st) !! q = links st !! q)
    /\ links (detached pad st) !! pad = None.
Proof.
  intros st i pad Hnd Hi.
  assert (Hgen : forall (pads : list Pad) (st0 : State),
             _demuxer_src_pads st0 !! i = Some pad -> NoDup pads ->
             Broadcast.deliver pads (Some i) st0
             = Some (if bool_decide (pad ∈ pads) then detached pad st0 else st0,
                     (fun q => if bool_decide (q = pad)
                               then Pipeline.DROP else Pipeline.PASS) <$> pads)).
  { clear. induction pads as [|q pads IH]; intros st0 H0 Hnd; [done|].
    apply NoDup_cons in Hnd as [Hq Hnd].
    cbn [Broadcast.deliver]. unfold _on_demuxer_src_pad_eos. rewrite H0.
    destruct (decide (q = pad)) as [->|Hne].
    - rewrite bool_decide_eq_true_2 by done. cbn [negb].
      assert (Hd : _demuxer_src_pads (detached pad st0) !! i = Some pad).
      { unfold detached. by destruct (links st0 !! pad). }
      pose proof (IH (detached pad st0) Hd Hnd) as IH'.
      rewrite (bool_decide_eq_false_2 (pad ∈ pads)) in IH' by done.
      rewrite (bool_decide_eq_true_2 (pad ∈ pad :: pads)) by apply list_elem_of_here.
      unfold detached in *. destruct (links st0 !! pad) as [peer|].
      + rewrite IH'. cbn [fmap list_fmap].
        by rewrite bool_decide_eq_true_2.
      + rewrite IH'. cbn [fmap list_fmap].
        by rewrite bool_decide_eq_true_2.
    - rewrite (bool_decide_eq_false_2 (q = pad)) by done. cbn [negb].
      rewrite (IH st0 H0 Hnd). cbn [fmap list_fmap].
      rewrite (bool_decide_eq_false_2 (q = pad)) by done.
      do 2 f_equal.
      destruct (decide (pad ∈ pads)) as [Hin|Hout].
      + rewrite !bool_decide_eq_true_2; [done| |done].
        by apply list_elem_of_further.
      + rewrite !bool_decide_eq_false_2; [done| |done].
        intros Hin%elem_of_cons. destruct Hin as [->|Hin]; done. }
  split; [|split].
  - rewrite (Hgen _ st Hi Hnd). rewrite bool_decide_eq_true_2; [done|].
    apply list_elem_of_lookup. eauto.
  - intros q Hq. unfold detached. destruct (links st !! pad); [|done].
    cbn [links]. by rewrite lookup_delete_ne.
  - unfold detached. destruct (links st !! pad) eqn:Hl; [|done].
    cbn [links]. by rewrite lookup_delete_eq.
Qed.

Lemma X15_stream_eos_witness :
  Broadcast.deliver [10; 11; 12]%nat (Some 1%nat) three_pads
  = Some (detached 11%nat three_pads, [Pipeline.PASS; Pipeline.DROP; Pipeline.PASS]).
Proof.
  refine (proj1 (X15_stream_eos_detaches_one_pad three_pads 1%nat 11%nat _ _)).
  - apply (bool_decide_unpack _). vm_compute. reflexivity.
  - reflexivity.
Defined.

End DemuxerEos.

(** ** Per-batch metadata: errors, order and identities *)

Section Batches.
Import Reconciler.
Variable UNTRACKED_OBJECT_ID : Z.
Variable PRIMARY_OBJECT_LABEL : string.
Variable OutAttr : Type.
Variable attr_converter : AttributeMeta -> OutAttr.
Variable obj_converter :
  NvDsObjectMeta -> FrameParameters -> option Resolution -> ObjMeta OutAttr.
Variable get_source_frame_meta : string -> option Z -> Z -> list (ObjMeta OutAttr).
Variable frame_params : FrameParameters.
Variable _internal_attrs : gset (string * string).

Lemma correct_object_ids_same (l : list NvDsObjectMeta) :
  Forall (fun o => object_id o <> UNTRACKED_OBJECT_ID) l ->
  forall m, correct_object_ids UNTRACKED_OBJECT_ID m l = l.
Proof.
  induction 1 as [|o l Ho _ IH]; intros m; simpl; [done|].
  destruct (Z.eqb_spec (object_id o) UNTRACKED_OBJECT_ID); [done|].
  by rewrite IH.
Qed.

Lemma correct_object_ids_labels (l : list NvDsObjectMeta) :
  forall m,
    obj_label <$> correct_object_ids UNTRACKED_OBJECT_ID m l = obj_label <$> l.
Proof.
  induction l as [|o l IH]; intros m; simpl; [done|].
  destruct (object_id o =? UNTRACKED_OBJECT_ID); simpl; f_equal; apply IH.
Qed.

Lemma untracked_before_app (l1 l2 : list NvDsObjectMeta) (label : string) :
  untracked_before UNTRACKED_OBJECT_ID (l1 ++ l2) label
  = untracked_before UNTRACKED_OBJECT_ID l1 label
    + untracked_before UNTRACKED_OBJECT_ID l2 label.
Proof. unfold untracked_before. rewrite filter_app, length_app. lia. Qed.

Lemma untracked_before_bounds (l : list NvDsObjectMeta) (label : string) :
  0 <= untracked_before UNTRACKED_OBJECT_ID l label <= Z.of_nat (length l).
Proof.
  unfold untracked_before.
  pose proof (length_filter
                (fun o => object_id o = UNTRACKED_OBJECT_ID /\ obj_label o = label) l).
  lia.
Qed.

Lemma collect_objects_no_primary (dest : option Resolution)
    (objs : list NvDsObjectMeta) :
  Forall (fun o => obj_label o <> PRIMARY_OBJECT_LABEL) objs ->
  forall objects : list (ObjMeta OutAttr),
    collect_objects PRIMARY_OBJECT_LABEL OutAttr attr_converter obj_converter
      frame_params _internal_attrs dest objs objects
    = Some (objects
              ++ (output_record OutAttr attr_converter obj_converter frame_params
                    _internal_attrs dest <$> objs)).
Proof.
  induction 1 as [|o objs Ho _ IH]; intros objects; simpl.
  - by rewrite app_nil_r.
  - destruct (String.eqb_spec (obj_label o) PRIMARY_OBJECT_LABEL); [done|].
    rewrite IH, collect_attributes_output_record, <- app_assoc. reflexivity.
Qed.

Lemma collect_objects_none (objs : list NvDsObjectMeta) :
  forall objects : list (ObjMeta OutAttr),
    collect_objects PRIMARY_OBJECT_LABEL OutAttr attr_converter obj_converter
      frame_params _internal_attrs None objs objects = None
    <-> Exists (fun o => obj_label o = PRIMARY_OBJECT_LABEL) objs.
Proof.
  induction objs as [|o objs IH]; intros objects; simpl.
  - split; [done|]. by intros ?%Exists_nil.
  - rewrite Exists_cons.
    destruct (String.eqb_spec (obj_label o) PRIMARY_OBJECT_LABEL) as [He|Hne].
    + split; auto.
    + rewrite IH. split; [auto|]. by intros [?|?].
Qed.

Lemma Exists_label_corrected (l : list NvDsObjectMeta) (m : gmap string Z)
    (P : string -> Prop) :
  Exists (fun o => P (obj_label o)) (correct_object_ids UNTRACKED_OBJECT_ID m l)
  <-> Exists (fun o => P (obj_label o)) l.
Proof.
  rewrite <- !(Exists_fmap obj_label P). by rewrite correct_object_ids_labels.
Qed.

Lemma Forall_label_corrected (l : list NvDsObjectMeta) (m : gmap string Z)
    (P : string -> Prop) :
  Forall (fun o => P (obj_label o)) (correct_object_ids UNTRACKED_OBJECT_ID m l)
  <-> Forall (fun o => P (obj_label o)) l.
Proof.
  rewrite <- !(Forall_fmap obj_label P). by rewrite correct_object_ids_labels.
Qed.

Lemma update_frame_keys (p : Pipeline.NvDsPipeline) (frame : NvDsFrameMeta)
    (out : FrameOutput OutAttr) :
  update_frame UNTRACKED_OBJECT_ID PRIMARY_OBJECT_LABEL OutAttr attr_converter
    obj_converter get_source_frame_meta frame_params _internal_attrs p frame
  = Some out ->
  Pipeline.get_id_by_pad_index (Pipeline._sources p) (pad_index frame)
  = Some (fo_source_id OutAttr out)
  /\ fo_frame_idx OutAttr out = savant_idx frame
  /\ fo_frame_pts OutAttr out = buf_pts frame.
Proof.
  unfold update_frame. intros H.
  destruct (Pipeline.get_id_by_pad_index _ _) as [sid|]; [|done].
  destruct (Pipeline.get_source _ _) as [r|]; [|done].
  destruct (Pipeline.heap p !! r) as [s|]; [|done].
  destruct (collect_objects _ _ _ _ _ _ _ _ _); [|done].
  by injection H as <-.
Qed.

Lemma update_frame_meta_mapM (p : Pipeline.NvDsPipeline) (batch : list NvDsFrameMeta) :
  update_frame_meta UNTRACKED_OBJECT_ID PRIMARY_OBJECT_LABEL OutAttr attr_converter
    obj_converter get_source_frame_meta frame_params _internal_attrs p batch
  = mapM (update_frame UNTRACKED_OBJECT_ID PRIMARY_OBJECT_LABEL OutAttr
            attr_converter obj_converter get_source_frame_meta frame_params
            _internal_attrs p) batch.
Proof.
  induction batch as [|frame batch IH]; [done|].
  cbn [update_frame_meta mapM]. rewrite IH.
  destruct (update_frame _ _ _ _ _ _ _ _ _ frame); [|done]. simpl.
  by destruct (mapM _ batch).
Qed.

End Batches.

(** X16: [update_frame_meta] raises exactly when the body of its loop
    raises for a frame of the batch; otherwise it stores one record per
    frame, in the order of the batch, each under the stream identifier the
    registry has for the pad index of the frame, with the index and the
    timestamp of the frame. *)
Theorem X16_one_record_per_frame_in_order :
  forall (UNTRACKED_OBJECT_ID : Z) (PRIMARY_OBJECT_LABEL : string) (OutAttr : Type)
         (attr_converter : Reconciler.AttributeMeta -> OutAttr)
         (obj_converter : Reconciler.NvDsObjectMeta -> FrameParameters ->
                          option Resolution -> Reconciler.ObjMeta OutAttr)
         (get_source_frame_meta :
            string -> option Z -> Z -> list (Reconciler.ObjMeta OutAttr))
         (frame_params : FrameParameters) (_internal_attrs : gset (string * string))
         (p : Pipeline.NvDsPipeline) (batch : list Reconciler.NvDsFrameMeta),
    let frame_output :=
      Reconciler.update_frame UNTRACKED_OBJECT_ID PRIMARY_OBJECT_LABEL OutAttr
        attr_converter obj_converter get_source_frame_meta frame_params
        _internal_attrs p in
    let batch_output :=
      Reconciler.update_frame_meta UNTRACKED_OBJECT_ID PRIMARY_OBJECT_LABEL OutAttr
        attr_converter obj_converter get_source_frame_meta frame_params
        _internal_attrs p batch in
    (batch_output = None <-> Exists (fun frame => frame_output frame = None) batch)
    /\ forall outs : list (Reconciler.FrameOutput OutAttr),
        batch_output = Some outs ->
        Forall2
          (fun frame out =>
             frame_output frame = Some out
             /\ Pipeline.get_id_by_pad_index (Pipeline._sources p)
                  (Reconciler.pad_index frame)
                = Some (Reconciler.fo_source_id OutAttr out)
             /\ Reconciler.fo_frame_idx OutAttr out = Reconciler.savant_idx frame
             /\ Reconciler.fo_frame_pts OutAttr out = Reconciler.buf_pts frame)
          batch outs.
Proof.
  intros U P OutAttr ac oc gs fp ia p batch frame_output batch_output.
  subst frame_output batch_output. rewrite update_frame_meta_mapM. split.
  - apply mapM_None.
  - intros outs H. apply mapM_Some in H.
    eapply Forall2_impl; [exact H|]. intros frame out Hf. split; [done|].
    by apply update_frame_keys in Hf.
Qed.

Lemma X16_one_record_witness :
  Forall2
    (fun frame out =>
       Pipeline.get_id_by_pad_index (Pipeline._sources one_linked_stream)
         (Reconciler.pad_index frame)
       = Some (Reconciler.fo_source_id _ out)
       /\ Reconciler.fo_frame_pts _ out = Reconciler.buf_pts frame)
    [example_frame; cars_only_frame]
    [Reconciler.mkFrameOutput _ "camera1" (Some 7) 40
       [Reconciler.mkObjMeta _ (Reconciler.with_object_id 1 whole_frame_colored)
          (0 + 1280 * (1 # 2)) (0 + 720 * (1 # 2)) 1280 720
          [("classifier", "color")]%string;
        Reconciler.mkObjMeta _ (Reconciler.with_object_id 0 car_object)
          (10 + 100 * (1 # 2)) (20 + 50 * (1 # 2)) 100 50
          [("classifier", "age")]%string]%Q;
     Reconciler.mkFrameOutput _ "camera1" (Some 8) 80
       (Reconciler.output_record _ example_attr example_obj frame_params_plain
          (Reconciler.add_elements example_elements) (Some (mkResolution 1280 720))
        <$> Reconciler.correct_object_ids untracked_id ∅ cars_frame)].
Proof.
  eapply Forall2_impl.
  - apply (proj2 (X16_one_record_per_frame_in_order untracked_id "frame" _
                    example_attr example_obj (fun _ _ _ => []) frame_params_plain
                    (Reconciler.add_elements example_elements) one_linked_stream
                    [example_frame; cars_only_frame])).
    vm_compute. reflexivity.
  - intros frame out (_ & H1 & _ & H2). by split.
Defined.

(** X17: within a frame the fallback identities of a label are handed out
    in increasing order: of two untracked objects with the same label the
    later one gets the larger identity, so no two of them share one; and an
    identity given at position [j] is at most [j]. *)
Theorem X17_fallback_ids_increase :
  forall (UNTRACKED_OBJECT_ID : Z) (objs : list Reconciler.NvDsObjectMeta)
         (i j : nat) (oi oj : Reconciler.NvDsObjectMeta),
    (i < j)%nat -> objs !! i = Some oi -> objs !! j = Some oj ->
    Reconciler.object_id oi = UNTRACKED_OBJECT_ID ->
    Reconciler.object_id oj = UNTRACKED_OBJECT_ID ->
    Reconciler.obj_label oi = Reconciler.obj_label oj ->
    exists a b : Z,
      Reconciler.correct_object_ids UNTRACKED_OBJECT_ID ∅ objs !! i
      = Some (Reconciler.with_object_id a oi)
      /\ Reconciler.correct_object_ids UNTRACKED_OBJECT_ID ∅ objs !! j
         = Some (Reconciler.with_object_id b oj)
      /\ 0 <= a /\ a < b /\ b <= Z.of_nat j.
Proof.
  intros U objs i j oi oj Hij Hi Hj Hui Huj Hl.
  pose proof (correct_object_ids_lookup U objs ∅ i oi Hi) as Ei.
  pose proof (correct_object_ids_lookup U objs ∅ j oj Hj) as Ej.
  rewrite Hui, Z.eqb_refl, lookup_empty in Ei.
  rewrite Huj, Z.eqb_refl, lookup_empty in Ej. simpl in Ei, Ej.
  eexists _, _. split; [exact Ei|]. split; [exact Ej|].
  assert (Hsplit : take j objs = take i objs ++ oi :: drop (S i) (take j objs)).
  { assert (Hmid : take j objs !! i = Some oi) by (by rewrite lookup_take_lt).
    apply take_drop_middle in Hmid.
    rewrite take_take, Nat.min_l in Hmid by lia. done. }
  rewrite Hsplit, !untracked_before_app, <- Hl.
  change (oi :: drop (S i) (take j objs)) with ([oi] ++ drop (S i) (take j objs)).
  rewrite untracked_before_app.
  assert (H1 : Reconciler.untracked_before U [oi] (Reconciler.obj_label oi) = 1).
  { unfold Reconciler.untracked_before. by rewrite filter_cons_True. }
  pose proof (untracked_before_bounds U (take i objs) (Reconciler.obj_label oi)) as B1.
  pose proof (untracked_before_bounds U (drop (S i) (take j objs))
                (Reconciler.obj_label oi)) as B2.
  rewrite length_take in B1.
  rewrite length_drop, length_take in B2.
  apply lookup_lt_Some in Hj. lia.
Qed.

Lemma X17_fallback_ids_witness :
  exists a b : Z,
    Reconciler.correct_object_ids untracked_id ∅ cars_frame !! 1%nat
    = Some (Reconciler.with_object_id a
              (Reconciler.mkNvDsObjectMeta untracked_id "car" (5, 5, 10, 10)%Q []))
    /\ Reconciler.correct_object_ids untracked_id ∅ cars_frame !! 4%nat
       = Some (Reconciler.with_object_id b
                 (Reconciler.mkNvDsObjectMeta untracked_id "car" (7, 7, 10, 10)%Q []))
    /\ 0 <= a /\ a < b /\ b <= 4.
Proof.
  apply (X17_fallback_ids_increase untracked_id cars_frame 1 4); first [lia | reflexivity].
Defined.

(** X18: when the untracked identity is not a number from 0 up to the
    number of objects of the frame (it is 2^64 - 1 in DeepStream), no
    object carries it after the correction, and correcting the corrected
    objects again changes nothing. *)
Theorem X18_correction_is_idempotent :
  forall (UNTRACKED_OBJECT_ID : Z) (objs : list Reconciler.NvDsObjectMeta),
    UNTRACKED_OBJECT_ID < 0 \/ Z.of_nat (length objs) <= UNTRACKED_OBJECT_ID ->
    Forall (fun o => Reconciler.object_id o <> UNTRACKED_OBJECT_ID)
           (Reconciler.correct_object_ids UNTRACKED_OBJECT_ID ∅ objs)
    /\ Reconciler.correct_object_ids UNTRACKED_OBJECT_ID ∅
         (Reconciler.correct_object_ids UNTRACKED_OBJECT_ID ∅ objs)
       = Reconciler.correct_object_ids UNTRACKED_OBJECT_ID ∅ objs.
Proof.
  intros U objs HU.
  assert (Hall : Forall (fun o => Reconciler.object_id o <> U)
                        (Reconciler.correct_object_ids U ∅ objs)).
  { apply Forall_lookup. intros k o' Hk.
    assert (Hlt : (k < length objs)%nat).
    { rewrite <- (correct_object_ids_length U ∅). by apply lookup_lt_Some in Hk. }
    destruct (lookup_lt_is_Some_2 _ _ Hlt) as [o Ho].
    rewrite (correct_object_ids_lookup U objs ∅ k o Ho) in Hk.
    injection Hk as <-.
    destruct (Z.eqb_spec (Reconciler.object_id o) U) as [He|Hne]; [|done].
    rewrite lookup_empty. simpl.
    pose proof (untracked_before_bounds U (take k objs) (Reconciler.obj_label o)) as B.
    rewrite length_take in B. lia. }
  split; [done|]. by apply correct_object_ids_same.
Qed.

Lemma X18_correction_witness :
  Reconciler.correct_object_ids untracked_id ∅
    (Reconciler.correct_object_ids untracked_id ∅ cars_frame)
  = Reconciler.correct_object_ids untracked_id ∅ cars_frame.
Proof.
  apply (X18_correction_is_idempotent untracked_id cars_frame).
  right. vm_compute. discriminate.
Defined.

(** X19: the body of the loop of [update_frame_meta] raises for a frame
    exactly when the registry does not lead from the pad index of the frame
    to a stream record, or that record has no destination resolution while
    the frame has an object with the primary label (the only objects the
    resolution is read for). A frame without such an object loses none of
    its objects: the records of all of them are appended, in order. *)
Theorem X19_frame_raises_iff_primary_without_resolution :
  forall (UNTRACKED_OBJECT_ID : Z) (PRIMARY_OBJECT_LABEL : string) (OutAttr : Type)
         (attr_converter : Reconciler.AttributeMeta -> OutAttr)
         (obj_converter : Reconciler.NvDsObjectMeta -> FrameParameters ->
                          option Resolution -> Reconciler.ObjMeta OutAttr)
         (get_source_frame_meta :
            string -> option Z -> Z -> list (Reconciler.ObjMeta OutAttr))
         (frame_params : FrameParameters) (_internal_attrs : gset (string * string))
         (p : Pipeline.NvDsPipeline) (frame : Reconciler.NvDsFrameMeta),
    let frame_output :=
      Reconciler.update_frame UNTRACKED_OBJECT_ID PRIMARY_OBJECT_LABEL OutAttr
        attr_converter obj_converter get_source_frame_meta frame_params
        _internal_attrs p frame in
    (frame_output = None
     <-> match frame_stream p frame with
         | None => True
         | Some source_info =>
             dest_resolution source_info = None
             /\ Exists (fun o => Reconciler.obj_label o = PRIMARY_OBJECT_LABEL)
                       (Reconciler.objects frame)
         end)
    /\ forall source_info : SourceInfo,
        frame_stream p frame = Some source_info ->
        Forall (fun o => Reconciler.obj_label o <> PRIMARY_OBJECT_LABEL)
               (Reconciler.objects frame) ->
        exists sid : string,
          frame_output
          = Some (Reconciler.mkFrameOutput OutAttr sid (Reconciler.savant_idx frame)
                    (Reconciler.buf_pts frame)
                    (get_source_frame_meta sid (Reconciler.savant_idx frame)
                       (Reconciler.buf_pts frame)
                     ++ (Reconciler.output_record OutAttr attr_converter obj_converter
                           frame_params _internal_attrs (dest_resolution source_info)
                         <$> Reconciler.correct_object_ids UNTRACKED_OBJECT_ID ∅
                               (Reconciler.objects frame)))).
Proof.
  intros U P OutAttr ac oc gs fp ia p frame frame_output. subst frame_output.
  unfold Reconciler.update_frame, frame_stream.
  destruct (Pipeline.get_id_by_pad_index _ _) as [sid|]; [|by split].
  destruct (Pipeline.get_source _ _) as [r|]; [|by split].
  destruct (Pipeline.heap p !! r) as [s|]; [|by split].
  split.
  - destruct (dest_resolution s) as [d|] eqn:Hd.
    + rewrite collect_objects_spec. split; [done|]. by intros [? _].
    + destruct (Reconciler.collect_objects _ _ _ _ _ _ _ _ _) as [out|] eqn:Hc.
      * split; [done|]. intros [_ Hex].
        apply (Exists_label_corrected U _ ∅ (fun l => l = P)) in Hex.
        by rewrite (proj2 (collect_objects_none P OutAttr ac oc fp ia _ _) Hex) in Hc.
      * split; [|done]. intros _. split; [done|].
        apply collect_objects_none in Hc.
        exact (proj1 (Exists_label_corrected U _ ∅ (fun l => l = P)) Hc).
  - intros s' [= <-] Hall. exists sid.
    apply (Forall_label_corrected U _ ∅ (fun l => l <> P)) in Hall.
    by rewrite (collect_objects_no_primary P OutAttr ac oc fp ia _ _ Hall).
Qed.

Lemma X19_frame_raises_witness :
  exists sid : string,
    Reconciler.update_frame untracked_id "frame" _ example_attr example_obj
      (fun _ _ _ => []) frame_params_plain
      (Reconciler.add_elements example_elements) one_linked_stream cars_only_frame
    = Some (Reconciler.mkFrameOutput _ sid (Some 8) 80
              ([] ++ (Reconciler.output_record _ example_attr example_obj
                        frame_params_plain (Reconciler.add_elements example_elements)
                        (Some (mkResolution 1280 720))
                      <$> Reconciler.correct_object_ids untracked_id ∅ cars_frame))).
Proof.
  apply (proj2 (X19_frame_raises_iff_primary_without_resolution untracked_id "frame"
                  _ example_attr example_obj (fun _ _ _ => []) frame_params_plain
                  (Reconciler.add_elements example_elements) one_linked_stream
                  cars_only_frame) linked_camera).
  - reflexivity.
  - repeat (apply Forall_cons; split; [discriminate|]). apply Forall_nil_2.
Defined.

(** X20: registering more attributes as internal only takes attributes
    out of the output of an object: what is exported under the larger set
    is what is exported under the smaller one, filtered again, so order and
    multiplicity of the remaining attributes are kept; with nothing
    registered every attribute is exported. *)
Theorem X20_more_internal_attrs_export_less :
  forall (ia ia' : gset (string * string)) (o : Reconciler.NvDsObjectMeta),
    ia ⊆ ia' ->
    Reconciler.exported ia' o
    = filter (fun a => (Reconciler.element_name a, Reconciler.attr_name a) ∉ ia')
             (Reconciler.exported ia o)
    /\ Reconciler.exported ia' o `sublist_of` Reconciler.exported ia o
    /\ Reconciler.exported ∅ o = concat (Reconciler.attr_meta_lists o).
Proof.
  intros ia ia' o Hsub. unfold Reconciler.exported.
  assert (E : filter (fun a => (Reconciler.element_name a, Reconciler.attr_name a) ∉ ia')
                (concat (Reconciler.attr_meta_lists o))
              = filter (fun a => (Reconciler.element_name a, Reconciler.attr_name a) ∉ ia')
                  (filter (fun a => (Reconciler.element_name a, Reconciler.attr_name a) ∉ ia)
                     (concat (Reconciler.attr_meta_lists o)))).
  { symmetry. apply list_filter_filter_l. intros a Ha Hin. apply Ha. by apply Hsub. }
  split; [exact E|]. split.
  - rewrite E. apply sublist_filter.
  - clear E. induction (concat (Reconciler.attr_meta_lists o)) as [|a l IH]; [done|].
    rewrite filter_cons_True by apply not_elem_of_empty. by rewrite IH.
Qed.

Lemma X20_more_internal_attrs_witness :
  Reconciler.exported (Reconciler.add_elements example_elements) car_object
  `sublist_of` Reconciler.exported ∅ car_object.
Proof.
  apply (X20_more_internal_attrs_export_less ∅
           (Reconciler.add_elements example_elements) car_object).
  apply empty_subseteq.
Defined.

(** X21: the set of internal attributes does not depend on the order in
    which the elements are added nor on repetitions: it is the union of the
    sets of the parts of the element list; elements that are no model
    elements, and models of other kinds, register nothing. *)
Theorem X21_internal_attrs_union_of_elements :
  forall l1 l2 : list Reconciler.PipelineElement,
    Reconciler.add_elements (l1 ++ l2)
    = Reconciler.add_elements l1 ∪ Reconciler.add_elements l2
    /\ (l1 ≡ₚ l2 -> Reconciler.add_elements l1 = Reconciler.add_elements l2)
    /\ forall (name : string),
        Reconciler.add_elements (l1 ++ [Reconciler.PlainElement name])
        = Reconciler.add_elements l1
        /\ Reconciler.add_elements
             (l1 ++ [Reconciler.ModelElement name Reconciler.OtherModel])
           = Reconciler.add_elements l1.
Proof.
  intros l1 l2.
  assert (Hin : forall (l l' : list Reconciler.PipelineElement),
            (forall name attributes,
               (Reconciler.ModelElement name (Reconciler.AttributeModel attributes) ∈ l
                <-> Reconciler.ModelElement name (Reconciler.AttributeModel attributes) ∈ l')
               /\ (Reconciler.ModelElement name (Reconciler.ComplexModel attributes) ∈ l
                   <-> Reconciler.ModelElement name (Reconciler.ComplexModel attributes) ∈ l')) ->
            Reconciler.add_elements l = Reconciler.add_elements l').
  { intros l l' H. apply set_eq. intros [x y]. rewrite !add_elements_spec.
    split; intros (attrs & [Hm|Hm] & Ha); exists attrs;
      (split; [|done]); [left|right|left|right]; by apply H. }
  split; [|split].
  - apply set_eq. intros [x y].
    rewrite elem_of_union, !add_elements_spec. split.
    + intros (attrs & [Hm|Hm] & Ha); apply elem_of_app in Hm as [Hm|Hm];
        [left|right|left|right]; exists attrs; eauto.
    + intros [(attrs & [Hm|Hm] & Ha)|(attrs & [Hm|Hm] & Ha)]; exists attrs;
        (split; [|done]); [left|right|left|right]; apply elem_of_app; eauto.
  - intros Hp. apply Hin. intros name attrs. by rewrite Hp.
  - intros name. split; apply Hin; intros n attrs; rewrite !elem_of_app;
      split; (split; [intros [?|Hx]; [done|]|by left]);
      apply list_elem_of_singleton in Hx; discriminate.
Qed.

Lemma X21_internal_attrs_witness :
  Reconciler.add_elements (reverse example_elements)
  = Reconciler.add_elements example_elements.
Proof.
  apply (proj1 (proj2 (X21_internal_attrs_union_of_elements
                         (reverse example_elements) example_elements))).
  apply reverse_Permutation.
Defined.

(** ** Destination resolutions *)

Section Resolutions.
Import SourceOutput.

Lemma with_frame_dest_resolution_None (fp : FrameParameters) (s : SourceInfo) :
  with_frame_dest_resolution fp s = None
  <-> src_resolution s = None
      \/ exists pd, padding fp = Some pd /\ keep pd = true
                    /\ (fp_width fp = 0 \/ fp_height fp = 0).
Proof.
  unfold with_frame_dest_resolution.
  destruct (src_resolution s) as [r|]; [|by split; auto].
  destruct (padding fp) as [pd|].
  - destruct (keep pd) eqn:Hk.
    + destruct (Z.eqb_spec (fp_width fp) 0), (Z.eqb_spec (fp_height fp) 0); simpl;
        (split; [intros H; try done; right; exists pd; by auto|]);
        try done; intros [?|(pd' & [= <-] & _ & [?|?])]; done.
    + split; [done|]. intros [?|(pd' & [= <-] & ? & _)]; congruence.
  - split; [done|]. by intros [?|(pd' & ? & _)].
Qed.

Lemma dest_resolution_None (o : t) (s : SourceInfo) :
  dest_resolution o s = None <-> src_resolution s = None \/ zero_divisor o.
Proof.
  unfold zero_divisor.
  destruct o as [|fp|c fp|c fp|c fp]; simpl;
    unfold only_meta_dest_resolution, png_dest_resolution.
  - destruct (src_resolution s); split; auto; try done.
    by intros [?|(fp & pd & ? & _)].
  - rewrite with_frame_dest_resolution_None. split; intros [?|H]; auto; right.
    + destruct H as (pd & ?). by exists fp, pd.
    + destruct H as (fp' & pd & [= <-] & ?). by exists pd.
  - rewrite with_frame_dest_resolution_None. split; intros [?|H]; auto; right.
    + destruct H as (pd & ?). by exists fp, pd.
    + destruct H as (fp' & pd & [= <-] & ?). by exists pd.
  - rewrite with_frame_dest_resolution_None. split; intros [?|H]; auto; right.
    + destruct H as (pd & ?). by exists fp, pd.
    + destruct H as (fp' & pd & [= <-] & ?). by exists pd.
  - destruct (with_frame_dest_resolution fp s) eqn:Hw.
    + split; [done|]. intros H.
      assert (Hn : with_frame_dest_resolution fp s = None); [|congruence].
      apply with_frame_dest_resolution_None. destruct H as [?|H]; auto; right.
      destruct H as (fp' & pd & [= <-] & ?). by exists pd.
    + split; [|done]. intros _.
      apply with_frame_dest_resolution_None in Hw as [?|H]; auto; right.
      destruct H as (pd & ?). by exists fp, pd.
Qed.

Lemma py_round_div_8_multiple (q : Z) : py_round_div (q * 8) 8 = q.
Proof.
  unfold py_round_div. rewrite Z.div_mul, Z.mod_mul by lia. reflexivity.
Qed.

Lemma py_round_div_8_cases (n : Z) :
  let q := n / 8 in
  let m := n mod 8 in
  n = 8 * q + m /\ 0 <= m < 8
  /\ ((m < 4 /\ py_round_div n 8 = q)
      \/ (4 < m /\ py_round_div n 8 = q + 1)
      \/ (m = 4 /\ Z.even q = true /\ py_round_div n 8 = q)
      \/ (m = 4 /\ Z.even q = false /\ py_round_div n 8 = q + 1)).
Proof.
  intros q m. unfold py_round_div. fold q m.
  pose proof (Z.div_mod n 8 ltac:(lia)) as Hdm.
  pose proof (Z.mod_pos_bound n 8 ltac:(lia)) as Hb. fold q m in Hdm, Hb.
  split; [done|]. split; [done|].
  destruct (Z.compare_spec (2 * m) 8) as [He|Hl|Hg].
  - destruct (Z.even q) eqn:Hev; [right; right; left|right; right; right];
      repeat split; lia.
  - left. split; [lia|done].
  - right. left. split; [lia|done].
Qed.

Lemma py_round_div_8_mono (a b : Z) :
  a <= b -> py_round_div a 8 <= py_round_div b 8.
Proof.
  intros Hab.
  destruct (py_round_div_8_cases a) as (Ha & Hma & Ca).
  destruct (py_round_div_8_cases b) as (Hb & Hmb & Cb).
  destruct (Z.eq_dec (a / 8) (b / 8)) as [Heq|Hne].
  - rewrite <- Heq in *.
    destruct Ca as [[? ->]|[[? ->]|[(? & Hea & ->)|(? & Hea & ->)]]];
      destruct Cb as [[? ->]|[[? ->]|[(? & Heb & ->)|(? & Heb & ->)]]];
      try lia; congruence.
  - assert (a / 8 < b / 8) by lia.
    destruct Ca as [[? ->]|[[? ->]|[(? & Hea & ->)|(? & Hea & ->)]]];
      destruct Cb as [[? ->]|[[? ->]|[(? & Heb & ->)|(? & Heb & ->)]]]; lia.
Qed.

Lemma py_round_div_8_zero (n : Z) : py_round_div n 8 = 0 <-> -4 <= n <= 4.
Proof.
  split.
  - intros H0. destruct (py_round_div_8_cases n) as (Hn & Hm & C).
    rewrite H0 in C.
    destruct C as [[? Hq]|[[? Hq]|[(? & He & Hq)|(? & He & Hq)]]]; lia.
  - intros Hn.
    pose proof (py_round_div_8_mono (-4) n ltac:(lia)) as H1.
    pose proof (py_round_div_8_mono n 4 ltac:(lia)) as H2.
    change (py_round_div (-4) 8) with 0 in H1.
    change (py_round_div 4 8) with 0 in H2. lia.
Qed.

(** X22: linking a stream in [_on_source_caps] raises exactly when the
    stream has no post-batch elements yet and the output keeps the padding
    of frames without width or height ([ZeroDivisionError] in
    [dest_resolution]); for the metadata-only output it never raises. In
    general [dest_resolution] raises exactly for a record without source
    resolution or on that zero divisor. *)
Theorem X22_linking_raises_only_on_zero_frame :
  forall (r : Pipeline.ref) (s : SourceInfo) (w h : Z) (accepts : bool)
         (p : Pipeline.NvDsPipeline),
    (Pipeline.link_source r s w h accepts p = None
     <-> after_demuxer s = [] /\ zero_divisor (Pipeline._source_output p))
    /\ (Pipeline._source_output p = SourceOutputOnlyMeta ->
        Pipeline.link_source r s w h accepts p <> None)
    /\ forall o : t,
        dest_resolution o s = None <-> src_resolution s = None \/ zero_divisor o.
Proof.
  intros r s w h acc p.
  assert (Hl : Pipeline.link_source r s w h acc p = None
               <-> after_demuxer s = [] /\ zero_divisor (Pipeline._source_output p)).
  { unfold Pipeline.link_source. cbn [after_demuxer with_src_resolution].
    destruct (after_demuxer s) as [|e l] eqn:Ha.
    - unfold Pipeline._add_source_output.
      destruct (dest_resolution _ _) as [d|] eqn:Hd.
      + split; [done|]. intros [_ Hz].
        assert (Hn : dest_resolution (Pipeline._source_output p)
                       (with_after_demuxer
                          (after_demuxer
                             (with_src_resolution (Some (mkResolution w h)) s)
                           ++ ["queue"%string])
                          (with_src_resolution (Some (mkResolution w h)) s)) = None)
          by (apply dest_resolution_None; auto).
        congruence.
      + split; [|done]. intros _. split; [done|].
        apply dest_resolution_None in Hd as [Hd|Hd]; [discriminate|done].
    - split; [done|]. by intros [? _]. }
  split; [exact Hl|]. split; [|intros o; apply dest_resolution_None].
  intros Ho Hn. apply Hl in Hn as [_ (fp & pd & Hfp & _)].
  rewrite Ho in Hfp. discriminate.
Qed.

Lemma X22_linking_raises_witness :
  Pipeline.link_source 0%nat waiting_camera 1280 720 true
    (Pipeline.init 2 (SourceOutputRawRgba frame_params_zero) true) = None
  /\ Pipeline.link_source 0%nat waiting_camera 1280 720 true
       (Pipeline.init 2 SourceOutputOnlyMeta true) <> None.
Proof.
  split.
  - apply (proj1 (X22_linking_raises_only_on_zero_frame 0%nat waiting_camera
                    1280 720 true
                    (Pipeline.init 2 (SourceOutputRawRgba frame_params_zero) true))).
    split; [reflexivity|].
    exists frame_params_zero, (mkFramePadding 10 20 10 20 true).
    repeat split. by left.
  - apply (proj1 (proj2 (X22_linking_raises_only_on_zero_frame 0%nat waiting_camera
                           1280 720 true
                           (Pipeline.init 2 SourceOutputOnlyMeta true)))).
    reflexivity.
Defined.

(** X23: the PNG rounding is a projection. A destination resolution whose
    dimensions are multiples of 8 is left as it is, and when the padding is
    not kept, the PNG destination resolution of a source that already has
    the PNG destination resolution of another source is that resolution
    again. The bound is the range in which the binary64 division by 8 of
    the code is exact. *)
Theorem X23_png_rounding_is_idempotent :
  forall (fp : FrameParameters) (s : SourceInfo) (d : Resolution),
    (forall pd, padding fp = Some pd -> keep pd = false) ->
    png_dest_resolution fp s = Some d ->
    Z.abs (res_width d) <= 2 ^ 53 -> Z.abs (res_height d) <= 2 ^ 53 ->
    res_width d mod 8 = 0 /\ res_height d mod 8 = 0
    /\ png_dest_resolution fp (with_src_resolution (Some d) s) = Some d
    /\ forall s' d',
        with_frame_dest_resolution fp s' = Some d' ->
        res_width d' mod 8 = 0 -> res_height d' mod 8 = 0 ->
        png_dest_resolution fp s' = Some d'.
Proof.
  intros fp s d Hk Hp _ _.
  assert (Hfix : forall s' d',
             with_frame_dest_resolution fp s' = Some d' ->
             res_width d' mod 8 = 0 -> res_height d' mod 8 = 0 ->
             png_dest_resolution fp s' = Some d').
  { intros s' [w' h'] Hw Hmw Hmh. unfold png_dest_resolution. rewrite Hw.
    cbn [res_width res_height] in *.
    apply Z.mod_divide in Hmw as [qw ->]; [|lia].
    apply Z.mod_divide in Hmh as [qh ->]; [|lia].
    by rewrite !py_round_div_8_multiple. }
  unfold png_dest_resolution in Hp.
  destruct (with_frame_dest_resolution fp s) as [[w h]|] eqn:Hw; [|done].
  injection Hp as <-. cbn [res_width res_height].
  split; [apply Z.mod_mul; lia|]. split; [apply Z.mod_mul; lia|].
  split; [|exact Hfix].
  apply Hfix; cbn [res_width res_height]; try (apply Z.mod_mul; lia).
  unfold with_frame_dest_resolution. cbn [src_resolution with_src_resolution].
  destruct (padding fp) as [pd|]; [|done]. by rewrite (Hk pd eq_refl).
Qed.

Lemma X23_png_rounding_witness :
  png_dest_resolution frame_params_plain
    (with_src_resolution (Some (mkResolution 104 200)) source_101x202)
  = Some (mkResolution 104 200).
Proof.
  refine (proj1 (proj2 (proj2 (X23_png_rounding_is_idempotent frame_params_plain
                                 source_101x202 (mkResolution 104 200) _ _ _ _)))).
  - intros pd H. discriminate.
  - reflexivity.
  - vm_compute. discriminate.
  - vm_compute. discriminate.
Defined.

(** X24: within the range in which the binary64 division by 8 is exact,
    the PNG rounding is monotone in each dimension, and a dimension
    is rounded to 0 exactly when it is between -4 and 4 (ties go to the
    even multiple): a destination of up to 4 pixels gets a PNG dimension of
    0, one of 5 to 11 pixels gets 8. *)
Theorem X24_png_rounding_small_dimensions :
  forall (fp : FrameParameters) (s : SourceInfo) (w h : Z),
    with_frame_dest_resolution fp s = Some (mkResolution w h) ->
    Z.abs w <= 2 ^ 53 -> Z.abs h <= 2 ^ 53 ->
    exists w' h' : Z,
      png_dest_resolution fp s = Some (mkResolution w' h')
      /\ (w' = 0 <-> -4 <= w <= 4) /\ (h' = 0 <-> -4 <= h <= 4)
      /\ (5 <= w <= 11 -> w' = 8) /\ (5 <= h <= 11 -> h' = 8)
      /\ forall (s2 : SourceInfo) (w2 h2 : Z),
          with_frame_dest_resolution fp s2 = Some (mkResolution w2 h2) ->
          w <= w2 <= 2 ^ 53 -> h <= h2 <= 2 ^ 53 ->
          exists w2' h2' : Z,
            png_dest_resolution fp s2 = Some (mkResolution w2' h2')
            /\ w' <= w2' /\ h' <= h2'.
Proof.
  intros fp s w h Hw _ _. unfold png_dest_resolution. rewrite Hw.
  cbn [res_width res_height]. eexists _, _. split; [reflexivity|].
  assert (Hz : forall n, py_round_div n 8 * 8 = 0 <-> -4 <= n <= 4).
  { intros n. rewrite <- py_round_div_8_zero. lia. }
  assert (H8 : forall n, 5 <= n <= 11 -> py_round_div n 8 * 8 = 8).
  { intros n Hn.
    pose proof (py_round_div_8_mono 5 n ltac:(lia)) as H1.
    pose proof (py_round_div_8_mono n 11 ltac:(lia)) as H2.
    change (py_round_div 5 8) with 1 in H1.
    change (py_round_div 11 8) with 1 in H2. lia. }
  split; [apply Hz|]. split; [apply Hz|]. split; [apply H8|]. split; [apply H8|].
  intros s2 w2 h2 Hw2 [Hle1 _] [Hle2 _]. rewrite Hw2. cbn [res_width res_height].
  eexists _, _. split; [reflexivity|].
  pose proof (py_round_div_8_mono w w2 Hle1).
  pose proof (py_round_div_8_mono h h2 Hle2). lia.
Qed.

Lemma X24_png_rounding_witness :
  exists w' h' : Z,
    png_dest_resolution frame_params_plain
      (with_src_resolution (Some (mkResolution 4 11)) source_101x202)
    = Some (mkResolution w' h')
    /\ (w' = 0 <-> -4 <= 4 <= 4) /\ (5 <= 11 <= 11 -> h' = 8).
Proof.
  destruct (X24_png_rounding_small_dimensions frame_params_plain
              (with_src_resolution (Some (mkResolution 4 11)) source_101x202)
              4 11 eq_refl) as (w' & h' & H1 & H2 & _ & _ & H3 & _);
    [vm_compute; discriminate..|].
  by exists w', h'.
Defined.

(** X25: with the padding kept, frame dimensions that are positive and a
    total frame not smaller than the frame, the destination resolution of a
    source is the source resolution scaled by total over frame and rounded
    down, in each dimension: never below the source resolution, and equal
    to it when that dimension has no padding. *)
Theorem X25_kept_padding_scales_up :
  forall (fp : FrameParameters) (pd : FramePadding) (s : SourceInfo) (w h : Z),
    padding fp = Some pd -> keep pd = true ->
    src_resolution s = Some (mkResolution w h) ->
    0 < fp_width fp <= total_width fp -> 0 < fp_height fp <= total_height fp ->
    0 <= w -> 0 <= h ->
    exists w' h' : Z,
      with_frame_dest_resolution fp s = Some (mkResolution w' h')
      /\ w <= w' /\ h <= h'
      /\ w' * fp_width fp <= w * total_width fp < (w' + 1) * fp_width fp
      /\ h' * fp_height fp <= h * total_height fp < (h' + 1) * fp_height fp
      /\ (total_width fp = fp_width fp -> w' = w)
      /\ (total_height fp = fp_height fp -> h' = h).
Proof.
  intros fp pd s w h Hp Hk Hs Hw Hh Hw0 Hh0.
  unfold with_frame_dest_resolution. rewrite Hs, Hp, Hk. cbn [res_width res_height].
  destruct (Z.eqb_spec (fp_width fp) 0); [lia|].
  destruct (Z.eqb_spec (fp_height fp) 0); [lia|]. simpl.
  eexists _, _. split; [reflexivity|].
  assert (Hdiv : forall a T F : Z, 0 <= a -> 0 < F <= T ->
            a <= a * T / F
            /\ a * T / F * F <= a * T < (a * T / F + 1) * F
            /\ (T = F -> a * T / F = a)).
  { intros a T F Ha HF.
    pose proof (Z.div_mod (a * T) F ltac:(lia)) as Hdm.
    pose proof (Z.mod_pos_bound (a * T) F ltac:(lia)) as Hb.
    split; [|split].
    - apply Z.div_le_lower_bound; [lia|nia].
    - nia.
    - intros ->. apply Z.div_mul. lia. }
  destruct (Hdiv w (total_width fp) (fp_width fp) Hw0 Hw) as (? & ? & ?).
  destruct (Hdiv h (total_height fp) (fp_height fp) Hh0 Hh) as (? & ? & ?).
  repeat split; tauto.
Qed.

Lemma X25_kept_padding_witness :
  exists w' h' : Z,
    with_frame_dest_resolution frame_params_keep source_101x202
    = Some (mkResolution w' h')
    /\ 101 <= w' /\ 202 <= h'.
Proof.
  destruct (X25_kept_padding_scales_up frame_params_keep
              (mkFramePadding 10 20 10 20 true) source_101x202 101 202
              eq_refl eq_refl eq_refl)
    as (w' & h' & H1 & H2 & H3 & _); [simpl; lia..|].
  by exists w', h'.
Defined.

End Resolutions.

(** ** Bounding boxes: composing the setters *)

(** X26: in the arithmetic the class computes with (binary64, and any
    other), the setters of [left] and [top] compose without rounding
    effects, because each recomputes its centre coordinate from the value
    and the size, which no setter changes: the last value written to [left]
    (to [top]) wins, whatever was written before, and writes to [left] and
    to [top] commute. *)
Theorem X26_bbox_setters_last_write_wins :
  forall (F : Type) (N : Bbox.Num F) (b : Bbox.BBox F) (u v t : F),
    Bbox.set_left (Bbox.set_left b u) v = Bbox.set_left b v
    /\ Bbox.set_top (Bbox.set_top b u) t = Bbox.set_top b t
    /\ Bbox.set_left (Bbox.set_top b t) v = Bbox.set_top (Bbox.set_left b v) t
    /\ Bbox.width (Bbox.set_left (Bbox.set_top b t) v) = Bbox.width b
    /\ Bbox.height (Bbox.set_left (Bbox.set_top b t) v) = Bbox.height b
    /\ Bbox.right (Bbox.set_left b v)
       = Bbox.nadd (Bbox.nadd v (Bbox.nmul Bbox.half (Bbox.width b)))
                   (Bbox.nmul Bbox.half (Bbox.width b))
    /\ Bbox.bottom (Bbox.set_top b t)
       = Bbox.nadd (Bbox.nadd t (Bbox.nmul Bbox.half (Bbox.height b)))
                   (Bbox.nmul Bbox.half (Bbox.height b)).
Proof.
  intros F N [xc yc w h] u v t.
  unfold Bbox.set_left, Bbox.set_top, Bbox.right, Bbox.bottom.
  cbn [Bbox.x_center Bbox.y_center Bbox.width Bbox.height].
  repeat split; reflexivity.
Qed.
